(** * The EVP provider runtime: method ids, generic fetch, the digest
      envelope and the DH key-exchange provider.

    A shallow embedding of
    - [crypto/evp/evp_fetch.c]  ([method_id], [get_method_from_store],
      [evp_generic_fetch]),
    - [crypto/evp/digest.c]     ([EVP_MD_CTX_reset], [EVP_DigestUpdate],
      [EVP_DigestFinal_ex], [evp_md_from_dispatch]),
    - the DH key-exchange provider ([dh_init], [dh_set_peer], [dh_derive],
      [dh_set_params]).

    C integers are [Z] with the wrap-around of their width written out;
    nullable pointers are [option]; a call through a null function pointer
    is the outcome [Undefined]. *)

From Stdlib Require Import ZArith List String Bool Lia.
Import ListNotations.
Local Open Scope Z_scope.

(** ** Machine integers *)

Definition UINT_MAX : Z := 2 ^ 32 - 1.

(** Conversion of an [int] to [unsigned int] / [uint32_t]. *)
Definition to_uint (x : Z) : Z := x mod 2 ^ 32.

(** Conversion of an [int] to [size_t]. *)
Definition to_size_t (x : Z) : Z := x mod 2 ^ 64.

(** ** Method identities (evp_fetch.c) *)

Module MethodId.

(** [static uint32_t method_id(unsigned int operation_id, unsigned int name_id)].
    Both arguments are unsigned 32-bit values.  [ossl_assert] is taken in
    its release form, where it is the truth value of its argument. *)
Definition method_id (operation_id name_id : Z) : Z :=
  if negb ((name_id <? Z.shiftl 1 24) || (operation_id <? Z.shiftl 1 8))
     || negb ((0 <? name_id) && (0 <? operation_id))
  then 0
  else Z.lor (Z.land (to_uint (Z.shiftl name_id 8)) 0xFFFFFF00)
             (Z.land operation_id 0x000000FF).

(** The domain on which the packing is meant to be used: the width
    invariants of the comment above [method_id]. *)
Definition in_width (operation_id name_id : Z) : Prop :=
  0 < name_id < 2 ^ 24 /\ 0 < operation_id < 2 ^ 8.

End MethodId.

(** ** Pointers, outcomes and dispatch tables *)

(** An address.  A nullable C pointer is an [option ptr]; [None] is NULL. *)
Definition ptr := Z.

(** The address of a function; a nullable function pointer is an
    [option fnptr]. *)
Definition fnptr := Z.

(** What a call can do: return, or run into C's undefined behaviour (a
    call through a null function pointer, a null dereference), or end the
    process ([OPENSSL_assert]). *)
Inductive outcome (A : Type) : Type :=
| Returns (a : A)
| Undefined
| Died.
Arguments Returns {A} a.
Arguments Undefined {A}.
Arguments Died {A}.

(** [OSSL_DISPATCH]: a function identity and a function pointer.  A table
    is the array read from its first element; reading stops at the first
    element whose identity is 0. *)
Record OSSL_DISPATCH : Type := mkDispatch {
  function_id : Z;
  function : option fnptr
}.

(** ** Generic fetch (evp_fetch.c) *)

Module Fetch.
Import MethodId.

Section Model.
(** The state of the library: method stores, name maps, reference
    counts.  Its operations live outside evp_fetch.c and are taken as
    the interface [lib_ops] below. *)
Variable W : Type.

(** The three function pointers [evp_generic_fetch] receives. *)
Definition new_method_fn : Type :=
  W -> string -> list OSSL_DISPATCH -> option ptr -> W * option ptr.
Definition up_ref_method_fn : Type := W -> ptr -> W * Z.
Definition free_method_fn : Type := W -> ptr -> W.

(** [struct method_data_st] (the back pointer [mcm] is passed next to
    it instead). *)
Record method_data_st : Type := mkMethodData {
  libctx : option ptr;
  name : string;
  method_from_dispatch : new_method_fn;
  refcnt_up_method : up_ref_method_fn;
  destruct_method : free_method_fn
}.

(** [methdata->libctx], where a parameter named [libctx] is in scope. *)
Definition methdata_libctx (data : method_data_st) : option ptr :=
  libctx data.

(** [OSSL_METHOD_CONSTRUCT_METHOD]: the callbacks handed to
    [ossl_method_construct]. *)
Record OSSL_METHOD_CONSTRUCT_METHOD : Type := mkMcm {
  alloc_tmp_store : W -> option ptr -> W * option ptr;
  dealloc_tmp_store : W -> option ptr -> W;
  get : W -> option ptr -> option ptr -> Z -> string -> string ->
        method_data_st -> W * option ptr;
  put : W -> option ptr -> option ptr -> ptr -> Z -> string -> string ->
        method_data_st -> W * Z;
  construct : W -> string -> list OSSL_DISPATCH -> option ptr ->
              method_data_st -> W * option ptr;
  destruct : W -> ptr -> method_data_st -> W
}.

(** The collaborators of evp_fetch.c: library context data, name map,
    method store with its query cache, and the method constructor. *)
Record lib_ops : Type := mkLibOps {
  OPENSSL_CTX_DEFAULT_METHOD_STORE_INDEX : Z;
  openssl_ctx_get_data : W -> option ptr -> Z -> option ptr;
  ossl_namemap_stored : W -> option ptr -> option ptr;
  ossl_namemap_name2num : W -> ptr -> string -> Z;
  ossl_namemap_add : W -> ptr -> Z -> string -> W * Z;
  ossl_method_store_new : W -> option ptr -> W * option ptr;
  ossl_method_store_free : W -> ptr -> W;
  ossl_method_store_fetch : W -> ptr -> Z -> string -> option ptr;
  ossl_method_store_add :
    W -> ptr -> Z -> string -> ptr -> free_method_fn -> W * Z;
  ossl_method_store_cache_get : W -> ptr -> Z -> string -> option ptr;
  ossl_method_store_cache_set : W -> ptr -> Z -> string -> ptr -> W;
  ossl_method_construct :
    W -> option ptr -> Z -> string -> string -> Z ->
    OSSL_METHOD_CONSTRUCT_METHOD -> method_data_st -> W * option ptr
}.

Variable ops : lib_ops.

Definition alloc_tmp_method_store (w : W) (ctx : option ptr)
  : W * option ptr :=
  ossl_method_store_new ops w ctx.

Definition dealloc_tmp_method_store (w : W) (store : option ptr) : W :=
  match store with
  | Some s => ossl_method_store_free ops w s
  | None => w
  end.

Definition get_default_method_store (w : W) (libctx : option ptr)
  : option ptr :=
  openssl_ctx_get_data ops w libctx
    (OPENSSL_CTX_DEFAULT_METHOD_STORE_INDEX ops).

(** [store == NULL && (store = get_default_method_store(libctx)) == NULL] *)
Definition store_or_default (w : W) (libctx store : option ptr)
  : option ptr :=
  match store with
  | Some s => Some s
  | None => get_default_method_store w libctx
  end.

Definition get_method_from_store (w : W) (libctx store : option ptr)
    (operation_id : Z) (name propquery : string) (data : method_data_st)
  : W * option ptr :=
  match store_or_default w libctx store with
  | None => (w, None)
  | Some store =>
    match ossl_namemap_stored ops w libctx with
    | None => (w, None)
    | Some namemap =>
      let nameid := ossl_namemap_name2num ops w namemap name in
      if nameid =? 0 then (w, None) else
      let methid := method_id (to_uint operation_id) (to_uint nameid) in
      if methid =? 0 then (w, None) else
      match ossl_method_store_fetch ops w store methid propquery with
      | None => (w, None)
      | Some method =>
        let (w', r) := refcnt_up_method data w method in
        if r =? 0 then (w', None) else (w', Some method)
      end
    end
  end.

Definition put_method_in_store (w : W) (libctx store : option ptr)
    (method : ptr) (operation_id : Z) (name propdef : string)
    (data : method_data_st) : W * Z :=
  match ossl_namemap_stored ops w (methdata_libctx data) with
  | None => (w, 0)
  | Some namemap =>
    let (w1, nameid) := ossl_namemap_add ops w namemap 0 name in
    if nameid =? 0 then (w1, 0) else
    let methid := method_id (to_uint operation_id) (to_uint nameid) in
    if methid =? 0 then (w1, 0) else
    match store_or_default w1 libctx store with
    | None => (w1, 0)
    | Some store =>
      let (w2, r) := refcnt_up_method data w1 method in
      if r =? 0 then (w2, 0) else
      let (w3, added) :=
        ossl_method_store_add ops w2 store methid propdef method
          (destruct_method data) in
      if added =? 0 then (w3, 0) else (w3, 1)
    end
  end.

Definition construct_method (w : W) (name : string)
    (fns : list OSSL_DISPATCH) (prov : option ptr) (data : method_data_st)
  : W * option ptr :=
  method_from_dispatch data w name fns prov.

Definition destruct_method_cb (w : W) (method : ptr)
    (data : method_data_st) : W :=
  destruct_method data w method.

(** The local [mcm] of [evp_generic_fetch]. *)
Definition mcm : OSSL_METHOD_CONSTRUCT_METHOD :=
  {| alloc_tmp_store := alloc_tmp_method_store;
     dealloc_tmp_store := dealloc_tmp_method_store;
     get := get_method_from_store;
     put := put_method_in_store;
     construct := construct_method;
     destruct := destruct_method_cb |}.

(** [evp_generic_fetch].  [ossl_assert] is in its release form.  The
    world is threaded through the calls that can change it. *)
Definition evp_generic_fetch (w : W) (libctx : option ptr)
    (operation_id : Z) (name properties : string)
    (new_method : new_method_fn) (up_ref_method : up_ref_method_fn)
    (free_method : free_method_fn) : W * option ptr :=
  match get_default_method_store w libctx,
        ossl_namemap_stored ops w libctx with
  | Some store, Some namemap =>
    if negb (0 <? operation_id) then (w, None) else
    let nameid := ossl_namemap_name2num ops w namemap name in
    let methid :=
      if nameid =? 0 then 0
      else method_id (to_uint operation_id) (to_uint nameid) in
    if negb (nameid =? 0) && (methid =? 0) then (w, None) else
    match (if nameid =? 0 then None
           else ossl_method_store_cache_get ops w store methid properties)
    with
    | None =>
      let mcmdata :=
        {| libctx := libctx;
           name := name;
           method_from_dispatch := new_method;
           refcnt_up_method := up_ref_method;
           destruct_method := free_method |} in
      match ossl_method_construct ops w libctx operation_id name
              properties 0 mcm mcmdata with
      | (w1, Some method) =>
        let nameid := ossl_namemap_name2num ops w1 namemap name in
        let methid := method_id (to_uint operation_id) (to_uint nameid) in
        (ossl_method_store_cache_set ops w1 store methid properties method,
         Some method)
      | (w1, None) => (w1, None)
      end
    | Some method => (fst (up_ref_method w method), Some method)
    end
  | _, _ => (w, None)
  end.

End Model.

Arguments libctx {W} _.
Arguments name {W} _.
Arguments method_from_dispatch {W} _.
Arguments refcnt_up_method {W} _.
Arguments destruct_method {W} _.
Arguments get {W} _.
Arguments OPENSSL_CTX_DEFAULT_METHOD_STORE_INDEX {W} _.
Arguments openssl_ctx_get_data {W} _.
Arguments ossl_namemap_stored {W} _.
Arguments ossl_namemap_name2num {W} _.
Arguments ossl_namemap_add {W} _.
Arguments ossl_method_store_fetch {W} _.
Arguments ossl_method_store_add {W} _.
Arguments ossl_method_store_cache_get {W} _.
Arguments ossl_method_store_cache_set {W} _.
Arguments ossl_method_construct {W} _.
Arguments get_default_method_store {W} ops w libctx.
Arguments get_method_from_store {W} ops w libctx store operation_id name
  propquery data.
Arguments put_method_in_store {W} ops w libctx store method operation_id
  name propdef data.
Arguments mcm {W} ops.
Arguments evp_generic_fetch {W} ops w libctx operation_id name properties
  new_method up_ref_method free_method.

(** What [evp_generic_fetch] relies on in its collaborators. *)
Section Laws.
Context {W : Type} (ops : lib_ops W).

(** The query cache keeps what [ossl_method_store_cache_set] records,
    and recording leaves the store, the name map and the names alone. *)
Record cache_laws : Prop := mkCacheLaws {
  cache_get_set : forall w store id q m,
    ossl_method_store_cache_get ops
      (ossl_method_store_cache_set ops w store id q m) store id q = Some m;
  cache_set_store : forall w store id q m c,
    get_default_method_store ops
      (ossl_method_store_cache_set ops w store id q m) c
    = get_default_method_store ops w c;
  cache_set_namemap : forall w store id q m c,
    ossl_namemap_stored ops
      (ossl_method_store_cache_set ops w store id q m) c
    = ossl_namemap_stored ops w c;
  cache_set_names : forall w store id q m nm n,
    ossl_namemap_name2num ops
      (ossl_method_store_cache_set ops w store id q m) nm n
    = ossl_namemap_name2num ops w nm n
}.

(** Taking a reference leaves the store, the name map, the names and
    the query cache alone. *)
Record up_ref_frame (up : up_ref_method_fn W) : Prop := mkUpRefFrame {
  up_store : forall w m c,
    get_default_method_store ops (fst (up w m)) c
    = get_default_method_store ops w c;
  up_namemap : forall w m c,
    ossl_namemap_stored ops (fst (up w m)) c = ossl_namemap_stored ops w c;
  up_names : forall w m nm n,
    ossl_namemap_name2num ops (fst (up w m)) nm n
    = ossl_namemap_name2num ops w nm n;
  up_cache : forall w m store id q,
    ossl_method_store_cache_get ops (fst (up w m)) store id q
    = ossl_method_store_cache_get ops w store id q
}.

(** A construction that yields a method keeps the library context's
    store and name map, and leaves the name with an identity from which
    a method identity can be formed (the comment in
    [evp_generic_fetch]: they have been calculated in
    [get_method_from_store] and [put_method_in_store]). *)
Definition construct_laws (new_method : new_method_fn W)
    (up : up_ref_method_fn W) (free_method : free_method_fn W) : Prop :=
  forall w c op n q w1 m,
    ossl_method_construct ops w c op n q 0 (mcm ops)
      (mkMethodData W c n new_method up free_method) = (w1, Some m) ->
    get_default_method_store ops w1 c = get_default_method_store ops w c
    /\ ossl_namemap_stored ops w1 c = ossl_namemap_stored ops w c
    /\ forall nm, ossl_namemap_stored ops w c = Some nm ->
         ossl_namemap_name2num ops w1 nm n <> 0
         /\ method_id (to_uint op)
              (to_uint (ossl_namemap_name2num ops w1 nm n)) <> 0.
End Laws.

End Fetch.

(** ** A small library context

    One default store, one name map and no provider registered: its
    [ossl_method_construct] only looks the method up in the default store
    through the [get] callback.  It serves to run [evp_generic_fetch] on
    concrete inputs. *)

Module SmallLib.
Import Fetch.

Record world : Type := mkWorld {
  names : list string;              (* name map: identity = position + 1 *)
  stored : list (Z * ptr);          (* default store: method id, method  *)
  cache : list ((Z * string) * ptr);(* query cache                       *)
  refs : list ptr                   (* one entry per reference taken     *)
}.

Fixpoint index_of (n : string) (l : list string) (i : Z) : Z :=
  match l with
  | [] => 0
  | x :: l' => if String.eqb x n then i else index_of n l' (i + 1)
  end.

Fixpoint assoc_id (id : Z) (l : list (Z * ptr)) : option ptr :=
  match l with
  | [] => None
  | (k, m) :: l' => if k =? id then Some m else assoc_id id l'
  end.

Fixpoint assoc_query (id : Z) (q : string) (l : list ((Z * string) * ptr))
  : option ptr :=
  match l with
  | [] => None
  | ((k, kq), m) :: l' =>
    if (k =? id) && String.eqb kq q then Some m else assoc_query id q l'
  end.

Definition name2num (w : world) (n : string) : Z := index_of n (names w) 1.

Definition namemap_add (w : world) (n : string) : world * Z :=
  if name2num w n =? 0
  then (mkWorld (names w ++ [n])%list (stored w) (cache w) (refs w),
        Z.of_nat (List.length (names w)) + 1)
  else (w, name2num w n).

Definition cache_set (w : world) (id : Z) (q : string) (m : ptr) : world :=
  mkWorld (names w) (stored w) (((id, q), m) :: cache w) (refs w).

Definition store_add (w : world) (id : Z) (m : ptr) : world * Z :=
  (mkWorld (names w) ((id, m) :: stored w) (cache w) (refs w), 1).

(** The reference count of [m]: how many references are outstanding. *)
Definition refcnt (w : world) (m : ptr) : Z :=
  Z.of_nat (count_occ Z.eq_dec (refs w) m).

Definition up_ref (w : world) (m : ptr) : world * Z :=
  (mkWorld (names w) (stored w) (cache w) (m :: refs w), 1).

Definition free_ref (w : world) (m : ptr) : world :=
  mkWorld (names w) (stored w) (cache w) (remove Z.eq_dec m (refs w)).

(** An [up_ref_method] that fails: it takes no reference and returns
    0. *)
Definition failed_up_ref (w : world) (m : ptr) : world * Z := (w, 0).

Definition no_new_method : new_method_fn world :=
  fun w _ _ _ => (w, None).

Definition ops : lib_ops world :=
  {| OPENSSL_CTX_DEFAULT_METHOD_STORE_INDEX := 0;
     openssl_ctx_get_data := fun _ _ _ => Some 100;
     ossl_namemap_stored := fun _ _ => Some 200;
     ossl_namemap_name2num := fun w _ n => name2num w n;
     ossl_namemap_add := fun w _ _ n => namemap_add w n;
     ossl_method_store_new := fun w _ => (w, None);
     ossl_method_store_free := fun w _ => w;
     ossl_method_store_fetch := fun w _ id _ => assoc_id id (stored w);
     ossl_method_store_add := fun w _ id _ m _ => store_add w id m;
     ossl_method_store_cache_get := fun w _ id q => assoc_query id q (cache w);
     ossl_method_store_cache_set := fun w _ id q m => cache_set w id q m;
     ossl_method_construct :=
       fun w c op n q _ cb data => get cb w c None op n q data |}.

(** SHA256 and SHA512 are known names; the digest SHA256 (operation 1,
    name 1, method id 0x101) is in the store at address 4096. *)
Definition w0 : world :=
  mkWorld ["SHA256"%string; "SHA512"%string] [(0x101, 4096)] [] [4096].

(** The query without any property. *)
Definition empty_query : string := EmptyString.

(** The same library once SHA256 has been fetched with the empty query:
    the query cache has the entry and the caller holds a reference. *)
Definition w1 : world :=
  mkWorld ["SHA256"%string; "SHA512"%string] [(0x101, 4096)]
    [((0x101, empty_query), 4096)] [4096; 4096].

End SmallLib.

(** ** The digest envelope (digest.c) *)

(** Modelled from the spec: [EVP_MD], the implementation record, whose
    declaration is absent from src; the members are those digest.c
    reads and writes, the legacy ones first, then the name, the owning
    provider and the function table with one slot per function
    identity.  The reference count and the lock are left out. *)
Module MD.
Record EVP_MD : Type := mkMD {
  type : Z;
  flags : Z;
  init : option fnptr;
  update : option fnptr;
  final : option fnptr;
  copy : option fnptr;
  cleanup : option fnptr;
  ctx_size : Z;
  md_ctrl : option fnptr;
  name : option string;
  prov : option ptr;
  newctx : option fnptr;
  dinit : option fnptr;
  dupdate : option fnptr;
  dfinal : option fnptr;
  digest : option fnptr;
  freectx : option fnptr;
  dupctx : option fnptr;
  size : option fnptr;
  dblock_size : option fnptr;
  set_params : option fnptr;
  get_params : option fnptr
}.

Definition set_type (md : EVP_MD) (v : Z) : EVP_MD :=
  mkMD v (flags md) (init md) (update md) (final md) (copy md) (cleanup md)
    (ctx_size md) (md_ctrl md) (name md) (prov md) (newctx md) (dinit md)
    (dupdate md) (dfinal md) (digest md) (freectx md) (dupctx md) (size md)
    (dblock_size md) (set_params md) (get_params md).

Definition set_name (md : EVP_MD) (v : option string) : EVP_MD :=
  mkMD (type md) (flags md) (init md) (update md) (final md) (copy md)
    (cleanup md) (ctx_size md) (md_ctrl md) v (prov md) (newctx md)
    (dinit md) (dupdate md) (dfinal md) (digest md) (freectx md) (dupctx md)
    (size md) (dblock_size md) (set_params md) (get_params md).

Definition set_prov (md : EVP_MD) (v : option ptr) : EVP_MD :=
  mkMD (type md) (flags md) (init md) (update md) (final md) (copy md)
    (cleanup md) (ctx_size md) (md_ctrl md) (name md) v (newctx md)
    (dinit md) (dupdate md) (dfinal md) (digest md) (freectx md) (dupctx md)
    (size md) (dblock_size md) (set_params md) (get_params md).

Definition set_newctx (md : EVP_MD) (v : option fnptr) : EVP_MD :=
  mkMD (type md) (flags md) (init md) (update md) (final md) (copy md)
    (cleanup md) (ctx_size md) (md_ctrl md) (name md) (prov md) v (dinit md)
    (dupdate md) (dfinal md) (digest md) (freectx md) (dupctx md) (size md)
    (dblock_size md) (set_params md) (get_params md).

Definition set_dinit (md : EVP_MD) (v : option fnptr) : EVP_MD :=
  mkMD (type md) (flags md) (init md) (update md) (final md) (copy md)
    (cleanup md) (ctx_size md) (md_ctrl md) (name md) (prov md) (newctx md)
    v (dupdate md) (dfinal md) (digest md) (freectx md) (dupctx md)
    (size md) (dblock_size md) (set_params md) (get_params md).

Definition set_dupdate (md : EVP_MD) (v : option fnptr) : EVP_MD :=
  mkMD (type md) (flags md) (init md) (update md) (final md) (copy md)
    (cleanup md) (ctx_size md) (md_ctrl md) (name md) (prov md) (newctx md)
    (dinit md) v (dfinal md) (digest md) (freectx md) (dupctx md) (size md)
    (dblock_size md) (set_params md) (get_params md).

Definition set_dfinal (md : EVP_MD) (v : option fnptr) : EVP_MD :=
  mkMD (type md) (flags md) (init md) (update md) (final md) (copy md)
    (cleanup md) (ctx_size md) (md_ctrl md) (name md) (prov md) (newctx md)
    (dinit md) (dupdate md) v (digest md) (freectx md) (dupctx md) (size md)
    (dblock_size md) (set_params md) (get_params md).

Definition set_digest (md : EVP_MD) (v : option fnptr) : EVP_MD :=
  mkMD (type md) (flags md) (init md) (update md) (final md) (copy md)
    (cleanup md) (ctx_size md) (md_ctrl md) (name md) (prov md) (newctx md)
    (dinit md) (dupdate md) (dfinal md) v (freectx md) (dupctx md) (size md)
    (dblock_size md) (set_params md) (get_params md).

Definition set_freectx (md : EVP_MD) (v : option fnptr) : EVP_MD :=
  mkMD (type md) (flags md) (init md) (update md) (final md) (copy md)
    (cleanup md) (ctx_size md) (md_ctrl md) (name md) (prov md) (newctx md)
    (dinit md) (dupdate md) (dfinal md) (digest md) v (dupctx md) (size md)
    (dblock_size md) (set_params md) (get_params md).

Definition set_dupctx (md : EVP_MD) (v : option fnptr) : EVP_MD :=
  mkMD (type md) (flags md) (init md) (update md) (final md) (copy md)
    (cleanup md) (ctx_size md) (md_ctrl md) (name md) (prov md) (newctx md)
    (dinit md) (dupdate md) (dfinal md) (digest md) (freectx md) v (size md)
    (dblock_size md) (set_params md) (get_params md).

Definition set_size (md : EVP_MD) (v : option fnptr) : EVP_MD :=
  mkMD (type md) (flags md) (init md) (update md) (final md) (copy md)
    (cleanup md) (ctx_size md) (md_ctrl md) (name md) (prov md) (newctx md)
    (dinit md) (dupdate md) (dfinal md) (digest md) (freectx md) (dupctx md)
    v (dblock_size md) (set_params md) (get_params md).

Definition set_dblock_size (md : EVP_MD) (v : option fnptr) : EVP_MD :=
  mkMD (type md) (flags md) (init md) (update md) (final md) (copy md)
    (cleanup md) (ctx_size md) (md_ctrl md) (name md) (prov md) (newctx md)
    (dinit md) (dupdate md) (dfinal md) (digest md) (freectx md) (dupctx md)
    (size md) v (set_params md) (get_params md).

Definition set_set_params (md : EVP_MD) (v : option fnptr) : EVP_MD :=
  mkMD (type md) (flags md) (init md) (update md) (final md) (copy md)
    (cleanup md) (ctx_size md) (md_ctrl md) (name md) (prov md) (newctx md)
    (dinit md) (dupdate md) (dfinal md) (digest md) (freectx md) (dupctx md)
    (size md) (dblock_size md) v (get_params md).

Definition set_get_params (md : EVP_MD) (v : option fnptr) : EVP_MD :=
  mkMD (type md) (flags md) (init md) (update md) (final md) (copy md)
    (cleanup md) (ctx_size md) (md_ctrl md) (name md) (prov md) (newctx md)
    (dinit md) (dupdate md) (dfinal md) (digest md) (freectx md) (dupctx md)
    (size md) (dblock_size md) (set_params md) v.
End MD.
Abbreviation EVP_MD := MD.EVP_MD.

(** Modelled from the spec: [EVP_MD_CTX], the digest context, whose
    declaration is absent from src; the members are those digest.c
    reads and writes. *)
Module CTX.
Record EVP_MD_CTX : Type := mkCtx {
  reqdigest : option EVP_MD;
  digest : option EVP_MD;
  engine : option ptr;
  flags : Z;
  md_data : option ptr;
  pctx : option ptr;
  update : option fnptr;
  provctx : option ptr;
  fetched_digest : option EVP_MD
}.

Definition set_reqdigest (ctx : EVP_MD_CTX) (v : option EVP_MD) : EVP_MD_CTX :=
  mkCtx v (digest ctx) (engine ctx) (flags ctx) (md_data ctx) (pctx ctx)
    (update ctx) (provctx ctx) (fetched_digest ctx).

Definition set_digest (ctx : EVP_MD_CTX) (v : option EVP_MD) : EVP_MD_CTX :=
  mkCtx (reqdigest ctx) v (engine ctx) (flags ctx) (md_data ctx) (pctx ctx)
    (update ctx) (provctx ctx) (fetched_digest ctx).

Definition set_flags (ctx : EVP_MD_CTX) (v : Z) : EVP_MD_CTX :=
  mkCtx (reqdigest ctx) (digest ctx) (engine ctx) v (md_data ctx) (pctx ctx)
    (update ctx) (provctx ctx) (fetched_digest ctx).

Definition set_provctx (ctx : EVP_MD_CTX) (v : option ptr) : EVP_MD_CTX :=
  mkCtx (reqdigest ctx) (digest ctx) (engine ctx) (flags ctx) (md_data ctx)
    (pctx ctx) (update ctx) v (fetched_digest ctx).

Definition set_fetched_digest (ctx : EVP_MD_CTX) (v : option EVP_MD) : EVP_MD_CTX :=
  mkCtx (reqdigest ctx) (digest ctx) (engine ctx) (flags ctx) (md_data ctx)
    (pctx ctx) (update ctx) (provctx ctx) v.
End CTX.
Abbreviation EVP_MD_CTX := CTX.EVP_MD_CTX.

Module Digest.

(** Function identities of the digest operation (core_numbers.h). *)
Definition OSSL_OP_DIGEST : Z := 1.
Definition OSSL_FUNC_DIGEST_NEWCTX : Z := 1.
Definition OSSL_FUNC_DIGEST_INIT : Z := 2.
Definition OSSL_FUNC_DIGEST_UPDATE : Z := 3.
Definition OSSL_FUNC_DIGEST_FINAL : Z := 4.
Definition OSSL_FUNC_DIGEST_DIGEST : Z := 5.
Definition OSSL_FUNC_DIGEST_FREECTX : Z := 6.
Definition OSSL_FUNC_DIGEST_DUPCTX : Z := 7.
Definition OSSL_FUNC_DIGEST_SIZE : Z := 8.
Definition OSSL_FUNC_DIGEST_BLOCK_SIZE : Z := 9.
Definition OSSL_FUNC_DIGEST_SET_PARAMS : Z := 10.
Definition OSSL_FUNC_DIGEST_GET_PARAMS : Z := 11.

(** Modelled from the spec: the lifecycle flags CLEANED, REUSE, ONESHOT,
    NO_INIT and KEEP_PKEY_CTX of a context and the largest digest size,
    whose header evp.h is absent from src; each flag is one bit of its
    own. *)
Definition EVP_MD_CTX_FLAG_ONESHOT : Z := 0x0001.
Definition EVP_MD_CTX_FLAG_CLEANED : Z := 0x0002.
Definition EVP_MD_CTX_FLAG_REUSE : Z := 0x0004.
Definition EVP_MD_CTX_FLAG_NO_INIT : Z := 0x0100.
Definition EVP_MD_CTX_FLAG_KEEP_PKEY_CTX : Z := 0x0400.
Definition EVP_MAX_MD_SIZE : Z := 64.
Definition NID_undef : Z := 0.

Inductive reason : Type :=
| EVP_R_UPDATE_ERROR
| EVP_R_FINAL_ERROR
| ERR_R_MALLOC_FAILURE.

(** What the envelope does to the rest of the program: the calls it makes
    through function pointers, the memory it releases, the errors it
    raises.  The world is the list of these, oldest first. *)
Inductive event : Type :=
| Ev_freectx (f : fnptr) (provctx : ptr)
| Ev_dupdate (f : fnptr) (provctx data : option ptr) (count : Z)
| Ev_dfinal (f : fnptr) (provctx : option ptr) (outsz : Z)
| Ev_update (f : fnptr) (data : option ptr) (count : Z)
| Ev_final (f : fnptr)
| Ev_cleanup (f : fnptr)
| Ev_clear_free (p : ptr) (n : Z)
| Ev_cleanse_md_data (n : Z)
| Ev_pkey_ctx_free (p : option ptr)
| Ev_engine_finish (e : option ptr)
| Ev_cleanse_ctx
| Ev_err (r : reason)
| Ev_meth_new
| Ev_strdup
| Ev_meth_free (md : option EVP_MD)
| Ev_provider_up_ref (p : ptr)
| Ev_free_ctx.

Definition world : Type := list event.

(** The code behind the function pointers, and [EVP_MD_size]: what they
    return, given what happened so far. *)
Record impl : Type := mkImpl {
  run_dupdate : world -> fnptr -> option ptr -> option ptr -> Z -> Z;
  run_dfinal : world -> fnptr -> option ptr -> Z -> Z * Z;
  run_update : world -> fnptr -> option ptr -> Z -> Z;
  run_final : world -> fnptr -> Z;
  EVP_MD_size : option EVP_MD -> Z
}.

(** Modelled from the spec: [EVP_MD_CTX_set_flags], [_clear_flags] and
    [_test_flags], absent from src; they set, clear and read the
    lifecycle flags of the context. *)
Definition EVP_MD_CTX_set_flags (ctx : EVP_MD_CTX) (flags : Z) : EVP_MD_CTX :=
  CTX.set_flags ctx (Z.lor (CTX.flags ctx) flags).

Definition EVP_MD_CTX_clear_flags (ctx : EVP_MD_CTX) (flags : Z)
  : EVP_MD_CTX :=
  CTX.set_flags ctx (Z.land (CTX.flags ctx) (Z.lnot flags)).

Definition EVP_MD_CTX_test_flags (ctx : EVP_MD_CTX) (flags : Z) : Z :=
  Z.land (CTX.flags ctx) flags.

(** [EVP_MD_CTX_new]: [OPENSSL_zalloc], every member zero. *)
Definition EVP_MD_CTX_new : EVP_MD_CTX :=
  CTX.mkCtx None None None 0 None None None None None.

(** The part of [EVP_MD_CTX_reset] under the label [legacy]. *)
Definition reset_legacy (w : world) (ctx : EVP_MD_CTX)
  : world * EVP_MD_CTX * Z :=
  let w1 :=
    match CTX.digest ctx with
    | Some md =>
      match MD.cleanup md with
      | Some f =>
        if EVP_MD_CTX_test_flags ctx EVP_MD_CTX_FLAG_CLEANED =? 0
        then w ++ [Ev_cleanup f] else w
      | None => w
      end
    | None => w
    end in
  let w2 :=
    match CTX.digest ctx, CTX.md_data ctx with
    | Some md, Some p =>
      if negb (MD.ctx_size md =? 0)
         && (EVP_MD_CTX_test_flags ctx EVP_MD_CTX_FLAG_REUSE =? 0)
      then w1 ++ [Ev_clear_free p (MD.ctx_size md)] else w1
    | _, _ => w1
    end in
  let w3 :=
    if EVP_MD_CTX_test_flags ctx EVP_MD_CTX_FLAG_KEEP_PKEY_CTX =? 0
    then w2 ++ [Ev_pkey_ctx_free (CTX.pctx ctx)] else w2 in
  let w4 := w3 ++ [Ev_engine_finish (CTX.engine ctx)] in
  (w4 ++ [Ev_cleanse_ctx], EVP_MD_CTX_new, 1).

(** [EVP_MD_CTX_reset] on a context that is not NULL. *)
Definition EVP_MD_CTX_reset (w : world) (ctx : EVP_MD_CTX)
  : world * EVP_MD_CTX * Z :=
  match CTX.digest ctx with
  | None => reset_legacy w ctx
  | Some md =>
    match MD.prov md with
    | None => reset_legacy w ctx
    | Some _ =>
      let '(w1, ctx1) :=
        match CTX.provctx ctx with
        | Some p =>
          (match MD.freectx md with
           | Some f => w ++ [Ev_freectx f p]
           | None => w
           end,
           EVP_MD_CTX_set_flags (CTX.set_provctx ctx None)
             EVP_MD_CTX_FLAG_CLEANED)
        | None => (w, ctx)
        end in
      match CTX.pctx ctx1 with
      | Some _ => reset_legacy w1 ctx1
      | None => (w1, ctx1, 1)
      end
    end
  end.

(** [EVP_MD_CTX_free] on a context that is not NULL; the context is gone
    afterwards, only the world remains. *)
Definition EVP_MD_CTX_free (w : world) (ctx : EVP_MD_CTX) : world :=
  let provider_path :=
    match CTX.digest ctx with
    | Some md => match MD.prov md with Some _ => true | None => false end
    | None => false
    end in
  let '(w1, ctx1, _) := EVP_MD_CTX_reset w ctx in
  if provider_path
  then w1 ++ [Ev_meth_free (CTX.fetched_digest ctx1); Ev_free_ctx]
  else w1 ++ [Ev_free_ctx].

(** [EVP_DigestUpdate]. *)
Definition EVP_DigestUpdate (im : impl) (w : world) (ctx : EVP_MD_CTX)
    (data : option ptr) (count : Z) : outcome (world * EVP_MD_CTX * Z) :=
  let legacy :=
    match CTX.update ctx with
    | None => Undefined
    | Some f =>
      Returns (w ++ [Ev_update f data count], ctx, run_update im w f data count)
    end in
  if count =? 0 then Returns (w, ctx, 1) else
  match CTX.digest ctx with
  | None => legacy
  | Some md =>
    match MD.prov md with
    | None => legacy
    | Some _ =>
      match MD.dupdate md with
      | None => Returns (w ++ [Ev_err EVP_R_UPDATE_ERROR], ctx, 0)
      | Some f =>
        Returns (w ++ [Ev_dupdate f (CTX.provctx ctx) data count], ctx,
                 run_dupdate im w f (CTX.provctx ctx) data count)
      end
    end
  end.

(** [EVP_DigestFinal_ex].  [isize] is the pointer with the value it
    points to; the result carries the value afterwards. *)
Definition EVP_DigestFinal_ex (im : impl) (w : world) (ctx : EVP_MD_CTX)
    (isize : option Z) : outcome (world * EVP_MD_CTX * option Z * Z) :=
  let mdsize := to_size_t (EVP_MD_size im (CTX.digest ctx)) in
  let legacy :=
    if negb (mdsize <=? EVP_MAX_MD_SIZE) then Died else
    match CTX.digest ctx with
    | None => Undefined
    | Some md =>
      match MD.final md with
      | None => Undefined
      | Some f =>
        let ret := run_final im w f in
        let w1 := w ++ [Ev_final f] in
        let isize1 :=
          match isize with Some _ => Some (to_uint mdsize) | None => None end in
        let '(w2, ctx2) :=
          match MD.cleanup md with
          | Some c =>
            (w1 ++ [Ev_cleanup c],
             EVP_MD_CTX_set_flags ctx EVP_MD_CTX_FLAG_CLEANED)
          | None => (w1, ctx)
          end in
        Returns (w2 ++ [Ev_cleanse_md_data (MD.ctx_size md)], ctx2, isize1,
                 ret)
      end
    end in
  match CTX.digest ctx with
  | None => legacy
  | Some md =>
    match MD.prov md with
    | None => legacy
    | Some _ =>
      match MD.dfinal md with
      | None => Returns (w ++ [Ev_err EVP_R_FINAL_ERROR], ctx, isize, 0)
      | Some f =>
        let '(ret, size) := run_dfinal im w f (CTX.provctx ctx) mdsize in
        let w1 := w ++ [Ev_dfinal f (CTX.provctx ctx) mdsize] in
        let '(w2, isize1, ret1) :=
          match isize with
          | None => (w1, None, ret)
          | Some old =>
            if size <=? UINT_MAX then (w1, Some size, ret)
            else (w1 ++ [Ev_err EVP_R_FINAL_ERROR], Some old, 0)
          end in
        let '(w3, ctx3, _) := EVP_MD_CTX_reset w2 ctx in
        Returns (w3, ctx3, isize1, ret1)
      end
    end
  end.

(** Modelled from the spec: [EVP_MD_meth_new], absent from src; a new
    implementation record with an empty function table, carrying the
    type. *)
Definition EVP_MD_meth_new (md_type pkey_type : Z) : EVP_MD :=
  MD.mkMD md_type 0 None None None None None 0 None None None
    None None None None None None None None None None None.

(** One turn of the loop of [evp_md_from_dispatch]: the [switch] on the
    function identity. *)
Definition dispatch_step (st : EVP_MD * Z) (fns : OSSL_DISPATCH)
  : EVP_MD * Z :=
  let '(md, fncnt) := st in
  let id := function_id fns in
  if id =? OSSL_FUNC_DIGEST_NEWCTX then
    match MD.newctx md with
    | None => (MD.set_newctx md (function fns), fncnt + 1)
    | Some _ => st
    end
  else if id =? OSSL_FUNC_DIGEST_INIT then
    match MD.dinit md with
    | None => (MD.set_dinit md (function fns), fncnt + 1)
    | Some _ => st
    end
  else if id =? OSSL_FUNC_DIGEST_UPDATE then
    match MD.dupdate md with
    | None => (MD.set_dupdate md (function fns), fncnt + 1)
    | Some _ => st
    end
  else if id =? OSSL_FUNC_DIGEST_FINAL then
    match MD.dfinal md with
    | None => (MD.set_dfinal md (function fns), fncnt + 1)
    | Some _ => st
    end
  else if id =? OSSL_FUNC_DIGEST_DIGEST then
    match MD.digest md with
    | None => (MD.set_digest md (function fns), fncnt)
    | Some _ => st
    end
  else if id =? OSSL_FUNC_DIGEST_FREECTX then
    match MD.freectx md with
    | None => (MD.set_freectx md (function fns), fncnt + 1)
    | Some _ => st
    end
  else if id =? OSSL_FUNC_DIGEST_DUPCTX then
    match MD.dupctx md with
    | None => (MD.set_dupctx md (function fns), fncnt)
    | Some _ => st
    end
  else if id =? OSSL_FUNC_DIGEST_SIZE then
    match MD.size md with
    | None => (MD.set_size md (function fns), fncnt)
    | Some _ => st
    end
  else if id =? OSSL_FUNC_DIGEST_BLOCK_SIZE then
    match MD.dblock_size md with
    | None => (MD.set_dblock_size md (function fns), fncnt)
    | Some _ => st
    end
  else if id =? OSSL_FUNC_DIGEST_SET_PARAMS then
    match MD.set_params md with
    | None => (MD.set_set_params md (function fns), fncnt)
    | Some _ => st
    end
  else if id =? OSSL_FUNC_DIGEST_GET_PARAMS then
    match MD.get_params md with
    | None => (MD.set_get_params md (function fns), fncnt)
    | Some _ => st
    end
  else st.

(** [for (; fns->function_id != 0; fns++)]. *)
Fixpoint dispatch_loop (fns : list OSSL_DISPATCH) (st : EVP_MD * Z)
  : EVP_MD * Z :=
  match fns with
  | [] => st
  | fn :: rest =>
    if function_id fn =? 0 then st
    else dispatch_loop rest (dispatch_step st fn)
  end.

(** [evp_md_from_dispatch].  [meth_new_ok] and [strdup_ok] say whether the
    two allocations succeed. *)
Definition evp_md_from_dispatch (meth_new_ok strdup_ok : bool) (w : world)
    (name : string) (fns : list OSSL_DISPATCH) (prov : option ptr)
  : world * option EVP_MD :=
  if negb meth_new_ok then
    (w ++ [Ev_meth_new; Ev_meth_free None; Ev_err ERR_R_MALLOC_FAILURE], None)
  else
    let md0 := EVP_MD_meth_new NID_undef NID_undef in
    if negb strdup_ok then
      (w ++ [Ev_meth_new; Ev_strdup; Ev_meth_free (Some md0);
             Ev_err ERR_R_MALLOC_FAILURE], None)
    else
      let w1 := w ++ [Ev_meth_new; Ev_strdup] in
      let '(md, fncnt) := dispatch_loop fns (MD.set_name md0 (Some name), 0) in
      if (negb (fncnt =? 0) && negb (fncnt =? 5))
         || ((fncnt =? 0) && match MD.digest md with
                             | None => true
                             | Some _ => false
                             end)
         || match MD.size md with None => true | Some _ => false end
      then (w1 ++ [Ev_meth_free (Some md)], None)
      else
        let md' := MD.set_prov md prov in
        match prov with
        | Some p => (w1 ++ [Ev_provider_up_ref p], Some md')
        | None => (w1, Some md')
        end.

(** 1 for a slot that is filled, 0 for an empty one. *)
Definition present (o : option fnptr) : Z :=
  match o with Some _ => 1 | None => 0 end.

(** How many of the five functions of the streaming set a record has. *)
Definition counted (md : EVP_MD) : Z :=
  present (MD.newctx md) + present (MD.dinit md) + present (MD.dupdate md)
  + present (MD.dfinal md) + present (MD.freectx md).

(** A table none of whose entries has a null function pointer. *)
Definition nonnull (fns : list OSSL_DISPATCH) : Prop :=
  Forall (fun e => function e <> None) fns.

(** Implementations whose functions succeed and whose digests are 32
    bytes; the second one reports a digest size that does not fit an
    [unsigned int]. *)
Definition sha256_impl : impl :=
  mkImpl (fun _ _ _ _ _ => 1) (fun _ _ _ _ => (1, 32))
         (fun _ _ _ _ => 1) (fun _ _ => 1)
         (fun md => match md with Some _ => 32 | None => -1 end).

Definition oversize_impl : impl :=
  mkImpl (fun _ _ _ _ _ => 1) (fun _ _ _ _ => (1, 2 ^ 32))
         (fun _ _ _ _ => 1) (fun _ _ => 1)
         (fun md => match md with Some _ => 32 | None => -1 end).

(** The table of a complete digest: the five functions and the size. *)
Definition sha256_functions : list OSSL_DISPATCH :=
  [ mkDispatch OSSL_FUNC_DIGEST_NEWCTX (Some 0x1000);
    mkDispatch OSSL_FUNC_DIGEST_INIT (Some 0x1010);
    mkDispatch OSSL_FUNC_DIGEST_UPDATE (Some 0x1020);
    mkDispatch OSSL_FUNC_DIGEST_FINAL (Some 0x1030);
    mkDispatch OSSL_FUNC_DIGEST_FREECTX (Some 0x1040);
    mkDispatch OSSL_FUNC_DIGEST_SIZE (Some 0x1050);
    mkDispatch 0 None ].

(** The record [evp_md_from_dispatch] builds from it for provider 7. *)
Definition sha256_md : EVP_MD :=
  MD.mkMD 0 0 None None None None None 0 None (Some "SHA256"%string) (Some 7)
    (Some 0x1000) (Some 0x1010) (Some 0x1020) (Some 0x1030) None
    (Some 0x1040) None (Some 0x1050) None None None.

(** A context initialised with [sha256_md]: the digest is bound and
    fetched, the provider state is at 0x2000. *)
Definition sha256_ctx : EVP_MD_CTX :=
  CTX.mkCtx (Some sha256_md) (Some sha256_md) None 0 None None None
    (Some 0x2000) (Some sha256_md).

(** A table that names the new-context function five times, each time
    with a null function pointer, and the size function. *)
Definition newctx_only_functions : list OSSL_DISPATCH :=
  [ mkDispatch OSSL_FUNC_DIGEST_NEWCTX None;
    mkDispatch OSSL_FUNC_DIGEST_NEWCTX None;
    mkDispatch OSSL_FUNC_DIGEST_NEWCTX None;
    mkDispatch OSSL_FUNC_DIGEST_NEWCTX None;
    mkDispatch OSSL_FUNC_DIGEST_NEWCTX None;
    mkDispatch OSSL_FUNC_DIGEST_SIZE (Some 0x1050);
    mkDispatch 0 None ].

(** The record with a size and nothing else. *)
Definition size_only_md : EVP_MD :=
  MD.mkMD 0 0 None None None None None 0 None (Some "SHA256"%string) (Some 7)
    None None None None None None None (Some 0x1050) None None None.

(** The table of a one-shot digest, the record built from it, and a
    context bound to that record. *)
Definition oneshot_functions : list OSSL_DISPATCH :=
  [ mkDispatch OSSL_FUNC_DIGEST_DIGEST (Some 0x1060);
    mkDispatch OSSL_FUNC_DIGEST_SIZE (Some 0x1050);
    mkDispatch 0 None ].

Definition oneshot_md : EVP_MD :=
  MD.mkMD 0 0 None None None None None 0 None (Some "SHA256"%string) (Some 7)
    None None None None (Some 0x1060) None None (Some 0x1050) None None None.

(** A table whose final function is a null pointer, the record built
    from it, and a context initialised with that record. *)
Definition nofinal_functions : list OSSL_DISPATCH :=
  [ mkDispatch OSSL_FUNC_DIGEST_NEWCTX (Some 0x1000);
    mkDispatch OSSL_FUNC_DIGEST_INIT (Some 0x1010);
    mkDispatch OSSL_FUNC_DIGEST_UPDATE (Some 0x1020);
    mkDispatch OSSL_FUNC_DIGEST_FINAL None;
    mkDispatch OSSL_FUNC_DIGEST_FREECTX (Some 0x1040);
    mkDispatch OSSL_FUNC_DIGEST_SIZE (Some 0x1050);
    mkDispatch 0 None ].

Definition nofinal_md : EVP_MD :=
  MD.mkMD 0 0 None None None None None 0 None (Some "SHA256"%string) (Some 7)
    (Some 0x1000) (Some 0x1010) (Some 0x1020) None None
    (Some 0x1040) None (Some 0x1050) None None None.

Definition nofinal_ctx : EVP_MD_CTX :=
  CTX.mkCtx (Some nofinal_md) (Some nofinal_md) None 0 None None None
    (Some 0x2000) (Some nofinal_md).

End Digest.

(** ** The DH key-exchange provider (dh_exch.c) *)

Module DHExch.

Section Model.
(** The DH key, the big number and the parameter types, with the
    functions of libcrypto the provider calls. *)
Variables DH BIGNUM OSSL_PARAM : Type.

Record dh_ops : Type := mkDhOps {
  DH_size : DH -> Z;
  (* DH_get0_key(dh, &pub_key, NULL): the public key, which may be NULL *)
  DH_get0_key : DH -> option BIGNUM;
  (* the return value and the bytes stored at [key] *)
  DH_compute_key : option BIGNUM -> DH -> Z * list Z;
  DH_compute_key_padded : option BIGNUM -> DH -> Z * list Z;
  OSSL_PARAM_locate_const : list OSSL_PARAM -> string -> option OSSL_PARAM;
  OSSL_PARAM_get_int : OSSL_PARAM -> option Z
}.

Variable ops : dh_ops.

(** [PROV_DH_CTX].  The keys are held by pointer; their reference
    counts are left out. *)
Record PROV_DH_CTX : Type := mkDhCtx {
  dh : option DH;
  dhpeer : option DH;
  pad : Z
}.

Definition OSSL_EXCHANGE_PARAM_PAD : string := "pad".

(** [dh_newctx]: [OPENSSL_zalloc]. *)
Definition dh_newctx : PROV_DH_CTX := mkDhCtx None None 0.

(** [dh_init]: the key is stored and handed to [DH_up_ref] before it
    is tested.  [DH_up_ref], of libcrypto, reads the key it is given:
    with a NULL key the call is undefined and the test that follows is
    never reached.  With a key the result is the new context and 1. *)
Definition dh_init (pdhctx : PROV_DH_CTX) (vdh : option DH)
  : outcome (PROV_DH_CTX * Z) :=
  match vdh with
  | Some _ => Returns (mkDhCtx vdh (dhpeer pdhctx) (pad pdhctx), 1)
  | None => Undefined
  end.

(** [dh_set_peer]: as [dh_init], on the peer's key. *)
Definition dh_set_peer (pdhctx : PROV_DH_CTX) (vdh : option DH)
  : outcome (PROV_DH_CTX * Z) :=
  match vdh with
  | Some _ => Returns (mkDhCtx (dh pdhctx) vdh (pad pdhctx), 1)
  | None => Undefined
  end.

(** [dh_derive].  [key] is the output pointer, [keylen] the value
    [*keylen] holds on entry, [outlen] the capacity.  The result is the
    return value, [*keylen] on return and the bytes stored at [key]. *)
Definition dh_derive (pdhctx : PROV_DH_CTX) (key : option ptr)
    (keylen outlen : Z) : Z * Z * list Z :=
  match dh pdhctx, dhpeer pdhctx with
  | Some d, Some peer =>
    let dhsize := to_size_t (DH_size ops d) in
    match key with
    | None => (1, dhsize, [])
    | Some _ =>
      if outlen <? dhsize then (0, keylen, []) else
      let pub_key := DH_get0_key ops peer in
      let '(ret, bytes) :=
        if negb (pad pdhctx =? 0)
        then DH_compute_key_padded ops pub_key d
        else DH_compute_key ops pub_key d in
      if ret <=? 0 then (0, keylen, bytes)
      else (1, to_size_t ret, bytes)
    end
  | _, _ => (0, keylen, [])
  end.

(** The computation [dh_derive] runs: padded or not, by [pad]; its
    return value and the bytes it stores. *)
Definition computed (pdhctx : PROV_DH_CTX) (d peer : DH) : Z * list Z :=
  if negb (pad pdhctx =? 0)
  then DH_compute_key_padded ops (DH_get0_key ops peer) d
  else DH_compute_key ops (DH_get0_key ops peer) d.

Definition dh_set_params (pdhctx : option PROV_DH_CTX)
    (params : option (list OSSL_PARAM)) : option PROV_DH_CTX * Z :=
  match pdhctx, params with
  | Some c, Some ps =>
    match OSSL_PARAM_locate_const ops ps OSSL_EXCHANGE_PARAM_PAD with
    | None => (pdhctx, 0)
    | Some p =>
      match OSSL_PARAM_get_int ops p with
      | None => (pdhctx, 0)
      | Some v => (Some (mkDhCtx (dh c) (dhpeer c) v), 1)
      end
    end
  | _, _ => (pdhctx, 0)
  end.

End Model.

Arguments DH_size {DH BIGNUM OSSL_PARAM} _.
Arguments DH_get0_key {DH BIGNUM OSSL_PARAM} _.
Arguments DH_compute_key {DH BIGNUM OSSL_PARAM} _.
Arguments DH_compute_key_padded {DH BIGNUM OSSL_PARAM} _.
Arguments OSSL_PARAM_locate_const {DH BIGNUM OSSL_PARAM} _.
Arguments OSSL_PARAM_get_int {DH BIGNUM OSSL_PARAM} _.
Arguments mkDhCtx {DH} dh dhpeer pad.
Arguments dh {DH} _.
Arguments dhpeer {DH} _.
Arguments pad {DH} _.
Arguments dh_newctx {DH}.
Arguments dh_init {DH} pdhctx vdh.
Arguments dh_set_peer {DH} pdhctx vdh.
Arguments dh_derive {DH BIGNUM OSSL_PARAM} ops pdhctx key keylen outlen.
Arguments dh_set_params {DH BIGNUM OSSL_PARAM} ops pdhctx params.
Arguments computed {DH BIGNUM OSSL_PARAM} ops pdhctx d peer.

End DHExch.

(** ** libcrypto's DH and parameter functions

    dh_exch.c calls them; their code is elsewhere. *)

Module DHModel.
Import DHExch.

Record DH : Type := mkDH {
  p : Z;
  g : Z;
  priv_key : option Z;
  pub_key : option Z
}.

Record OSSL_PARAM : Type := mkParam {
  key : string;
  data_type : Z;
  data : Z
}.

Definition OSSL_PARAM_INTEGER : Z := 1.
Definition INT_MIN : Z := - 2 ^ 31.
Definition INT_MAX : Z := 2 ^ 31 - 1.

(** Modelled from the spec: [BN_num_bytes], absent from src; the length
    of the encoding of a number as big-endian unsigned bytes without
    leading zero bytes. *)
Definition BN_num_bytes (z : Z) : Z :=
  if z <=? 0 then 0 else Z.log2 z / 8 + 1.

(** Modelled from the spec: [BN_bn2binpad], absent from src; the
    big-endian unsigned bytes of [z] on exactly [n] bytes, left-padded
    with zero bytes. *)
Fixpoint BN_bn2binpad (n : nat) (z : Z) : list Z :=
  match n with
  | O => []
  | S k => (z / 256 ^ Z.of_nat k) mod 256 :: BN_bn2binpad k z
  end.

(** Modelled from the spec: [BN_bn2bin], absent from src; the big-endian
    unsigned bytes with the leading zero bytes stripped. *)
Definition BN_bn2bin (z : Z) : list Z :=
  BN_bn2binpad (Z.to_nat (BN_num_bytes z)) z.

(** Modelled from the spec: [DH_size], absent from src; the modulus size
    in bytes. *)
Definition DH_size (d : DH) : Z := BN_num_bytes (p d).

(** Modelled from the spec: the shared secret of the DH key-exchange
    body, absent from src; the peer's public value raised to the private
    value modulo the modulus, undefined without a modulus, a private
    value or a public value. *)
Definition shared_secret (pub : option Z) (d : DH) : option Z :=
  match priv_key d, pub with
  | Some x, Some y =>
    if (0 <? p d) && (0 <=? x) then Some (y ^ x mod p d) else None
  | _, _ => None
  end.

(** Modelled from the spec: [DH_compute_key], absent from src; it stores
    the secret with its leading zero bytes stripped and returns the
    number of bytes, or -1. *)
Definition DH_compute_key (pub : option Z) (d : DH) : Z * list Z :=
  match shared_secret pub d with
  | Some s => (BN_num_bytes s, BN_bn2bin s)
  | None => (-1, [])
  end.

(** Modelled from the spec: [DH_compute_key_padded], absent from src; it
    stores the secret left-padded with zero bytes to the full modulus
    size and returns that size, or -1. *)
Definition DH_compute_key_padded (pub : option Z) (d : DH) : Z * list Z :=
  match shared_secret pub d with
  | Some s => (DH_size d, BN_bn2binpad (Z.to_nat (DH_size d)) s)
  | None => (-1, [])
  end.

(** Modelled from the spec: [OSSL_PARAM_locate_const], absent from src;
    the first parameter of the array with the given key. *)
Fixpoint OSSL_PARAM_locate_const (params : list OSSL_PARAM) (k : string)
  : option OSSL_PARAM :=
  match params with
  | [] => None
  | q :: rest =>
    if String.eqb (key q) k then Some q else OSSL_PARAM_locate_const rest k
  end.

(** Modelled from the spec: [OSSL_PARAM_get_int], absent from src; the
    value of an integer parameter that fits an [int]. *)
Definition OSSL_PARAM_get_int (q : OSSL_PARAM) : option Z :=
  if (data_type q =? OSSL_PARAM_INTEGER)
     && (INT_MIN <=? data q) && (data q <=? INT_MAX)
  then Some (data q) else None.

Definition ops : dh_ops DH Z OSSL_PARAM :=
  {| DHExch.DH_size := DH_size;
     DHExch.DH_get0_key := pub_key;
     DHExch.DH_compute_key := DH_compute_key;
     DHExch.DH_compute_key_padded := DH_compute_key_padded;
     DHExch.OSSL_PARAM_locate_const := OSSL_PARAM_locate_const;
     DHExch.OSSL_PARAM_get_int := OSSL_PARAM_get_int |}.

(** A modulus of three bytes and two parties: the local key with private
    value 2, the peer with public value 3; the shared secret is 9. *)
Definition local_key : DH := mkDH 65537 3 (Some 2) (Some 9).
Definition peer_key : DH := mkDH 65537 3 None (Some 3).

(** A key without a private value, and a key without a modulus. *)
Definition public_only_key : DH := mkDH 65537 3 None (Some 9).
Definition empty_key : DH := mkDH 0 0 None None.

End DHModel.

(** ** Going through all algorithms (evp_fetch.c, digest.c) *)

Module DoAll.

(** Modelled from the spec: [OSSL_ALGORITHM], whose declaration is absent
    from src; an entry of the table a provider returns for an operation:
    a name, a property definition and a dispatch table. *)
Record OSSL_ALGORITHM : Type := mkAlgorithm {
  algorithm_name : string;
  property_definition : string;
  implementation : list OSSL_DISPATCH
}.

Section Model.
(** The state of the program and the type behind the [void *] method. *)
Variables W M : Type.

(** [struct do_all_data_st]. *)
Record do_all_data_st : Type := mkDoAllData {
  user_fn : W -> M -> option ptr -> W;
  user_arg : option ptr;
  new_method : W -> string -> list OSSL_DISPATCH -> option ptr
               -> W * option M;
  free_method : W -> M -> W
}.

(** [do_one]. *)
Definition do_one (w : W) (provider : option ptr) (algo : OSSL_ALGORITHM)
    (no_store : Z) (data : do_all_data_st) : W :=
  match new_method data w (algorithm_name algo) (implementation algo)
          provider with
  | (w1, Some method) =>
    free_method data (user_fn data w1 method (user_arg data)) method
  | (w1, None) => w1
  end.

(** [ossl_algorithm_do_all], of which evp_fetch.c has only the call. *)
Variable ossl_algorithm_do_all :
  W -> option ptr -> Z -> option ptr ->
  (W -> option ptr -> OSSL_ALGORITHM -> Z -> do_all_data_st -> W) ->
  do_all_data_st -> W.

(** [evp_generic_do_all]. *)
Definition evp_generic_do_all (w : W) (libctx : option ptr)
    (operation_id : Z) (user_fn : W -> M -> option ptr -> W)
    (user_arg : option ptr)
    (new_method : W -> string -> list OSSL_DISPATCH -> option ptr
                  -> W * option M)
    (free_method : W -> M -> W) : W :=
  ossl_algorithm_do_all w libctx operation_id None do_one
    (mkDoAllData user_fn user_arg new_method free_method).

(** Modelled from the spec: [ossl_algorithm_do_all], absent from src; it
    goes once, in one pass, through every algorithm that the providers
    register for the operation and calls the function on each.
    [registered] gives them with their provider and no-store mark. *)
Definition algorithm_do_all
    (registered : Z -> list (option ptr * OSSL_ALGORITHM * Z))
    (w : W) (libctx : option ptr) (operation_id : Z) (provider : option ptr)
    (fn : W -> option ptr -> OSSL_ALGORITHM -> Z -> do_all_data_st -> W)
    (data : do_all_data_st) : W :=
  fold_left (fun w1 entry =>
               let '(prov, algo, no_store) := entry in
               fn w1 prov algo no_store data)
            (registered operation_id) w.

End Model.

Arguments do_one {W M} w provider algo no_store data.
Arguments evp_generic_do_all {W M} ossl_algorithm_do_all w libctx
  operation_id user_fn user_arg new_method free_method.
Arguments algorithm_do_all {W M} registered w libctx operation_id provider
  fn data.

Section Digests.
Import Digest.
(** The state of the caller's function. *)
Variable U : Type.

(** [evp_md_from_dispatch] as the [new_method] of the digests;
    [alloc_ok] says whether its two allocations succeed. *)
Definition md_new_method (alloc_ok : world -> bool * bool) (w : world * U)
    (name : string) (fns : list OSSL_DISPATCH) (prov : option ptr)
  : (world * U) * option EVP_MD :=
  let '(w1, md) :=
    evp_md_from_dispatch (fst (alloc_ok (fst w))) (snd (alloc_ok (fst w)))
      (fst w) name fns prov in
  ((w1, snd w), md).

(** [evp_md_free]: [EVP_MD_meth_free]. *)
Definition evp_md_free (w : world * U) (md : EVP_MD) : world * U :=
  (fst w ++ [Ev_meth_free (Some md)], snd w).

(** [EVP_MD_do_all_ex].  The caller's function works on its own state. *)
Definition EVP_MD_do_all_ex
    (registered : Z -> list (option ptr * OSSL_ALGORITHM * Z))
    (alloc_ok : world -> bool * bool) (w : world * U)
    (libctx : option ptr) (fn : U -> EVP_MD -> option ptr -> U)
    (arg : option ptr) : world * U :=
  evp_generic_do_all (algorithm_do_all registered) w libctx OSSL_OP_DIGEST
    (fun w1 md a => (fst w1, fn (snd w1) md a)) arg
    (md_new_method alloc_ok) evp_md_free.

(** The records the adapter builds from the registered tables, in the
    order of the tables. *)
Definition built (algs : list (option ptr * OSSL_ALGORITHM * Z))
  : list EVP_MD :=
  flat_map (fun entry =>
              let '(prov, algo, _) := entry in
              match snd (evp_md_from_dispatch true true []
                           (algorithm_name algo) (implementation algo) prov)
              with
              | Some md => [md]
              | None => []
              end) algs.

(** How many records were allocated, and how many released. *)
Definition allocated (w : world) : nat :=
  List.length (filter (fun e => match e with
                                | Ev_meth_new => true
                                | _ => false
                                end) w).

Definition released (w : world) : nat :=
  List.length (filter (fun e => match e with
                                | Ev_meth_free _ => true
                                | _ => false
                                end) w).

End Digests.

Arguments md_new_method {U} alloc_ok w name fns prov.
Arguments evp_md_free {U} w md.
Arguments EVP_MD_do_all_ex {U} registered alloc_ok w libctx fn arg.

(** Two providers: the first registers a complete SHA256 and a table
    without the size function, the second the one-shot digest. *)
Definition two_providers (op : Z)
  : list (option ptr * OSSL_ALGORITHM * Z) :=
  if op =? Digest.OSSL_OP_DIGEST then
    [ (Some 7, mkAlgorithm "SHA256" "default=yes" Digest.sha256_functions, 0);
      (Some 7, mkAlgorithm "SHA512" "default=yes"
                 [mkDispatch Digest.OSSL_FUNC_DIGEST_DIGEST (Some 0x1060);
                  mkDispatch 0 None], 0);
      (Some 8, mkAlgorithm "SHA256" "fips=yes" Digest.oneshot_functions, 0) ]
  else [].

End DoAll.

(** ** The slots of a dispatch table (digest.c) *)

Module DispatchSlots.
Import Digest.

(** The slot of the function table a function identity goes to. *)
Definition slot (id : Z) (md : EVP_MD) : option fnptr :=
  if id =? OSSL_FUNC_DIGEST_NEWCTX then MD.newctx md
  else if id =? OSSL_FUNC_DIGEST_INIT then MD.dinit md
  else if id =? OSSL_FUNC_DIGEST_UPDATE then MD.dupdate md
  else if id =? OSSL_FUNC_DIGEST_FINAL then MD.dfinal md
  else if id =? OSSL_FUNC_DIGEST_DIGEST then MD.digest md
  else if id =? OSSL_FUNC_DIGEST_FREECTX then MD.freectx md
  else if id =? OSSL_FUNC_DIGEST_DUPCTX then MD.dupctx md
  else if id =? OSSL_FUNC_DIGEST_SIZE then MD.size md
  else if id =? OSSL_FUNC_DIGEST_BLOCK_SIZE then MD.dblock_size md
  else if id =? OSSL_FUNC_DIGEST_SET_PARAMS then MD.set_params md
  else if id =? OSSL_FUNC_DIGEST_GET_PARAMS then MD.get_params md
  else None.

(** The entries of a table before its terminator. *)
Fixpoint live (fns : list OSSL_DISPATCH) : list OSSL_DISPATCH :=
  match fns with
  | [] => []
  | e :: rest => if function_id e =? 0 then [] else e :: live rest
  end.

(** The table has an entry for the function identity. *)
Definition supplies (fns : list OSSL_DISPATCH) (id : Z) : Prop :=
  exists e, In e (live fns) /\ function_id e = id.

(** No entry before the terminator has a null function pointer. *)
Definition pointers_set (fns : list OSSL_DISPATCH) : Prop :=
  nonnull (live fns).

(** The completeness rule as the adapter applies it: the whole streaming
    set, or none of it and the one-shot function; and the size. *)
Definition complete (fns : list OSSL_DISPATCH) : Prop :=
  ((supplies fns OSSL_FUNC_DIGEST_NEWCTX
    /\ supplies fns OSSL_FUNC_DIGEST_INIT
    /\ supplies fns OSSL_FUNC_DIGEST_UPDATE
    /\ supplies fns OSSL_FUNC_DIGEST_FINAL
    /\ supplies fns OSSL_FUNC_DIGEST_FREECTX)
   \/ (~ supplies fns OSSL_FUNC_DIGEST_NEWCTX
       /\ ~ supplies fns OSSL_FUNC_DIGEST_INIT
       /\ ~ supplies fns OSSL_FUNC_DIGEST_UPDATE
       /\ ~ supplies fns OSSL_FUNC_DIGEST_FINAL
       /\ ~ supplies fns OSSL_FUNC_DIGEST_FREECTX
       /\ supplies fns OSSL_FUNC_DIGEST_DIGEST))
  /\ supplies fns OSSL_FUNC_DIGEST_SIZE.

End DispatchSlots.

(** ** More of the digest envelope (digest.c) *)

Module DigestMore.
Import Digest.

(** [EVP_DigestFinal]: [EVP_DigestFinal_ex], then [EVP_MD_CTX_reset]. *)
Definition EVP_DigestFinal (im : impl) (w : world) (ctx : EVP_MD_CTX)
    (size : option Z) : outcome (world * EVP_MD_CTX * option Z * Z) :=
  match EVP_DigestFinal_ex im w ctx size with
  | Returns (w1, ctx1, size1, ret) =>
    let '(w2, ctx2, _) := EVP_MD_CTX_reset w1 ctx1 in
    Returns (w2, ctx2, size1, ret)
  | Undefined => Undefined
  | Died => Died
  end.

End DigestMore.

(** ** Initialisation and the one-shot digest (digest.c) *)

Module DigestLife.
Import Digest.

Inductive init_reason : Type :=
| EVP_R_INITIALIZATION_ERROR
| EVP_R_NO_DIGEST_SET
| ERR_R_MALLOC_FAILURE_INIT.

(** The calls [EVP_DigestInit_ex] makes out of the envelope, and the
    errors it raises.  They are kept in a log of their own, beside the
    world of the envelope, which takes the releases.  [C_newctx] is
    [newctx(ossl_provider_ctx(prov))] and carries the provider, whose
    context is not looked into. *)
Inductive call : Type :=
| C_err (r : init_reason)
| C_get_digest_engine (nid : Z)
| C_engine_init (e : ptr)
| C_engine_get_digest (e : ptr) (nid : Z)
| C_md_fetch (nid : Z)
| C_newctx (f : fnptr) (provider : option ptr)
| C_dinit (f : fnptr) (provctx : ptr)
| C_pkey_ctx_ctrl (p : ptr)
| C_zalloc (n : Z)
| C_init (f : fnptr).

(** What these calls return, given the calls made so far. *)
Record init_impl : Type := mkInitImpl {
  ENGINE_get_digest_engine : list call -> Z -> option ptr;
  ENGINE_init : list call -> ptr -> Z;
  ENGINE_get_digest : list call -> ptr -> Z -> option EVP_MD;
  EVP_MD_fetch : list call -> Z -> option EVP_MD;
  run_newctx : list call -> fnptr -> option ptr -> option ptr;
  run_dinit : list call -> fnptr -> ptr -> Z;
  EVP_PKEY_CTX_ctrl : list call -> ptr -> Z;
  OPENSSL_zalloc : list call -> Z -> option ptr;
  run_init : list call -> fnptr -> Z
}.

Definition set_engine (ctx : EVP_MD_CTX) (v : option ptr) : EVP_MD_CTX :=
  CTX.mkCtx (CTX.reqdigest ctx) (CTX.digest ctx) v (CTX.flags ctx)
    (CTX.md_data ctx) (CTX.pctx ctx) (CTX.update ctx) (CTX.provctx ctx)
    (CTX.fetched_digest ctx).

Definition set_md_data (ctx : EVP_MD_CTX) (v : option ptr) : EVP_MD_CTX :=
  CTX.mkCtx (CTX.reqdigest ctx) (CTX.digest ctx) (CTX.engine ctx)
    (CTX.flags ctx) v (CTX.pctx ctx) (CTX.update ctx) (CTX.provctx ctx)
    (CTX.fetched_digest ctx).

Definition set_update (ctx : EVP_MD_CTX) (v : option fnptr) : EVP_MD_CTX :=
  CTX.mkCtx (CTX.reqdigest ctx) (CTX.digest ctx) (CTX.engine ctx)
    (CTX.flags ctx) (CTX.md_data ctx) (CTX.pctx ctx) v (CTX.provctx ctx)
    (CTX.fetched_digest ctx).

(** Two implementation records with the same content. *)
Definition md_eq_dec (a b : EVP_MD) : {a = b} + {a <> b}.
Proof.
  decide equality;
    try apply Z.eq_dec;
    try (apply option_eq_dec; apply Z.eq_dec);
    (decide equality; try apply Z.eq_dec; apply string_dec).
Defined.

(** The comparison of two pointers to implementation records.  The
    records are held by content here: two null pointers are equal, records
    that differ are not at the same place, and of records with the same
    content [same] says whether they are one object. *)
Definition md_ptr_eq (same : bool) (a b : option EVP_MD) : bool :=
  match a, b with
  | None, None => true
  | Some x, Some y => if md_eq_dec x y then same else false
  | _, _ => false
  end.

(** The outcome of the pointer comparisons of [EVP_DigestInit_ex] for
    records with the same content: [ctx->digest == ctx->fetched_digest]
    and [ctx->digest != type]. *)
Record aliasing : Type := mkAliasing {
  digest_is_fetched : bool;
  digest_is_type : bool
}.

(** [EVP_DigestInit_ex] from the label [skip_to_init]. *)
Definition init_tail (xi : init_impl) (w : world) (l : list call)
    (ctx : EVP_MD_CTX) : outcome (world * list call * EVP_MD_CTX * Z) :=
  let finish (l1 : list call) :=
    if negb (Z.land (CTX.flags ctx) EVP_MD_CTX_FLAG_NO_INIT =? 0)
    then Returns (w, l1, ctx, 1)
    else
      match CTX.digest ctx with
      | None => Undefined
      | Some d =>
        match MD.init d with
        | None => Undefined
        | Some f => Returns (w, l1 ++ [C_init f], ctx, run_init xi l1 f)
        end
      end in
  match CTX.pctx ctx with
  | Some p =>
    let r := EVP_PKEY_CTX_ctrl xi l p in
    let l1 := l ++ [C_pkey_ctx_ctrl p] in
    if (r <=? 0) && negb (r =? -2) then Returns (w, l1, ctx, 0)
    else finish l1
  | None => finish l
  end.

(** [EVP_DigestInit_ex] from the label [legacy].  [tmpimpl] is the
    engine found for the type. *)
Definition init_legacy (xi : init_impl) (al : aliasing) (w : world)
    (l : list call) (ctx : EVP_MD_CTX) (type : option EVP_MD)
    (impl tmpimpl : option ptr)
  : outcome (world * list call * EVP_MD_CTX * Z) :=
  (* the digest to use, and whether it is [ctx->digest] itself *)
  let switch (w1 : world) (l1 : list call) (ctx1 : EVP_MD_CTX)
             (t : EVP_MD) (is_digest : bool) :=
    if is_digest then init_tail xi w1 l1 ctx1
    else
      let '(w2, ctx2) :=
        match CTX.digest ctx1 with
        | Some d =>
          if negb (MD.ctx_size d =? 0)
          then (match CTX.md_data ctx1 with
                | Some p => w1 ++ [Ev_clear_free p (MD.ctx_size d)]
                | None => w1
                end, set_md_data ctx1 None)
          else (w1, ctx1)
        | None => (w1, ctx1)
        end in
      let ctx3 := CTX.set_digest ctx2 (Some t) in
      if (Z.land (CTX.flags ctx3) EVP_MD_CTX_FLAG_NO_INIT =? 0)
         && negb (MD.ctx_size t =? 0)
      then
        let ctx4 := set_update ctx3 (MD.update t) in
        let l2 := l1 ++ [C_zalloc (MD.ctx_size t)] in
        match OPENSSL_zalloc xi l1 (MD.ctx_size t) with
        | None =>
          Returns (w2, l2 ++ [C_err ERR_R_MALLOC_FAILURE_INIT],
                   set_md_data ctx4 None, 0)
        | Some p => init_tail xi w2 l2 (set_md_data ctx4 (Some p))
        end
      else init_tail xi w2 l1 ctx3 in
  match type with
  | Some t =>
    let with_engine (l1 : list call) (e : option ptr) :=
      match e with
      | Some en =>
        let l2 := l1 ++ [C_engine_get_digest en (MD.type t)] in
        match ENGINE_get_digest xi l1 en (MD.type t) with
        | None =>
          Returns (w ++ [Ev_engine_finish (Some en)],
                   l2 ++ [C_err EVP_R_INITIALIZATION_ERROR], ctx, 0)
        | Some d =>
          switch w l2 (set_engine ctx (Some en)) d
            (md_ptr_eq (digest_is_type al)
               (CTX.digest ctx) (Some d))
        end
      | None =>
        switch w l1 (set_engine ctx None) t
          (md_ptr_eq (digest_is_type al) (CTX.digest ctx) (Some t))
      end in
    match impl with
    | Some en =>
      let l1 := l ++ [C_engine_init en] in
      if ENGINE_init xi l en =? 0
      then Returns (w, l1 ++ [C_err EVP_R_INITIALIZATION_ERROR], ctx, 0)
      else with_engine l1 (Some en)
    | None => with_engine l tmpimpl
    end
  | None =>
    match CTX.digest ctx with
    | None => Returns (w, l ++ [C_err EVP_R_NO_DIGEST_SET], ctx, 0)
    | Some d => switch w l ctx d true
    end
  end.

(** [EVP_DigestInit_ex], as built with engines and outside the FIPS
    module. *)
Definition EVP_DigestInit_ex (xi : init_impl) (al : aliasing) (w : world)
    (l : list call) (ctx : EVP_MD_CTX) (type : option EVP_MD)
    (impl : option ptr) : outcome (world * list call * EVP_MD_CTX * Z) :=
  let ctx0 := EVP_MD_CTX_clear_flags ctx EVP_MD_CTX_FLAG_CLEANED in
  let ctx1 :=
    match type with
    | Some _ => CTX.set_reqdigest ctx0 type
    | None => ctx0
    end in
  let skip :=
    match CTX.engine ctx1, CTX.digest ctx1 with
    | Some _, Some d =>
      match type with
      | None => true
      | Some t => MD.type t =? MD.type d
      end
    | _, _ => false
    end in
  if skip then init_tail xi w l ctx1 else
  let '(w1, ctx2) :=
    match type with
    | Some _ =>
      (w ++ [Ev_engine_finish (CTX.engine ctx1)], set_engine ctx1 None)
    | None => (w, ctx1)
    end in
  let '(l1, tmpimpl) :=
    match type, impl with
    | Some t, None =>
      (l ++ [C_get_digest_engine (MD.type t)],
       ENGINE_get_digest_engine xi l (MD.type t))
    | _, _ => (l, None)
    end in
  let present (o : option ptr) :=
    match o with Some _ => true | None => false end in
  if present (CTX.engine ctx2) || present impl || present tmpimpl
     || present (CTX.pctx ctx2)
     || negb (Z.land (CTX.flags ctx2) EVP_MD_CTX_FLAG_NO_INIT =? 0)
  then
    let ctx3 :=
      if md_ptr_eq (digest_is_fetched al) (CTX.digest ctx2)
           (CTX.fetched_digest ctx2)
      then CTX.set_digest ctx2 None else ctx2 in
    init_legacy xi al (w1 ++ [Ev_meth_free (CTX.fetched_digest ctx3)]) l1
      (CTX.set_fetched_digest ctx3 None) type impl tmpimpl
  else
    let '(w2, ctx3) :=
      match CTX.digest ctx2 with
      | Some d =>
        if 0 <? MD.ctx_size d
        then (match CTX.md_data ctx2 with
              | Some p => w1 ++ [Ev_clear_free p (MD.ctx_size d)]
              | None => w1
              end, set_md_data ctx2 None)
        else (w1, ctx2)
      | None => (w1, ctx2)
      end in
    match type with
    | None => Undefined
    | Some t0 =>
      let fetched :=
        match MD.prov t0 with
        | Some _ => Some (w2, l1, ctx3, t0)
        | None =>
          match EVP_MD_fetch xi l1 (MD.type t0) with
          | None => None
          | Some provmd =>
            Some (w2 ++ [Ev_meth_free (CTX.fetched_digest ctx3)],
                  l1 ++ [C_md_fetch (MD.type t0)],
                  CTX.set_fetched_digest ctx3 (Some provmd), provmd)
          end
        end in
      match fetched with
      | None =>
        Returns (w2, l1 ++ [C_md_fetch (MD.type t0);
                            C_err EVP_R_INITIALIZATION_ERROR], ctx3, 0)
      | Some (w3, l2, ctx4, t) =>
        let '(w4, ctx5) :=
          match CTX.provctx ctx4, CTX.digest ctx4 with
          | Some p, Some d =>
            if negb (md_ptr_eq (digest_is_type al) (Some d) (Some t))
            then (match MD.freectx d with
                  | Some f => w3 ++ [Ev_freectx f p]
                  | None => w3
                  end, CTX.set_provctx ctx4 None)
            else (w3, ctx4)
          | _, _ => (w3, ctx4)
          end in
        let ctx6 := CTX.set_digest ctx5 (Some t) in
        let with_state (l3 : list call) (ctx7 : EVP_MD_CTX) (p : ptr) :=
          match MD.dinit t with
          | None =>
            Returns (w4, l3 ++ [C_err EVP_R_INITIALIZATION_ERROR], ctx7, 0)
          | Some g =>
            Returns (w4, l3 ++ [C_dinit g p], ctx7, run_dinit xi l3 g p)
          end in
        match CTX.provctx ctx6 with
        | Some p => with_state l2 ctx6 p
        | None =>
          match MD.newctx t with
          | Some f =>
            let l3 := l2 ++ [C_newctx f (MD.prov t)] in
            match run_newctx xi l2 f (MD.prov t) with
            | None =>
              Returns (w4, l3 ++ [C_err EVP_R_INITIALIZATION_ERROR],
                       ctx6, 0)
            | Some p => with_state l3 (CTX.set_provctx ctx6 (Some p)) p
            end
          | None => Undefined
          end
        end
      end
    end.

(** [EVP_DigestInit]: [EVP_MD_CTX_reset], then [EVP_DigestInit_ex]
    without an engine. *)
Definition EVP_DigestInit (xi : init_impl) (al : aliasing) (w : world)
    (l : list call) (ctx : EVP_MD_CTX) (type : option EVP_MD)
  : outcome (world * list call * EVP_MD_CTX * Z) :=
  let '(w1, ctx1, _) := EVP_MD_CTX_reset w ctx in
  EVP_DigestInit_ex xi al w1 l ctx1 type None.

(** [EVP_Digest], when the context is allocated: the three steps, each
    run when the one before returned non-zero, and [EVP_MD_CTX_free].
    The result is the world, the calls, [*size] and the return value. *)
Definition EVP_Digest (im : impl) (xi : init_impl) (al : aliasing)
    (w : world) (l : list call) (data : option ptr) (count : Z)
    (size : option Z) (type : option EVP_MD) (impl : option ptr)
  : outcome (world * list call * option Z * Z) :=
  let ctx := EVP_MD_CTX_set_flags EVP_MD_CTX_new EVP_MD_CTX_FLAG_ONESHOT in
  match EVP_DigestInit_ex xi al w l ctx type impl with
  | Undefined => Undefined
  | Died => Died
  | Returns (w1, l1, ctx1, r1) =>
    if r1 =? 0 then Returns (EVP_MD_CTX_free w1 ctx1, l1, size, 0) else
    match EVP_DigestUpdate im w1 ctx1 data count with
    | Undefined => Undefined
    | Died => Died
    | Returns (w2, ctx2, r2) =>
      if r2 =? 0 then Returns (EVP_MD_CTX_free w2 ctx2, l1, size, 0) else
      match EVP_DigestFinal_ex im w2 ctx2 size with
      | Undefined => Undefined
      | Died => Died
      | Returns (w3, ctx3, size3, r3) =>
        Returns (EVP_MD_CTX_free w3 ctx3, l1, size3,
                 if r3 =? 0 then 0 else 1)
      end
    end
  end.

(** Functions behind the pointers of [sha256_md]: no engine has the
    digest; the provider state is at 0x2000. *)
Definition sha256_init_impl : init_impl :=
  mkInitImpl (fun _ _ => None) (fun _ _ => 1) (fun _ _ _ => None)
    (fun _ _ => None) (fun _ _ _ => Some 0x2000) (fun _ _ _ => 1)
    (fun _ _ => 1) (fun _ _ => None) (fun _ _ => 1).

Definition no_alias : aliasing := mkAliasing false false.

(** A context on which [EVP_DigestInit_ex] has no reason for the legacy
    handling: no engine, no public-key context, [NO_INIT] clear. *)
Definition plain (ctx : EVP_MD_CTX) : Prop :=
  CTX.engine ctx = None /\ CTX.pctx ctx = None /\
  Z.land (CTX.flags ctx) EVP_MD_CTX_FLAG_NO_INIT = 0.

(** The provider states released in a world, each with the function that
    released it, oldest first. *)
Definition states_freed (w : world) : list (fnptr * ptr) :=
  flat_map (fun e => match e with Ev_freectx f p => [(f, p)] | _ => [] end) w.

(** A digest of the legacy kind, not bound to a provider, an
    implementation whose fetch finds [sha256_md] for it, and a context
    that asks for no initialisation and still holds a provider state. *)
Definition sha256_legacy_md : EVP_MD := EVP_MD_meth_new 672 0.

Definition fetching_init_impl : init_impl :=
  mkInitImpl (fun _ _ => None) (fun _ _ => 1) (fun _ _ _ => None)
    (fun _ _ => Some sha256_md) (fun _ _ _ => Some 0x2000) (fun _ _ _ => 1)
    (fun _ _ => 1) (fun _ _ => None) (fun _ _ => 1).

Definition no_init_ctx : EVP_MD_CTX :=
  CTX.mkCtx None None None EVP_MD_CTX_FLAG_NO_INIT None None None
    (Some 0x2000) None.

End DigestLife.

(** ** Two parties of a DH exchange *)

Module DHAgreement.
Import DHExch DHModel.

(** The context of one party, as the calls make it: [dh_newctx],
    [dh_init] with the party's own key, [dh_set_peer] with the other
    party's key. *)
Definition party (own peer : DH) : outcome (PROV_DH_CTX DH) :=
  match dh_init dh_newctx (Some own) with
  | Returns (c1, _) =>
    match dh_set_peer c1 (Some peer) with
    | Returns (c2, _) => Returns c2
    | Undefined => Undefined
    | Died => Died
    end
  | Undefined => Undefined
  | Died => Died
  end.

(** The context after [dh_set_params] with the integer parameter
    [pad] of value [v]. *)
Definition padded (c : PROV_DH_CTX DH) (v : Z) : option (PROV_DH_CTX DH) :=
  fst (dh_set_params ops (Some c)
         (Some [mkParam OSSL_EXCHANGE_PARAM_PAD OSSL_PARAM_INTEGER v])).

(** The key of the party with private value [x] in the group of modulus
    [p] and generator [g]: its public value is [g ^ x mod p]. *)
Definition key_of (p g x : Z) : DH := mkDH p g (Some x) (Some (g ^ x mod p)).

End DHAgreement.

(** * Properties *)

(** ** Method identities *)

Module MethodIdFacts.
Import MethodId.

Lemma to_uint_small (x : Z) : 0 <= x < 2 ^ 32 -> to_uint x = x.
Proof. intros H. unfold to_uint. apply Z.mod_small. exact H. Qed.

(** The name part keeps its 24 bits under the mask. *)
Lemma name_part_masked (name_id : Z) :
  0 <= name_id < 2 ^ 24 ->
  Z.land (to_uint (Z.shiftl name_id 8)) 0xFFFFFF00 = Z.shiftl name_id 8.
Proof.
  intros H.
  rewrite Z.shiftl_mul_pow2 by lia.
  rewrite to_uint_small by lia.
  rewrite <- Z.shiftl_mul_pow2 by lia.
  change 0xFFFFFF00 with (Z.shiftl (Z.ones 24) 8).
  rewrite <- Z.shiftl_land, Z.land_ones by lia.
  rewrite Z.mod_small by lia. reflexivity.
Qed.

(** The operation part keeps its 8 bits under the mask. *)
Lemma op_part_masked (operation_id : Z) :
  0 <= operation_id < 2 ^ 8 -> Z.land operation_id 0x000000FF = operation_id.
Proof.
  intros H. change 0x000000FF with (Z.ones 8).
  rewrite Z.land_ones by lia. apply Z.mod_small. exact H.
Qed.

(** The two parts do not overlap, so the [|] is a sum. *)
Lemma lor_parts (operation_id name_id : Z) :
  0 <= name_id -> 0 <= operation_id < 2 ^ 8 ->
  Z.lor (Z.shiftl name_id 8) operation_id = name_id * 256 + operation_id.
Proof.
  intros Hn Ho.
  assert (Hdisj : Z.land (Z.shiftl name_id 8) operation_id = 0).
  { apply Z.bits_inj'. intros n Hn0.
    rewrite Z.land_spec, Z.bits_0.
    destruct (Z.lt_ge_cases n 8) as [Hlt | Hge].
    - rewrite Z.shiftl_spec_low by exact Hlt. reflexivity.
    - replace (Z.testbit operation_id n) with false.
      + apply andb_false_r.
      + symmetry. destruct (Z.eq_dec operation_id 0) as [-> | Hnz].
        * apply Z.bits_0.
        * apply Z.bits_above_log2; [lia |].
          assert (Z.log2 operation_id < 8) by (apply Z.log2_lt_pow2; lia).
          lia. }
  rewrite <- Z.lxor_lor by exact Hdisj.
  rewrite <- Z.add_nocarry_lxor by exact Hdisj.
  rewrite Z.shiftl_mul_pow2 by lia. reflexivity.
Qed.

Lemma method_id_packed (operation_id name_id : Z) :
  in_width operation_id name_id ->
  method_id operation_id name_id = name_id * 256 + operation_id.
Proof.
  intros [Hn Ho]. unfold method_id.
  change (Z.shiftl 1 24) with (2 ^ 24). change (Z.shiftl 1 8) with (2 ^ 8).
  replace (name_id <? 2 ^ 24) with true by (symmetry; apply Z.ltb_lt; lia).
  replace (0 <? name_id) with true by (symmetry; apply Z.ltb_lt; lia).
  replace (0 <? operation_id) with true by (symmetry; apply Z.ltb_lt; lia).
  cbn [orb andb negb].
  rewrite name_part_masked, op_part_masked by lia.
  apply lor_parts; lia.
Qed.

(** C3, within the width invariants: for every operation identity in
    1..2^8-1 and every name identity in 1..2^24-1, [method_id] is
    [(name_id << 8) | operation_id], is not zero, and tells the pair:
    two pairs within the widths with the same method identity are the
    same pair. *)
Theorem method_id_in_width_unique (operation_id name_id : Z) :
  in_width operation_id name_id ->
  method_id operation_id name_id = Z.lor (Z.shiftl name_id 8) operation_id
  /\ method_id operation_id name_id <> 0
  /\ forall operation_id' name_id',
       in_width operation_id' name_id' ->
       method_id operation_id' name_id' = method_id operation_id name_id ->
       operation_id' = operation_id /\ name_id' = name_id.
Proof.
  intros Hw. pose proof Hw as [Hn Ho].
  rewrite (method_id_packed _ _ Hw).
  split; [| split].
  - symmetry. apply lor_parts; lia.
  - lia.
  - intros o' n' Hw' Heq. pose proof Hw' as [Hn' Ho'].
    rewrite (method_id_packed _ _ Hw') in Heq. lia.
Qed.

Lemma method_id_in_width_unique_witness :
  in_width 1 7
  /\ MethodId.method_id 1 7 = Z.lor (Z.shiftl 7 8) 1
  /\ MethodId.method_id 1 7 <> 0.
Proof.
  assert (Hw : in_width 1 7) by (unfold in_width; lia).
  split; [exact Hw |].
  destruct (method_id_in_width_unique 1 7 Hw) as [H1 [H2 _]].
  split; [exact H1 | exact H2].
Defined.

(** C3 as stated, on every pair of positive identities, fails: outside
    both widths the assertion of [method_id] gives 0. *)
Lemma method_id_positive_pair_zero :
  0 < 256 /\ 0 < 16777216 /\ method_id 256 16777216 = 0.
Proof. split; [lia | split; [lia | reflexivity]]. Qed.

(** The first assertion of [method_id] lets a pair through when only one
    of the two identities is out of its width; the identity is then cut
    to its width and meets that of another pair. *)
Lemma method_id_one_width_exceeded :
  method_id 257 1 = method_id 1 1 /\ method_id 1 16777217 = method_id 1 1.
Proof. split; reflexivity. Qed.

Example method_id_sha256 : method_id 1 7 = 0x701.
Proof. reflexivity. Qed.

Example method_id_keyexch : method_id 11 3 = 0x30B.
Proof. reflexivity. Qed.

End MethodIdFacts.

(** ** Generic fetch *)

Module FetchFacts.
Import MethodId Fetch.

Section Facts.
Context {W : Type} (ops : lib_ops W).

(** The [get] callback hands out a method only after its reference
    count went up. *)
Lemma get_method_from_store_some w libctx store op n q data w1 m :
  get_method_from_store ops w libctx store op n q data = (w1, Some m) ->
  exists st nm,
    store_or_default W ops w libctx store = Some st
    /\ ossl_namemap_stored ops w libctx = Some nm
    /\ ossl_namemap_name2num ops w nm n <> 0
    /\ method_id (to_uint op) (to_uint (ossl_namemap_name2num ops w nm n))
       <> 0
    /\ ossl_method_store_fetch ops w st
         (method_id (to_uint op)
            (to_uint (ossl_namemap_name2num ops w nm n))) q = Some m
    /\ w1 = fst (refcnt_up_method data w m)
    /\ snd (refcnt_up_method data w m) <> 0.
Proof.
  unfold get_method_from_store.
  destruct (store_or_default W ops w libctx store) as [st |];
    [| discriminate].
  destruct (ossl_namemap_stored ops w libctx) as [nm |]; [| discriminate].
  destruct (Z.eqb_spec (ossl_namemap_name2num ops w nm n) 0) as [| Hn];
    [discriminate |].
  destruct (Z.eqb_spec
              (method_id (to_uint op)
                 (to_uint (ossl_namemap_name2num ops w nm n))) 0)
    as [| Hm]; [discriminate |].
  destruct (ossl_method_store_fetch ops w st _ q) as [m' |] eqn:Hf;
    [| discriminate].
  destruct (refcnt_up_method data w m') as [w' r] eqn:Hup.
  destruct (Z.eqb_spec r 0) as [| Hr]; [discriminate |].
  intros Heq. injection Heq as <- <-.
  exists st, nm. rewrite Hup. cbn [fst snd].
  repeat split; assumption.
Qed.

(** The two ways [evp_generic_fetch] yields a method. *)
Lemma evp_generic_fetch_some w libctx op n q new_method up free_method
      w' m :
  evp_generic_fetch ops w libctx op n q new_method up free_method
  = (w', Some m) ->
  exists store nm,
    get_default_method_store ops w libctx = Some store
    /\ ossl_namemap_stored ops w libctx = Some nm
    /\ 0 < op
    /\ ((ossl_namemap_name2num ops w nm n <> 0
         /\ method_id (to_uint op)
              (to_uint (ossl_namemap_name2num ops w nm n)) <> 0
         /\ ossl_method_store_cache_get ops w store
              (method_id (to_uint op)
                 (to_uint (ossl_namemap_name2num ops w nm n))) q = Some m
         /\ w' = fst (up w m))
        \/ (exists w1,
              ossl_method_construct ops w libctx op n q 0 (mcm ops)
                (mkMethodData W libctx n new_method up free_method)
              = (w1, Some m)
              /\ w' = ossl_method_store_cache_set ops w1 store
                        (method_id (to_uint op)
                           (to_uint (ossl_namemap_name2num ops w1 nm n)))
                        q m)).
Proof.
  unfold evp_generic_fetch.
  destruct (get_default_method_store ops w libctx) as [store |];
    [| discriminate].
  destruct (ossl_namemap_stored ops w libctx) as [nm |]; [| discriminate].
  destruct (Z.ltb_spec 0 op) as [Hop |]; [| discriminate].
  cbn [negb].
  destruct (Z.eqb_spec (ossl_namemap_name2num ops w nm n) 0) as [Hz | Hn].
  - cbn [negb andb].
    destruct (ossl_method_construct ops w libctx op n q 0 (mcm ops) _)
      as [w1 [m1 |]] eqn:Hc; [| discriminate].
    intros Heq. injection Heq as <- <-.
    exists store, nm. repeat split; try assumption.
    right. exists w1. split; reflexivity.
  - cbn [negb andb].
    destruct (Z.eqb_spec
                (method_id (to_uint op)
                   (to_uint (ossl_namemap_name2num ops w nm n))) 0)
      as [| Hm]; [discriminate |].
    destruct (ossl_method_store_cache_get ops w store _ q) as [mc |] eqn:Hg.
    + intros Heq. injection Heq as <- <-.
      exists store, nm. repeat split; try assumption.
      left. repeat split; assumption.
    + destruct (ossl_method_construct ops w libctx op n q 0 (mcm ops) _)
        as [w1 [m1 |]] eqn:Hc; [| discriminate].
      intros Heq. injection Heq as <- <-.
      exists store, nm. repeat split; try assumption.
      right. exists w1. split; reflexivity.
Qed.

(** A fetch whose look-up in the query cache hits. *)
Lemma evp_generic_fetch_hit w libctx op n q new_method up free_method
      store nm m :
  get_default_method_store ops w libctx = Some store ->
  ossl_namemap_stored ops w libctx = Some nm ->
  0 < op ->
  ossl_namemap_name2num ops w nm n <> 0 ->
  method_id (to_uint op) (to_uint (ossl_namemap_name2num ops w nm n))
  <> 0 ->
  ossl_method_store_cache_get ops w store
    (method_id (to_uint op) (to_uint (ossl_namemap_name2num ops w nm n))) q
  = Some m ->
  evp_generic_fetch ops w libctx op n q new_method up free_method
  = (fst (up w m), Some m).
Proof.
  intros Hs Hnm Hop Hn Hm Hg. unfold evp_generic_fetch.
  rewrite Hs, Hnm.
  destruct (Z.ltb_spec 0 op) as [_ |]; [| lia].
  cbn [negb].
  destruct (Z.eqb_spec (ossl_namemap_name2num ops w nm n) 0) as [| _];
    [contradiction |].
  destruct (Z.eqb_spec
              (method_id (to_uint op)
                 (to_uint (ossl_namemap_name2num ops w nm n))) 0)
    as [| _]; [contradiction |].
  cbn [negb andb]. rewrite Hg. reflexivity.
Qed.

(** C7, where the code departs from it.  With [operation_id <= 0]
    [evp_generic_fetch] returns NULL and changes nothing, as the claim
    says.  But on a hit in the query cache it calls [up_ref_method] and
    drops what the call returns: the method is handed out whether or not
    a reference was taken, so when [up_ref_method] fails and leaves the
    count as it was, the caller gets a method whose count has not gone
    up.  The [get] callback of the same file tests the result: with the
    same method in the store and the same failing [up_ref_method] it
    hands out no method. *)
Theorem evp_generic_fetch_hit_unchecked (refcnt : W -> ptr -> Z)
    (new_method : new_method_fn W) (up : up_ref_method_fn W)
    (free_method : free_method_fn W) (w : W) (libctx : option ptr)
    (op : Z) (n q : string) :
  (op <= 0 ->
   evp_generic_fetch ops w libctx op n q new_method up free_method
   = (w, None))
  /\ (forall store nm m,
        get_default_method_store ops w libctx = Some store ->
        ossl_namemap_stored ops w libctx = Some nm ->
        0 < op ->
        ossl_namemap_name2num ops w nm n <> 0 ->
        method_id (to_uint op) (to_uint (ossl_namemap_name2num ops w nm n))
        <> 0 ->
        ossl_method_store_cache_get ops w store
          (method_id (to_uint op)
             (to_uint (ossl_namemap_name2num ops w nm n))) q = Some m ->
        snd (up w m) = 0 ->
        refcnt (fst (up w m)) m = refcnt w m ->
        (exists w',
           evp_generic_fetch ops w libctx op n q new_method up free_method
           = (w', Some m)
           /\ refcnt w' m = refcnt w m)
        /\ (forall st,
              ossl_method_store_fetch ops w st
                (method_id (to_uint op)
                   (to_uint (ossl_namemap_name2num ops w nm n))) q = Some m ->
              get_method_from_store ops w libctx (Some st) op n q
                (mkMethodData W libctx n new_method up free_method)
              = (fst (up w m), None))).
Proof.
  split.
  - intros Hop. unfold evp_generic_fetch.
    destruct (get_default_method_store ops w libctx); [| reflexivity].
    destruct (ossl_namemap_stored ops w libctx); [| reflexivity].
    destruct (Z.ltb_spec 0 op) as [| _]; [lia | reflexivity].
  - intros store nm m Hs Hnm Hop Hn Hm Hg Hfail Hcnt. split.
    + exists (fst (up w m)). split; [| exact Hcnt].
      apply evp_generic_fetch_hit with (store := store) (nm := nm);
        assumption.
    + intros st Hf. unfold get_method_from_store.
      cbn [store_or_default]. rewrite Hnm.
      destruct (Z.eqb_spec (ossl_namemap_name2num ops w nm n) 0) as [| _];
        [contradiction |].
      destruct (Z.eqb_spec
                  (method_id (to_uint op)
                     (to_uint (ossl_namemap_name2num ops w nm n))) 0)
        as [| _]; [contradiction |].
      rewrite Hf. cbn [refcnt_up_method].
      destruct (up w m) as [w' r]. cbn [fst snd] in Hfail |- *.
      subst r. reflexivity.
Qed.

(** C4, for a fetch that yields a method: when [evp_generic_fetch]
    returns a method, the same call made again on the library as the
    first call left it finds that method in the query cache and returns
    it, doing nothing but [up_ref_method] on it.  This holds as long as
    the query cache keeps what was recorded in it. *)
Theorem evp_generic_fetch_idempotent (new_method : new_method_fn W)
    (up : up_ref_method_fn W) (free_method : free_method_fn W) :
  cache_laws ops ->
  up_ref_frame ops up ->
  construct_laws ops new_method up free_method ->
  forall w libctx op n q w1 m,
    evp_generic_fetch ops w libctx op n q new_method up free_method
    = (w1, Some m) ->
    (exists store nm,
       get_default_method_store ops w1 libctx = Some store
       /\ ossl_namemap_stored ops w1 libctx = Some nm
       /\ ossl_method_store_cache_get ops w1 store
            (method_id (to_uint op)
               (to_uint (ossl_namemap_name2num ops w1 nm n))) q = Some m)
    /\ evp_generic_fetch ops w1 libctx op n q new_method up free_method
       = (fst (up w1 m), Some m).
Proof.
  intros Hcache Hframe Hcon w libctx op n q w1 m Hf.
  destruct (evp_generic_fetch_some _ _ _ _ _ _ _ _ _ _ Hf)
    as (store & nm & Hs & Hnm & Hop
        & [(Hn & Hm & Hg & Hw) | (w2 & Hc & Hw)]).
  - assert (Hs1 : get_default_method_store ops w1 libctx = Some store)
      by (rewrite Hw, (up_store ops up Hframe); exact Hs).
    assert (Hnm1 : ossl_namemap_stored ops w1 libctx = Some nm)
      by (rewrite Hw, (up_namemap ops up Hframe); exact Hnm).
    assert (Hnames : ossl_namemap_name2num ops w1 nm n
                     = ossl_namemap_name2num ops w nm n)
      by (rewrite Hw; apply (up_names ops up Hframe)).
    assert (Hg1 : ossl_method_store_cache_get ops w1 store
                    (method_id (to_uint op)
                       (to_uint (ossl_namemap_name2num ops w1 nm n))) q
                  = Some m)
      by (rewrite Hnames, Hw, (up_cache ops up Hframe); exact Hg).
    split.
    + exists store, nm. repeat split; assumption.
    + apply evp_generic_fetch_hit with (store := store) (nm := nm);
        try assumption; rewrite Hnames; assumption.
  - destruct (Hcon _ _ _ _ _ _ _ Hc) as (Hs2 & Hnm2 & Hnamed).
    destruct (Hnamed nm Hnm) as [Hn2 Hm2].
    assert (Hs1 : get_default_method_store ops w1 libctx = Some store)
      by (rewrite Hw, (cache_set_store ops Hcache), Hs2; exact Hs).
    assert (Hnm1 : ossl_namemap_stored ops w1 libctx = Some nm)
      by (rewrite Hw, (cache_set_namemap ops Hcache), Hnm2; exact Hnm).
    assert (Hnames : ossl_namemap_name2num ops w1 nm n
                     = ossl_namemap_name2num ops w2 nm n)
      by (rewrite Hw; apply (cache_set_names ops Hcache)).
    assert (Hg1 : ossl_method_store_cache_get ops w1 store
                    (method_id (to_uint op)
                       (to_uint (ossl_namemap_name2num ops w1 nm n))) q
                  = Some m)
      by (rewrite Hnames, Hw; apply (cache_get_set ops Hcache)).
    split.
    + exists store, nm. repeat split; assumption.
    + apply evp_generic_fetch_hit with (store := store) (nm := nm);
        try assumption; rewrite Hnames; assumption.
Qed.

End Facts.

(** The small library context obeys the laws. *)
Section SmallLibFacts.
Import SmallLib.

Lemma small_cache_laws : cache_laws SmallLib.ops.
Proof.
  constructor; try reflexivity.
  intros w store id q m. cbn.
  rewrite Z.eqb_refl, String.eqb_refl. reflexivity.
Qed.

Lemma small_up_ref_frame : up_ref_frame SmallLib.ops up_ref.
Proof. constructor; reflexivity. Qed.

Lemma small_construct_laws new_method free_method :
  construct_laws SmallLib.ops new_method up_ref free_method.
Proof.
  intros w c op n q w1 m Hc. cbn [ossl_method_construct SmallLib.ops] in Hc.
  cbn [get mcm] in Hc.
  destruct (get_method_from_store_some _ _ _ _ _ _ _ _ _ _ Hc)
    as (st & nm0 & _ & Hnm0 & Hn & Hm & _ & Hw & _).
  cbn [refcnt_up_method] in Hw. subst w1.
  split; [reflexivity |]. split; [reflexivity |].
  intros nm _. split; assumption.
Qed.

Lemma small_up_ref_counts w m :
  refcnt (fst (up_ref w m)) m = refcnt w m + 1.
Proof.
  unfold refcnt, up_ref. cbn [fst refs].
  rewrite count_occ_cons_eq by reflexivity.
  rewrite Nat2Z.inj_succ. reflexivity.
Qed.

Lemma small_construct_counts new_method free_method w c op n q w1 m :
  ossl_method_construct SmallLib.ops w c op n q 0 (mcm SmallLib.ops)
    (mkMethodData world c n new_method up_ref free_method) = (w1, Some m) ->
  refcnt w m < refcnt w1 m.
Proof.
  intros Hc. cbn [ossl_method_construct SmallLib.ops] in Hc.
  cbn [get mcm] in Hc.
  destruct (get_method_from_store_some _ _ _ _ _ _ _ _ _ _ Hc)
    as (_ & _ & _ & _ & _ & _ & _ & Hw & _).
  cbn [refcnt_up_method] in Hw. subst w1.
  rewrite small_up_ref_counts. apply Z.lt_succ_diag_r.
Qed.

Lemma small_cache_set_counts (w : world) (store id : Z) (q : string)
    (m m' : ptr) :
  refcnt w m'
  <= refcnt (ossl_method_store_cache_set SmallLib.ops w store id q m) m'.
Proof. apply Z.le_refl. Qed.

(** The first fetch of SHA256 misses the cache and goes through the
    construction; the second is answered from the cache. *)
Example small_fetch_sha256 :
  evp_generic_fetch SmallLib.ops w0 None 1 "SHA256" empty_query
    no_new_method up_ref free_ref
  = (w1, Some 4096).
Proof. reflexivity. Qed.

Lemma evp_generic_fetch_hit_unchecked_witness :
  evp_generic_fetch SmallLib.ops w0 None 0 "SHA256" empty_query
    no_new_method failed_up_ref free_ref = (w0, None)
  /\ (exists w',
        evp_generic_fetch SmallLib.ops w1 None 1 "SHA256" empty_query
          no_new_method failed_up_ref free_ref = (w', Some 4096)
        /\ refcnt w' 4096 = refcnt w1 4096)
  /\ get_method_from_store SmallLib.ops w1 None (Some 100) 1 "SHA256"
       empty_query
       (mkMethodData world None "SHA256" no_new_method failed_up_ref free_ref)
     = (w1, None).
Proof.
  destruct (evp_generic_fetch_hit_unchecked SmallLib.ops refcnt
              no_new_method failed_up_ref free_ref w0 None 0
              "SHA256"%string empty_query) as [Hzero _].
  destruct (evp_generic_fetch_hit_unchecked SmallLib.ops refcnt
              no_new_method failed_up_ref free_ref w1 None 1
              "SHA256"%string empty_query) as [_ Hhit].
  destruct (Hhit 100 200 4096) as [Hfetch Hget];
    try reflexivity; try discriminate; try lia.
  split; [apply Hzero; lia |]. split; [exact Hfetch |].
  apply (Hget 100). reflexivity.
Defined.

Lemma evp_generic_fetch_idempotent_witness :
  cache_laws SmallLib.ops
  /\ up_ref_frame SmallLib.ops up_ref
  /\ construct_laws SmallLib.ops no_new_method up_ref free_ref
  /\ evp_generic_fetch SmallLib.ops w0 None 1 "SHA256" empty_query
       no_new_method up_ref free_ref = (w1, Some 4096)
  /\ evp_generic_fetch SmallLib.ops w1 None 1 "SHA256" empty_query
       no_new_method up_ref free_ref = (fst (up_ref w1 4096), Some 4096).
Proof.
  split; [exact small_cache_laws |].
  split; [exact small_up_ref_frame |].
  split; [exact (small_construct_laws no_new_method free_ref) |].
  split; [reflexivity |].
  apply (evp_generic_fetch_idempotent SmallLib.ops no_new_method up_ref
           free_ref small_cache_laws small_up_ref_frame
           (small_construct_laws no_new_method free_ref)
           w0 None 1 "SHA256"%string empty_query w1 4096).
  reflexivity.
Defined.

(** C4 as stated, for every operation, name and query, fails: a fetch
    that yields no method leaves the library as it was, so the second
    call is the first call over again: no method, nothing from the
    query cache, no reference taken.  So it is with the operation
    identity 0 and with a name no provider knows. *)
Lemma evp_generic_fetch_twice_no_method :
  evp_generic_fetch SmallLib.ops w0 None 0 "SHA256" empty_query
    no_new_method up_ref free_ref = (w0, None)
  /\ evp_generic_fetch SmallLib.ops w0 None 1 "MD2" empty_query
       no_new_method up_ref free_ref = (w0, None).
Proof. split; reflexivity. Qed.

End SmallLibFacts.

End FetchFacts.

(** ** The digest adapter *)

Module DispatchFacts.
Import Digest.

Ltac split_ids :=
  repeat match goal with
         | |- context [if ?a =? ?b then _ else _] => destruct (a =? b)
         end.

Ltac split_slots :=
  repeat match goal with
         | |- context [match ?o with Some _ => _ | None => _ end] =>
           destruct o
         end.

(** With a function pointer that is not null, [fncnt] goes on counting
    the filled slots of the streaming set. *)
Lemma dispatch_step_counted (st : EVP_MD * Z) (fn : OSSL_DISPATCH) :
  function fn <> None ->
  snd st = counted (fst st) ->
  snd (dispatch_step st fn) = counted (fst (dispatch_step st fn)).
Proof.
  destruct st as [md c]. destruct fn as [id [f |]]; [| contradiction].
  intros _. destruct md. unfold dispatch_step, counted.
  cbn [fst snd function function_id MD.newctx MD.dinit MD.dupdate MD.dfinal
       MD.digest MD.freectx MD.dupctx MD.size MD.dblock_size MD.set_params
       MD.get_params].
  intros Hc. destruct newctx, dinit, dupdate, dfinal, freectx;
    split_ids; split_slots; cbn in *; lia.
Qed.

Lemma dispatch_loop_counted (fns : list OSSL_DISPATCH) :
  nonnull fns ->
  forall st, snd st = counted (fst st) ->
  snd (dispatch_loop fns st) = counted (fst (dispatch_loop fns st)).
Proof.
  induction 1 as [| fn rest Hfn _ IH]; intros st Hst; cbn [dispatch_loop].
  - exact Hst.
  - destruct (function_id fn =? 0); [exact Hst |].
    apply IH. apply dispatch_step_counted; assumption.
Qed.

(** Binding the provider leaves the function table alone. *)
Lemma set_prov_slots (md : EVP_MD) (p : option ptr) :
  counted (MD.set_prov md p) = counted md
  /\ MD.newctx (MD.set_prov md p) = MD.newctx md
  /\ MD.dinit (MD.set_prov md p) = MD.dinit md
  /\ MD.dupdate (MD.set_prov md p) = MD.dupdate md
  /\ MD.dfinal (MD.set_prov md p) = MD.dfinal md
  /\ MD.freectx (MD.set_prov md p) = MD.freectx md
  /\ MD.digest (MD.set_prov md p) = MD.digest md
  /\ MD.size (MD.set_prov md p) = MD.size md.
Proof. destruct md. repeat split; reflexivity. Qed.

Lemma counted_five (md : EVP_MD) :
  counted md = 5 ->
  MD.newctx md <> None /\ MD.dinit md <> None /\ MD.dupdate md <> None
  /\ MD.dfinal md <> None /\ MD.freectx md <> None.
Proof.
  unfold counted.
  destruct (MD.newctx md), (MD.dinit md), (MD.dupdate md), (MD.dfinal md),
    (MD.freectx md); cbn [present]; intros H; try lia;
    repeat split; discriminate.
Qed.

(** On a table without null function pointers the adapter yields a
    record only for the whole streaming set or for none of it with the
    one-shot function, and with the size function. *)
Lemma evp_md_from_dispatch_nonnull (a b : bool) (w w' : world)
    (name : string) (fns : list OSSL_DISPATCH) (prov : option ptr)
    (md : EVP_MD) :
  nonnull fns ->
  evp_md_from_dispatch a b w name fns prov = (w', Some md) ->
  ((MD.newctx md <> None /\ MD.dinit md <> None /\ MD.dupdate md <> None
    /\ MD.dfinal md <> None /\ MD.freectx md <> None)
   \/ (counted md = 0 /\ MD.digest md <> None))
  /\ MD.size md <> None.
Proof.
  intros Hnn. unfold evp_md_from_dispatch.
  destruct a; cbn [negb]; [| discriminate].
  destruct b; cbn [negb]; [| discriminate].
  pose proof (dispatch_loop_counted fns Hnn
                (MD.set_name (EVP_MD_meth_new NID_undef NID_undef)
                   (Some name), 0) eq_refl) as Hc.
  destruct (dispatch_loop fns _) as [md1 fncnt]. cbn [fst snd] in Hc.
  destruct (set_prov_slots md1 prov)
    as (Pc & Pn & Pi & Pu & Pf & Pfr & Pd & Ps).
  destruct (Z.eqb_spec fncnt 0) as [H0 | H0];
    destruct (Z.eqb_spec fncnt 5) as [H5 | H5]; cbn [negb andb orb];
    try discriminate; try lia.
  - destruct (MD.digest md1) eqn:Hd; cbn [orb]; [| discriminate].
    destruct (MD.size md1) eqn:Hs; [| discriminate].
    intros Heq.
    assert (Hmd : md = MD.set_prov md1 prov)
      by (destruct prov; injection Heq as _ <-; reflexivity).
    subst md. rewrite Pc, Pd, Ps.
    split; [right; split; [lia | discriminate] | discriminate].
  - destruct (MD.size md1) eqn:Hs; [| discriminate].
    intros Heq.
    assert (Hmd : md = MD.set_prov md1 prov)
      by (destruct prov; injection Heq as _ <-; reflexivity).
    subst md. rewrite Pn, Pi, Pu, Pf, Pfr, Ps.
    split; [left; apply counted_five; lia | discriminate].
Qed.

(** When the two allocations succeed and the adapter yields no record,
    the last thing it does is to release the record it built. *)
Lemma evp_md_from_dispatch_releases (w w' : world) (name : string)
    (fns : list OSSL_DISPATCH) (prov : option ptr) :
  evp_md_from_dispatch true true w name fns prov = (w', None) ->
  exists md, w' = w ++ [Ev_meth_new; Ev_strdup; Ev_meth_free (Some md)].
Proof.
  unfold evp_md_from_dispatch. cbn [negb].
  destruct (dispatch_loop fns _) as [md1 fncnt].
  destruct (_ || _ || _).
  - intros Heq. injection Heq as <-. exists md1.
    rewrite <- app_assoc. reflexivity.
  - destruct prov; discriminate.
Qed.

Example evp_md_from_dispatch_sha256 :
  evp_md_from_dispatch true true [] "SHA256" sha256_functions (Some 7)
  = ([Ev_meth_new; Ev_strdup; Ev_provider_up_ref 7], Some sha256_md).
Proof. reflexivity. Qed.

Example evp_md_from_dispatch_oneshot :
  evp_md_from_dispatch true true [] "SHA256" oneshot_functions (Some 7)
  = ([Ev_meth_new; Ev_strdup; Ev_provider_up_ref 7], Some oneshot_md).
Proof. reflexivity. Qed.

(** C1, at a table the adapter should refuse: the table names the
    new-context function five times with a null function pointer and
    gives the size function.  It supplies none of init, update, final and
    freectx, no new-context function to call, and no one-shot digest
    function; yet [fncnt] reaches 5, and the adapter returns a record
    whose only filled slot is the size, releasing nothing. *)
Theorem evp_md_from_dispatch_newctx_only :
  evp_md_from_dispatch true true [] "SHA256" newctx_only_functions (Some 7)
  = ([Ev_meth_new; Ev_strdup; Ev_provider_up_ref 7], Some size_only_md)
  /\ counted size_only_md = 0
  /\ MD.digest size_only_md = None.
Proof. repeat split; reflexivity. Qed.

End DispatchFacts.

(** ** The digest context *)

Module DigestFacts.
Import Digest.

Lemma flag_set_tested (x f : Z) : f <> 0 -> Z.land (Z.lor x f) f <> 0.
Proof.
  intros Hf H. rewrite Z.land_lor_distr_l, Z.land_diag in H.
  apply Z.lor_eq_0_iff in H. destruct H as [_ H]. contradiction.
Qed.

(** What [EVP_MD_CTX_reset] does on the provider path when no public-key
    context is attached. *)
Lemma reset_provider_path (w : world) (ctx : EVP_MD_CTX) (md : EVP_MD)
    (prov : ptr) :
  CTX.digest ctx = Some md ->
  MD.prov md = Some prov ->
  CTX.pctx ctx = None ->
  EVP_MD_CTX_reset w ctx
  = match CTX.provctx ctx with
    | Some p =>
      (w ++ match MD.freectx md with
            | Some f => [Ev_freectx f p]
            | None => []
            end,
       EVP_MD_CTX_set_flags (CTX.set_provctx ctx None)
         EVP_MD_CTX_FLAG_CLEANED, 1)
    | None => (w, ctx, 1)
    end.
Proof.
  intros Hd Hp Hk. unfold EVP_MD_CTX_reset. rewrite Hd, Hp.
  destruct ctx. cbn in Hk |- *. subst pctx.
  destruct provctx as [p |]; [| reflexivity].
  destruct (MD.freectx md); cbn; [reflexivity |].
  rewrite app_nil_r. reflexivity.
Qed.




(** C9: with [count == 0], [EVP_DigestUpdate] returns 1 at once for
    every context, initialised or not, and every data pointer; it calls
    nothing and leaves the context as it is. *)
Theorem EVP_DigestUpdate_zero_count (im : impl) (w : world)
    (ctx : EVP_MD_CTX) (data : option ptr) :
  EVP_DigestUpdate im w ctx data 0 = Returns (w, ctx, 1).
Proof. reflexivity. Qed.

(** C6, where the code departs from it: on a context just created and
    never initialised, [EVP_DigestUpdate] with a length that is not 0
    raises no error and does not return.  The context has no digest, so
    the call takes the legacy route and calls [ctx->update], which is
    null, for every data pointer.  The provider route of the same
    function tests its function pointer: with a digest bound to a
    provider and no update function it raises [EVP_R_UPDATE_ERROR] and
    returns 0, leaving the context as it is. *)
Theorem EVP_DigestUpdate_fresh_nonzero (im : impl) (w : world)
    (data : option ptr) (count : Z) :
  count <> 0 ->
  EVP_DigestUpdate im w EVP_MD_CTX_new data count = Undefined
  /\ (forall ctx md,
        CTX.digest ctx = Some md -> MD.prov md <> None ->
        MD.dupdate md = None ->
        EVP_DigestUpdate im w ctx data count
        = Returns (w ++ [Ev_err EVP_R_UPDATE_ERROR], ctx, 0)).
Proof.
  intros Hc. unfold EVP_DigestUpdate.
  destruct (Z.eqb_spec count 0) as [| _]; [contradiction |].
  split; [reflexivity |].
  intros ctx md Hd Hp Hu. rewrite Hd, Hu.
  destruct (MD.prov md); [reflexivity | contradiction].
Qed.

Lemma EVP_DigestUpdate_fresh_nonzero_witness :
  EVP_DigestUpdate sha256_impl [] EVP_MD_CTX_new (Some 0x3000) 3 = Undefined
  /\ EVP_DigestUpdate sha256_impl [] (CTX.set_digest EVP_MD_CTX_new
                                        (Some size_only_md)) (Some 0x3000) 3
     = Returns ([Ev_err EVP_R_UPDATE_ERROR],
                CTX.set_digest EVP_MD_CTX_new (Some size_only_md), 0).
Proof.
  destruct (EVP_DigestUpdate_fresh_nonzero sha256_impl [] (Some 0x3000) 3)
    as [Hfresh Hprov]; [discriminate |].
  split; [exact Hfresh |].
  apply (Hprov (CTX.set_digest EVP_MD_CTX_new (Some size_only_md))
           size_only_md); [reflexivity | discriminate | reflexivity].
Defined.

(** [EVP_MD_CTX_reset] returns 1 on every context. *)
Lemma reset_returns_one (w : world) (ctx : EVP_MD_CTX) :
  snd (EVP_MD_CTX_reset w ctx) = 1.
Proof.
  unfold EVP_MD_CTX_reset, reset_legacy.
  destruct (CTX.digest ctx) as [md |]; [| reflexivity].
  destruct (MD.prov md); [| reflexivity].
  destruct (CTX.provctx ctx); cbn [CTX.pctx];
    match goal with
    | |- context [match CTX.pctx ?c with _ => _ end] =>
      destruct (CTX.pctx c); reflexivity
    end.
Qed.

(** C10, as the code has it.  On the provider path, for every context
    and every implementation with a final function, [EVP_DigestFinal_ex]
    runs [dfinal] on the provider state and then [EVP_MD_CTX_reset]
    before it returns, whatever [dfinal] returns and also when the size
    does not fit an [unsigned int]; it returns what [dfinal] returned, or
    0 with an error in that last case.  For a context that holds provider
    state and has no public-key context, that reset runs [freectx] on the
    state when the implementation has one, leaves [provctx] NULL and sets
    CLEANED.  For every context and every implementation without a final
    function, it raises the error and returns 0, and does not reset: the
    context is as it was. *)
Theorem EVP_DigestFinal_ex_resets (im : impl) (w : world)
    (ctx : EVP_MD_CTX) (md : EVP_MD) (prov : ptr) (isize : option Z) :
  CTX.digest ctx = Some md ->
  MD.prov md = Some prov ->
  (forall f, MD.dfinal md = Some f ->
     let mdsize := to_size_t (EVP_MD_size im (Some md)) in
     let r := run_dfinal im w f (CTX.provctx ctx) mdsize in
     let overflow :=
       match isize with
       | Some _ => negb (snd r <=? UINT_MAX)
       | None => false
       end in
     let w2 :=
       if overflow
       then (w ++ [Ev_dfinal f (CTX.provctx ctx) mdsize])
            ++ [Ev_err EVP_R_FINAL_ERROR]
       else w ++ [Ev_dfinal f (CTX.provctx ctx) mdsize] in
     exists w' ctx' isize',
       EVP_DigestFinal_ex im w ctx isize
       = Returns (w', ctx', isize', if overflow then 0 else fst r)
       /\ EVP_MD_CTX_reset w2 ctx = (w', ctx', 1)
       /\ (forall p, CTX.provctx ctx = Some p -> CTX.pctx ctx = None ->
             w' = w2 ++ match MD.freectx md with
                        | Some fr => [Ev_freectx fr p]
                        | None => []
                        end
             /\ CTX.provctx ctx' = None
             /\ EVP_MD_CTX_test_flags ctx' EVP_MD_CTX_FLAG_CLEANED <> 0))
  /\ (MD.dfinal md = None ->
      EVP_DigestFinal_ex im w ctx isize
      = Returns (w ++ [Ev_err EVP_R_FINAL_ERROR], ctx, isize, 0)).
Proof.
  intros Hd Hp. split.
  - intros f Hf mdsize r overflow w2.
    assert (Hfin : exists isize',
               EVP_DigestFinal_ex im w ctx isize
               = Returns (fst (fst (EVP_MD_CTX_reset w2 ctx)),
                          snd (fst (EVP_MD_CTX_reset w2 ctx)), isize',
                          if overflow then 0 else fst r)).
    { unfold EVP_DigestFinal_ex. rewrite Hd, Hp, Hf.
      subst w2 overflow r mdsize.
      destruct (run_dfinal im w f (CTX.provctx ctx) _) as [ret size].
      cbn [fst snd].
      destruct isize as [old |]; [destruct (size <=? UINT_MAX) |];
        cbn [negb];
        match goal with
        | |- context [EVP_MD_CTX_reset ?a ?b] =>
          destruct (EVP_MD_CTX_reset a b) as [[w3 ctx3] r3]
        end;
        eexists; reflexivity. }
    destruct Hfin as [isize' Hfin].
    pose proof (reset_returns_one w2 ctx) as Hone.
    destruct (EVP_MD_CTX_reset w2 ctx) as [[w' ctx'] r1] eqn:Hr.
    cbn [fst snd] in Hfin, Hone. subst r1.
    exists w', ctx', isize'. split; [exact Hfin |]. split; [reflexivity |].
    intros p Hs Hk.
    rewrite (reset_provider_path w2 ctx md prov Hd Hp Hk), Hs in Hr.
    injection Hr as <- <-.
    split; [reflexivity |]. split; [destruct ctx; reflexivity |].
    destruct ctx. unfold EVP_MD_CTX_test_flags. cbn.
    apply flag_set_tested. discriminate.
  - intros Hf. unfold EVP_DigestFinal_ex. rewrite Hd, Hp, Hf. reflexivity.
Qed.

Lemma EVP_DigestFinal_ex_resets_witness :
  CTX.digest sha256_ctx = Some sha256_md
  /\ MD.prov sha256_md = Some 7
  /\ MD.dfinal sha256_md = Some 0x1030
  /\ CTX.provctx sha256_ctx = Some 0x2000
  /\ CTX.pctx sha256_ctx = None
  /\ (exists w' ctx' isize',
        EVP_DigestFinal_ex oversize_impl [] sha256_ctx (Some 0)
        = Returns (w', ctx', isize', 0)
        /\ EVP_MD_CTX_reset
             [Ev_dfinal 0x1030 (Some 0x2000) 32; Ev_err EVP_R_FINAL_ERROR]
             sha256_ctx = (w', ctx', 1)
        /\ CTX.provctx ctx' = None)
  /\ EVP_DigestFinal_ex sha256_impl [] nofinal_ctx (Some 0)
     = Returns ([Ev_err EVP_R_FINAL_ERROR], nofinal_ctx, Some 0, 0).
Proof.
  repeat (split; [reflexivity |]).
  destruct (EVP_DigestFinal_ex_resets oversize_impl [] sha256_ctx sha256_md
              7 (Some 0) eq_refl eq_refl) as [Hfinal _].
  destruct (Hfinal 0x1030 eq_refl)
    as (w' & ctx' & isize' & Hfin & Hr & Hstate).
  destruct (Hstate 0x2000 eq_refl eq_refl) as (_ & Hp & _).
  split.
  - exists w', ctx', isize'.
    split; [exact Hfin |]. split; [exact Hr | exact Hp].
  - destruct (EVP_DigestFinal_ex_resets sha256_impl [] nofinal_ctx nofinal_md
                7 (Some 0) eq_refl eq_refl) as [_ Hnone].
    apply Hnone. reflexivity.
Defined.

Example EVP_DigestFinal_ex_sha256 :
  EVP_DigestFinal_ex sha256_impl [] sha256_ctx (Some 0)
  = Returns ([Ev_dfinal 0x1030 (Some 0x2000) 32; Ev_freectx 0x1040 0x2000],
             CTX.mkCtx (Some sha256_md) (Some sha256_md) None 2 None None
               None None (Some sha256_md),
             Some 32, 1).
Proof. reflexivity. Qed.

Example EVP_DigestFinal_ex_oversize :
  EVP_DigestFinal_ex oversize_impl [] sha256_ctx (Some 0)
  = Returns ([Ev_dfinal 0x1030 (Some 0x2000) 32; Ev_err EVP_R_FINAL_ERROR;
              Ev_freectx 0x1040 0x2000],
             CTX.mkCtx (Some sha256_md) (Some sha256_md) None 2 None None
               None None (Some sha256_md),
             Some 0, 0).
Proof. reflexivity. Qed.

(** C10 as stated, for every final on the provider path, fails when the
    implementation has no final function: [EVP_DigestFinal_ex] raises
    the error and returns 0 without resetting; the provider state is
    still held and CLEANED is not set.  The record is the one the
    adapter builds from a table whose final function is null. *)
Lemma EVP_DigestFinal_ex_no_final_no_reset :
  evp_md_from_dispatch true true [] "SHA256" nofinal_functions (Some 7)
  = ([Ev_meth_new; Ev_strdup; Ev_provider_up_ref 7], Some nofinal_md)
  /\ EVP_DigestFinal_ex sha256_impl [] nofinal_ctx (Some 0)
     = Returns ([Ev_err EVP_R_FINAL_ERROR], nofinal_ctx, Some 0, 0)
  /\ CTX.provctx nofinal_ctx = Some 0x2000
  /\ EVP_MD_CTX_test_flags nofinal_ctx EVP_MD_CTX_FLAG_CLEANED = 0.
Proof. repeat split; reflexivity. Qed.

End DigestFacts.

(** ** The DH key exchange *)

Module DHFacts.
Import DHExch.

Section Derive.
Context {DH BIGNUM OSSL_PARAM : Type} (ops : dh_ops DH BIGNUM OSSL_PARAM).

(** C2, with the failure of the computation: without both a local key
    and a peer key [dh_derive] fails.  With both, a null output pointer
    makes it store the size [DH_size] of the local key in [*keylen]
    and succeed without writing; a capacity below that size makes it
    fail; otherwise it runs the computation, fails when the
    computation returns no positive length, and else stores the number
    of bytes written in [*keylen] and succeeds.  After [dh_init] and
    [dh_set_peer] with keys, [dh_derive] with a null output pointer and
    capacity 0 succeeds and stores the size, positive when the size of
    the local key is. *)
Theorem dh_derive_contract (pdhctx : PROV_DH_CTX DH) (key : option ptr)
    (keylen outlen : Z) :
  (dh pdhctx = None \/ dhpeer pdhctx = None ->
   dh_derive ops pdhctx key keylen outlen = (0, keylen, []))
  /\ (forall d peer,
        dh pdhctx = Some d -> dhpeer pdhctx = Some peer ->
        (key = None ->
         dh_derive ops pdhctx key keylen outlen
         = (1, to_size_t (DH_size ops d), []))
        /\ (key <> None -> outlen < to_size_t (DH_size ops d) ->
            dh_derive ops pdhctx key keylen outlen = (0, keylen, []))
        /\ (key <> None -> to_size_t (DH_size ops d) <= outlen ->
            (fst (computed ops pdhctx d peer) <= 0 ->
             dh_derive ops pdhctx key keylen outlen
             = (0, keylen, snd (computed ops pdhctx d peer)))
            /\ (0 < fst (computed ops pdhctx d peer) ->
                dh_derive ops pdhctx key keylen outlen
                = (1, to_size_t (fst (computed ops pdhctx d peer)),
                   snd (computed ops pdhctx d peer)))))
  /\ (forall d peer,
        exists c1 c2,
          dh_init pdhctx (Some d) = Returns (c1, 1)
          /\ dh_set_peer c1 (Some peer) = Returns (c2, 1)
          /\ dh_derive ops c2 None keylen 0
             = (1, to_size_t (DH_size ops d), [])
          /\ (0 < DH_size ops d < 2 ^ 64 ->
              0 < to_size_t (DH_size ops d))).
Proof.
  split; [| split].
  - unfold dh_derive. intros [H | H]; rewrite H; [reflexivity |].
    destruct (dh pdhctx); reflexivity.
  - intros d peer Hd Hp. unfold dh_derive, computed. rewrite Hd, Hp.
    split; [| split].
    + intros ->. reflexivity.
    + intros Hk Hlt. destruct key; [| contradiction].
      destruct (Z.ltb_spec outlen (to_size_t (DH_size ops d)));
        [reflexivity | lia].
    + intros Hk Hge. destruct key; [| contradiction].
      destruct (Z.ltb_spec outlen (to_size_t (DH_size ops d))); [lia |].
      destruct (if negb (pad pdhctx =? 0)
                then DH_compute_key_padded ops (DH_get0_key ops peer) d
                else DH_compute_key ops (DH_get0_key ops peer) d)
        as [ret bytes].
      cbn [fst snd].
      destruct (Z.leb_spec ret 0); split; intros; (reflexivity || lia).
  - intros d peer. do 2 eexists.
    split; [reflexivity |]. split; [reflexivity |].
    split; [reflexivity |].
    intros H. unfold to_size_t. rewrite Z.mod_small; lia.
Qed.

End Derive.

(** libcrypto's encoding of numbers. *)
Section Encoding.
Import DHModel.

Lemma BN_num_bytes_bounds (s : Z) :
  0 < s ->
  0 < BN_num_bytes s
  /\ 256 ^ (BN_num_bytes s - 1) <= s < 256 ^ BN_num_bytes s.
Proof.
  intros Hs. unfold BN_num_bytes.
  destruct (Z.leb_spec s 0); [lia |].
  pose proof (Z.log2_nonneg s) as Hl.
  pose proof (Z.log2_spec s Hs) as [Hlo Hhi].
  pose proof (Z.div_pos (Z.log2 s) 8 Hl ltac:(lia)) as Hq.
  pose proof (Z.mul_div_le (Z.log2 s) 8 ltac:(lia)) as Hle.
  pose proof (Z.mul_succ_div_gt (Z.log2 s) 8 ltac:(lia)) as Hgt.
  split; [lia |].
  change 256 with (2 ^ 8).
  rewrite <- !Z.pow_mul_r by lia.
  split.
  - apply Z.le_trans with (2 ^ Z.log2 s); [| exact Hlo].
    apply Z.pow_le_mono_r; lia.
  - apply Z.lt_le_trans with (2 ^ Z.succ (Z.log2 s)); [exact Hhi |].
    apply Z.pow_le_mono_r; lia.
Qed.

Lemma BN_num_bytes_mono (s t : Z) :
  0 < s -> s <= t -> BN_num_bytes s <= BN_num_bytes t.
Proof.
  intros Hs Hst. unfold BN_num_bytes.
  destruct (Z.leb_spec s 0); [lia |].
  destruct (Z.leb_spec t 0); [lia |].
  pose proof (Z.log2_le_mono s t Hst).
  pose proof (Z.div_le_mono (Z.log2 s) (Z.log2 t) 8 ltac:(lia) H1). lia.
Qed.

Lemma BN_bn2binpad_length (n : nat) (s : Z) :
  List.length (BN_bn2binpad n s) = n.
Proof. induction n; cbn; [reflexivity | rewrite IHn; reflexivity]. Qed.

(** On more bytes than the number needs, the encoding is the shorter
    one behind zero bytes. *)
Lemma BN_bn2binpad_zeros (k n : nat) (s : Z) :
  0 <= s < 256 ^ Z.of_nat k -> (k <= n)%nat ->
  BN_bn2binpad n s = repeat 0 (n - k) ++ BN_bn2binpad k s.
Proof.
  intros Hs Hkn. induction n as [| n IH].
  - assert (k = O) by lia. subst k. reflexivity.
  - destruct (Nat.eq_dec k (S n)) as [-> | Hne].
    + rewrite Nat.sub_diag. reflexivity.
    + assert (Hk : (k <= n)%nat) by lia.
      replace (S n - k)%nat with (S (n - k)) by lia.
      cbn [BN_bn2binpad repeat app]. rewrite <- (IH Hk). f_equal.
      assert (256 ^ Z.of_nat k <= 256 ^ Z.of_nat n)
        by (apply Z.pow_le_mono_r; lia).
      rewrite Z.div_small by lia. reflexivity.
Qed.

(** The stripped encoding of a positive number starts with a byte that
    is not zero. *)
Lemma BN_bn2bin_no_leading_zero (s : Z) :
  0 < s -> exists b rest, BN_bn2bin s = b :: rest /\ b <> 0.
Proof.
  intros Hs. destruct (BN_num_bytes_bounds s Hs) as [Hk [Hlo Hhi]].
  unfold BN_bn2bin.
  destruct (Z.to_nat (BN_num_bytes s)) as [| k] eqn:Hn; [lia |].
  assert (Hk' : Z.of_nat k = BN_num_bytes s - 1) by lia.
  cbn [BN_bn2binpad]. do 2 eexists. split; [reflexivity |].
  rewrite Hk'.
  assert (Hpos : 0 < 256 ^ (BN_num_bytes s - 1))
    by (apply Z.pow_pos_nonneg; lia).
  assert (Hpow : 256 ^ BN_num_bytes s = 256 * 256 ^ (BN_num_bytes s - 1)).
  { replace (BN_num_bytes s) with (Z.succ (BN_num_bytes s - 1)) at 1
      by lia.
    apply Z.pow_succ_r. lia. }
  assert (1 <= s / 256 ^ (BN_num_bytes s - 1)).
  { apply Z.div_le_lower_bound; lia. }
  assert (s / 256 ^ (BN_num_bytes s - 1) < 256).
  { apply Z.div_lt_upper_bound; lia. }
  rewrite Z.mod_small; lia.
Qed.

End Encoding.

Section Pad.
Import DHModel.

Lemma dh_set_params_pad (c : PROV_DH_CTX DH) (v : Z) :
  INT_MIN <= v <= INT_MAX ->
  dh_set_params DHModel.ops (Some c)
    (Some [mkParam "pad" OSSL_PARAM_INTEGER v])
  = (Some (mkDhCtx (dh c) (dhpeer c) v), 1).
Proof.
  intros [Hlo Hhi]. unfold dh_set_params.
  cbn [DHExch.OSSL_PARAM_locate_const DHExch.OSSL_PARAM_get_int
       DHModel.ops].
  unfold OSSL_EXCHANGE_PARAM_PAD.
  cbn [OSSL_PARAM_locate_const key]. rewrite String.eqb_refl.
  unfold OSSL_PARAM_get_int. cbn [data_type data].
  rewrite Z.eqb_refl.
  destruct (Z.leb_spec INT_MIN v); [| lia].
  destruct (Z.leb_spec v INT_MAX); [| lia]. reflexivity.
Qed.

Lemma shared_secret_range (pub : option Z) (d : DH) (s : Z) :
  shared_secret pub d = Some s -> 0 < p d /\ 0 <= s < p d.
Proof.
  unfold shared_secret.
  destruct (priv_key d) as [x |]; [| discriminate].
  destruct pub as [y |]; [| discriminate].
  destruct (Z.ltb_spec 0 (p d)); [| discriminate].
  destruct (0 <=? x); [| discriminate].
  cbn [andb]. intros H0. injection H0 as <-.
  split; [assumption |]. apply Z.mod_pos_bound. assumption.
Qed.

(** C8: the integer parameter "pad" set through [dh_set_params]
    decides the encoding [dh_derive] stores.  With a value that is not
    0 the output is the secret left-padded with zero bytes to the size
    of the modulus, and [*keylen] is that size.  With 0 the output is
    the secret with its leading zero bytes stripped, it starts with a
    byte that is not zero, and [*keylen], its length, is at most the
    size of the modulus. *)
Theorem dh_derive_pad (c : PROV_DH_CTX DH) (d peer : DH) (s v : Z)
    (buf : ptr) (keylen outlen : Z) :
  dh c = Some d ->
  dhpeer c = Some peer ->
  shared_secret (pub_key peer) d = Some s ->
  0 < s ->
  DH_size d < 2 ^ 64 ->
  DH_size d <= outlen ->
  INT_MIN <= v <= INT_MAX ->
  exists c',
    dh_set_params DHModel.ops (Some c)
      (Some [mkParam "pad" OSSL_PARAM_INTEGER v]) = (Some c', 1)
    /\ pad c' = v
    /\ (v <> 0 ->
        dh_derive DHModel.ops c' (Some buf) keylen outlen
        = (1, DH_size d,
           repeat 0 (Z.to_nat (DH_size d - BN_num_bytes s))
           ++ BN_bn2bin s))
    /\ (v = 0 ->
        dh_derive DHModel.ops c' (Some buf) keylen outlen
        = (1, BN_num_bytes s, BN_bn2bin s))
    /\ BN_num_bytes s <= DH_size d
    /\ Z.of_nat (List.length (BN_bn2bin s)) = BN_num_bytes s
    /\ (exists b rest, BN_bn2bin s = b :: rest /\ b <> 0).
Proof.
  intros Hd Hp Hsec Hs Hsize Hcap Hv.
  destruct (shared_secret_range _ _ _ Hsec) as [Hmod Hrange].
  destruct (BN_num_bytes_bounds s Hs) as [Hk [Hlo Hhi]].
  assert (Hle : BN_num_bytes s <= DH_size d)
    by (apply BN_num_bytes_mono; lia).
  exists (mkDhCtx (dh c) (dhpeer c) v).
  split; [apply dh_set_params_pad; exact Hv |].
  split; [reflexivity |].
  assert (Hlt : (outlen <? to_size_t (DH_size d)) = false).
  { apply Z.ltb_ge. unfold to_size_t. rewrite Z.mod_small; lia. }
  split; [| split; [| split; [exact Hle | split]]].
  - intros Hnz. unfold dh_derive. cbn [dh dhpeer pad]. rewrite Hd, Hp.
    cbn [DHExch.DH_size DHExch.DH_get0_key DHExch.DH_compute_key_padded
         DHExch.DH_compute_key DHModel.ops].
    rewrite Hlt.
    destruct (Z.eqb_spec v 0); [contradiction |]. cbn [negb].
    unfold DH_compute_key_padded. rewrite Hsec.
    destruct (Z.leb_spec (DH_size d) 0); [lia |].
    unfold to_size_t. rewrite Z.mod_small by lia.
    f_equal. unfold BN_bn2bin.
    rewrite (BN_bn2binpad_zeros (Z.to_nat (BN_num_bytes s))
               (Z.to_nat (DH_size d)) s).
    + rewrite <- Z2Nat.inj_sub by lia. reflexivity.
    + rewrite Z2Nat.id by lia. lia.
    + lia.
  - intros ->. unfold dh_derive. cbn [dh dhpeer pad]. rewrite Hd, Hp.
    cbn [DHExch.DH_size DHExch.DH_get0_key DHExch.DH_compute_key_padded
         DHExch.DH_compute_key DHModel.ops].
    rewrite Hlt. cbn [Z.eqb negb].
    unfold DH_compute_key. rewrite Hsec.
    destruct (Z.leb_spec (BN_num_bytes s) 0); [lia |].
    unfold to_size_t. rewrite Z.mod_small by lia. reflexivity.
  - unfold BN_bn2bin. rewrite BN_bn2binpad_length. lia.
  - apply BN_bn2bin_no_leading_zero. exact Hs.
Qed.

(** With the modulus 65537 and the secret 9: three bytes starting
    with zero when padded, one byte when not. *)
Lemma dh_derive_pad_witness :
  shared_secret (pub_key peer_key) local_key = Some 9
  /\ dh_derive DHModel.ops (mkDhCtx (Some local_key) (Some peer_key) 1)
       (Some 0x5000) 0 3 = (1, 3, [0; 0; 9])
  /\ dh_derive DHModel.ops (mkDhCtx (Some local_key) (Some peer_key) 0)
       (Some 0x5000) 0 3 = (1, 1, [9]).
Proof.
  split; [reflexivity |].
  assert (Hs : 0 < 9) by lia.
  assert (Hsz : DH_size local_key < 2 ^ 64) by (vm_compute; reflexivity).
  assert (Hcap : DH_size local_key <= 3) by (vm_compute; discriminate).
  assert (Hv1 : INT_MIN <= 1 <= INT_MAX)
    by (split; vm_compute; discriminate).
  assert (Hv0 : INT_MIN <= 0 <= INT_MAX)
    by (split; vm_compute; discriminate).
  split.
  - destruct (dh_derive_pad (mkDhCtx (Some local_key) (Some peer_key) 0)
                local_key peer_key 9 1 0x5000 0 3
                eq_refl eq_refl eq_refl Hs Hsz Hcap Hv1)
      as (c' & Hset & _ & Hpad & _).
    rewrite dh_set_params_pad in Hset by exact Hv1.
    injection Hset as <-. apply Hpad. discriminate.
  - destruct (dh_derive_pad (mkDhCtx (Some local_key) (Some peer_key) 1)
                local_key peer_key 9 0 0x5000 0 3
                eq_refl eq_refl eq_refl Hs Hsz Hcap Hv0)
      as (c' & Hset & _ & _ & Hnopad & _).
    rewrite dh_set_params_pad in Hset by exact Hv0.
    injection Hset as <-. apply Hnopad. reflexivity.
Defined.

Lemma dh_derive_contract_witness :
  dh_derive DHModel.ops (mkDhCtx None (Some peer_key) 0) (Some 0x5000) 7 3
  = (0, 7, [])
  /\ exists c1 c2,
       dh_init dh_newctx (Some local_key) = Returns (c1, 1)
       /\ dh_set_peer c1 (Some peer_key) = Returns (c2, 1)
       /\ dh_derive DHModel.ops c2 None 7 0
          = (1, to_size_t (DHExch.DH_size DHModel.ops local_key), []).
Proof.
  destruct (dh_derive_contract DHModel.ops
              (mkDhCtx None (Some peer_key) 0) (Some 0x5000) 7 3)
    as (Hnone & _ & _).
  split; [apply Hnone; left; reflexivity |].
  destruct (dh_derive_contract DHModel.ops dh_newctx None 7 0)
    as (_ & _ & Hinit).
  destruct (Hinit local_key peer_key) as (c1 & c2 & H1 & H2 & H3 & _).
  exists c1, c2. split; [exact H1 |]. split; [exact H2 | exact H3].
Defined.

(** C2 as stated fails where the computation fails: with both keys set
    and room for the whole modulus, [dh_derive] returns failure and
    leaves [*keylen] alone when the local key has no private value.
    And with a null output pointer the size stored is 0, not positive,
    for a local key whose modulus is 0. *)
Lemma dh_derive_computation_fails :
  dh_init dh_newctx (Some public_only_key)
  = Returns (mkDhCtx (Some public_only_key) None 0, 1)
  /\ dh_set_peer (mkDhCtx (Some public_only_key) None 0) (Some peer_key)
     = Returns (mkDhCtx (Some public_only_key) (Some peer_key) 0, 1)
  /\ dh_derive DHModel.ops
       (mkDhCtx (Some public_only_key) (Some peer_key) 0) (Some 0x5000) 7 3
     = (0, 7, [])
  /\ DHExch.DH_size DHModel.ops public_only_key = 3
  /\ dh_init dh_newctx (Some empty_key)
     = Returns (mkDhCtx (Some empty_key) None 0, 1)
  /\ dh_set_peer (mkDhCtx (Some empty_key) None 0) (Some peer_key)
     = Returns (mkDhCtx (Some empty_key) (Some peer_key) 0, 1)
  /\ dh_derive DHModel.ops
       (mkDhCtx (Some empty_key) (Some peer_key) 0) None 7 0
     = (1, 0, []).
Proof. repeat split; reflexivity. Qed.

End Pad.

End DHFacts.

(** ** More on method identities *)

Module MethodIdMore.
Import MethodId.

(** [method_id] is 0 exactly when one of its assertions fails: an
    identity is 0, or both identities are beyond their widths. *)
Theorem method_id_zero_iff (operation_id name_id : Z) :
  0 <= operation_id < 2 ^ 32 ->
  0 <= name_id < 2 ^ 32 ->
  (method_id operation_id name_id = 0
   <-> name_id = 0 \/ operation_id = 0
       \/ (2 ^ 24 <= name_id /\ 2 ^ 8 <= operation_id)).
Proof.
  intros Ho Hn. unfold method_id.
  change (Z.shiftl 1 24) with (2 ^ 24). change (Z.shiftl 1 8) with (2 ^ 8).
  destruct (Z.ltb_spec name_id (2 ^ 24)) as [Hn24 | Hn24];
    destruct (Z.ltb_spec operation_id (2 ^ 8)) as [Ho8 | Ho8];
    destruct (Z.ltb_spec 0 name_id) as [Hn0 | Hn0];
    destruct (Z.ltb_spec 0 operation_id) as [Ho0 | Ho0];
    cbn [orb andb negb];
    try (split; [intros _ | reflexivity]; lia).
  - (* both within their widths *)
    rewrite MethodIdFacts.name_part_masked by lia.
    split; [| lia]. intros H. apply Z.lor_eq_0_iff in H.
    destruct H as [H _]. rewrite Z.shiftl_mul_pow2 in H by lia. lia.
  - (* the name within its width, the operation beyond *)
    rewrite MethodIdFacts.name_part_masked by lia.
    split; [| lia]. intros H. apply Z.lor_eq_0_iff in H.
    destruct H as [H _]. rewrite Z.shiftl_mul_pow2 in H by lia. lia.
  - (* the operation within its width, the name beyond *)
    rewrite MethodIdFacts.op_part_masked by lia.
    split; [| lia]. intros H. apply Z.lor_eq_0_iff in H. lia.
Qed.

Lemma method_id_zero_iff_witness :
  method_id 1 7 = 0
  <-> 7 = 0 \/ 1 = 0 \/ (2 ^ 24 <= 7 /\ 2 ^ 8 <= 1).
Proof. apply (method_id_zero_iff 1 7); lia. Defined.

(** Within the widths the two identities are read back from the method
    identity: the name by a shift, the operation by a mask. *)
Theorem method_id_decode (operation_id name_id : Z) :
  in_width operation_id name_id ->
  Z.shiftr (method_id operation_id name_id) 8 = name_id
  /\ Z.land (method_id operation_id name_id) 0xFF = operation_id.
Proof.
  intros Hw. pose proof Hw as [Hn Ho].
  rewrite (MethodIdFacts.method_id_packed _ _ Hw). split.
  - rewrite Z.shiftr_div_pow2 by lia. change (2 ^ 8) with 256.
    rewrite Z.div_add_l by lia. rewrite Z.div_small by lia. lia.
  - change 0xFF with (Z.ones 8). rewrite Z.land_ones by lia.
    change (2 ^ 8) with 256.
    rewrite Z.add_comm, Z.mod_add by lia. apply Z.mod_small. lia.
Qed.

Lemma method_id_decode_witness :
  Z.shiftr (method_id 11 3) 8 = 3 /\ Z.land (method_id 11 3) 0xFF = 11.
Proof. apply (method_id_decode 11 3). unfold in_width. lia. Defined.

Lemma method_id_name_cut (operation_id name_id k : Z) :
  in_width operation_id name_id ->
  0 <= k ->
  name_id + k * 2 ^ 24 < 2 ^ 32 ->
  method_id operation_id (name_id + k * 2 ^ 24)
  = method_id operation_id name_id.
Proof.
  intros Hw Hk Hlt. pose proof Hw as [Hn Ho].
  rewrite (MethodIdFacts.method_id_packed _ _ Hw). unfold method_id.
  change (Z.shiftl 1 24) with (2 ^ 24). change (Z.shiftl 1 8) with (2 ^ 8).
  replace (operation_id <? 2 ^ 8) with true
    by (symmetry; apply Z.ltb_lt; lia).
  replace (0 <? name_id + k * 2 ^ 24) with true
    by (symmetry; apply Z.ltb_lt; lia).
  replace (0 <? operation_id) with true
    by (symmetry; apply Z.ltb_lt; lia).
  rewrite orb_true_r. cbn [orb andb negb].
  rewrite MethodIdFacts.op_part_masked by lia.
  assert (Hcut : to_uint (Z.shiftl (name_id + k * 2 ^ 24) 8)
                 = Z.shiftl name_id 8).
  { unfold to_uint. rewrite !Z.shiftl_mul_pow2 by lia.
    replace ((name_id + k * 2 ^ 24) * 2 ^ 8)
      with (name_id * 2 ^ 8 + k * 2 ^ 32) by lia.
    rewrite Z.mod_add by lia. apply Z.mod_small. lia. }
  rewrite Hcut.
  change 0xFFFFFF00 with (Z.shiftl (Z.ones 24) 8).
  rewrite <- Z.shiftl_land, Z.land_ones by lia.
  rewrite (Z.mod_small name_id) by lia.
  apply MethodIdFacts.lor_parts; lia.
Qed.

Lemma method_id_operation_cut (operation_id name_id k : Z) :
  in_width operation_id name_id ->
  0 <= k ->
  operation_id + k * 2 ^ 8 < 2 ^ 32 ->
  method_id (operation_id + k * 2 ^ 8) name_id
  = method_id operation_id name_id.
Proof.
  intros Hw Hk Hlt. pose proof Hw as [Hn Ho].
  rewrite (MethodIdFacts.method_id_packed _ _ Hw). unfold method_id.
  change (Z.shiftl 1 24) with (2 ^ 24). change (Z.shiftl 1 8) with (2 ^ 8).
  replace (name_id <? 2 ^ 24) with true
    by (symmetry; apply Z.ltb_lt; lia).
  replace (0 <? name_id) with true by (symmetry; apply Z.ltb_lt; lia).
  replace (0 <? operation_id + k * 2 ^ 8) with true
    by (symmetry; apply Z.ltb_lt; lia).
  cbn [orb andb negb].
  rewrite MethodIdFacts.name_part_masked by lia.
  assert (Hcut : Z.land (operation_id + k * 2 ^ 8) 0xFF = operation_id).
  { change 0xFF with (Z.ones 8). rewrite Z.land_ones by lia.
    rewrite Z.mod_add by lia. apply Z.mod_small. lia. }
  rewrite Hcut. apply MethodIdFacts.lor_parts; lia.
Qed.

(** When only one identity is beyond its width the method identity is
    formed all the same, from the identity cut to its width: it is the
    method identity of another pair. *)
Theorem method_id_cut_to_width (operation_id name_id k : Z) :
  in_width operation_id name_id ->
  0 <= k ->
  (name_id + k * 2 ^ 24 < 2 ^ 32 ->
   method_id operation_id (name_id + k * 2 ^ 24)
   = method_id operation_id name_id)
  /\ (operation_id + k * 2 ^ 8 < 2 ^ 32 ->
      method_id (operation_id + k * 2 ^ 8) name_id
      = method_id operation_id name_id).
Proof.
  intros Hw Hk. split; intros Hlt.
  - apply method_id_name_cut; assumption.
  - apply method_id_operation_cut; assumption.
Qed.

Lemma method_id_cut_to_width_witness :
  method_id 1 (7 + 1 * 2 ^ 24) = method_id 1 7
  /\ method_id (1 + 1 * 2 ^ 8) 7 = method_id 1 7.
Proof.
  assert (Hw : in_width 1 7) by (unfold in_width; lia).
  destruct (method_id_cut_to_width 1 7 1 Hw ltac:(lia)) as [Hn Ho].
  split; [apply Hn | apply Ho]; lia.
Defined.

End MethodIdMore.

(** ** More on the generic fetch *)

Module FetchMore.
Import MethodId Fetch.

Section Facts.
Context {W : Type} (ops : lib_ops W).

(** The query cache is asked with the method identity, which keeps only
    the low 8 bits of the operation: a fetch for an operation beyond 2^8
    is answered from the cache entry of the operation with the same low
    bits, when the name is cached for that one. *)
Theorem evp_generic_fetch_operation_cut (w : W) (libctx : option ptr)
    (op k : Z) (n q : string) (new_method : new_method_fn W)
    (up : up_ref_method_fn W) (free_method : free_method_fn W)
    (store nm m : ptr) :
  get_default_method_store ops w libctx = Some store ->
  ossl_namemap_stored ops w libctx = Some nm ->
  0 < op < 2 ^ 8 ->
  0 <= k ->
  op + k * 2 ^ 8 < 2 ^ 31 ->
  0 < ossl_namemap_name2num ops w nm n < 2 ^ 24 ->
  ossl_method_store_cache_get ops w store
    (method_id op (ossl_namemap_name2num ops w nm n)) q = Some m ->
  evp_generic_fetch ops w libctx (op + k * 2 ^ 8) n q
    new_method up free_method
  = (fst (up w m), Some m).
Proof.
  intros Hs Hnm Hop Hk Hint Hname Hg.
  assert (Hw : in_width op (ossl_namemap_name2num ops w nm n))
    by (unfold in_width; lia).
  assert (Hid : method_id (to_uint (op + k * 2 ^ 8))
                  (to_uint (ossl_namemap_name2num ops w nm n))
                = method_id op (ossl_namemap_name2num ops w nm n)).
  { rewrite !MethodIdFacts.to_uint_small by lia.
    apply MethodIdMore.method_id_operation_cut; [exact Hw | exact Hk | lia]. }
  apply (FetchFacts.evp_generic_fetch_hit ops) with (store := store)
                                                    (nm := nm);
    try assumption; try lia.
  - rewrite Hid, (MethodIdFacts.method_id_packed _ _ Hw). lia.
  - rewrite Hid. exact Hg.
Qed.

End Facts.

(** In the small library the fetch of SHA256 for the operation 257 is
    answered with the digest cached for the operation 1. *)
Lemma evp_generic_fetch_operation_cut_witness :
  evp_generic_fetch SmallLib.ops SmallLib.w1 None (1 + 1 * 2 ^ 8) "SHA256"
    SmallLib.empty_query SmallLib.no_new_method SmallLib.up_ref
    SmallLib.free_ref
  = (fst (SmallLib.up_ref SmallLib.w1 4096), Some 4096).
Proof.
  apply (evp_generic_fetch_operation_cut SmallLib.ops SmallLib.w1 None 1 1
           "SHA256"%string SmallLib.empty_query SmallLib.no_new_method
           SmallLib.up_ref SmallLib.free_ref 100 200 4096);
    try reflexivity; try lia; cbn; lia.
Defined.

End FetchMore.

(** ** More on the digest adapter *)

Module DispatchMore.
Import Digest DispatchSlots.

Ltac split_id_chain :=
  repeat (match goal with
          | |- context [if ?a =? ?b then _ else _] =>
            destruct (Z.eqb_spec a b)
          | H : context [if ?a =? ?b then _ else _] |- _ =>
            destruct (Z.eqb_spec a b)
          end; cbv iota in *).

Ltac split_slot_matches :=
  repeat match goal with
         | |- context [match ?o with Some _ => _ | None => _ end] =>
           destruct o
         end.

Ltac known_ids :=
  unfold OSSL_FUNC_DIGEST_NEWCTX, OSSL_FUNC_DIGEST_INIT,
    OSSL_FUNC_DIGEST_UPDATE, OSSL_FUNC_DIGEST_FINAL,
    OSSL_FUNC_DIGEST_DIGEST, OSSL_FUNC_DIGEST_FREECTX,
    OSSL_FUNC_DIGEST_DUPCTX, OSSL_FUNC_DIGEST_SIZE,
    OSSL_FUNC_DIGEST_BLOCK_SIZE, OSSL_FUNC_DIGEST_SET_PARAMS,
    OSSL_FUNC_DIGEST_GET_PARAMS in *.

(** A filled slot is not written again. *)
Lemma dispatch_step_keeps (st : EVP_MD * Z) (e : OSSL_DISPATCH) (id : Z)
    (f : fnptr) :
  slot id (fst st) = Some f -> slot id (fst (dispatch_step st e)) = Some f.
Proof.
  destruct st as [md c]. destruct md. destruct e as [eid ef].
  unfold slot, dispatch_step. known_ids.
  cbn [fst snd function function_id MD.newctx MD.dinit MD.dupdate MD.dfinal
       MD.digest MD.freectx MD.dupctx MD.size MD.dblock_size MD.set_params
       MD.get_params].
  intros H.
  destruct (Z.eqb_spec eid 1); [destruct newctx; cbn; split_id_chain;
                                 congruence |].
  destruct (Z.eqb_spec eid 2); [destruct dinit; cbn; split_id_chain;
                                 congruence |].
  destruct (Z.eqb_spec eid 3); [destruct dupdate; cbn; split_id_chain;
                                 congruence |].
  destruct (Z.eqb_spec eid 4); [destruct dfinal; cbn; split_id_chain;
                                 congruence |].
  destruct (Z.eqb_spec eid 5); [destruct digest; cbn; split_id_chain;
                                 congruence |].
  destruct (Z.eqb_spec eid 6); [destruct freectx; cbn; split_id_chain;
                                 congruence |].
  destruct (Z.eqb_spec eid 7); [destruct dupctx; cbn; split_id_chain;
                                 congruence |].
  destruct (Z.eqb_spec eid 8); [destruct size; cbn; split_id_chain;
                                 congruence |].
  destruct (Z.eqb_spec eid 9); [destruct dblock_size; cbn; split_id_chain;
                                 congruence |].
  destruct (Z.eqb_spec eid 10); [destruct set_params; cbn; split_id_chain;
                                  congruence |].
  destruct (Z.eqb_spec eid 11); [destruct get_params; cbn; split_id_chain;
                                  congruence |].
  exact H.
Qed.

(** An entry writes its function pointer into its slot when the slot is
    empty. *)
Lemma dispatch_step_fills (st : EVP_MD * Z) (e : OSSL_DISPATCH) :
  1 <= function_id e <= 11 ->
  slot (function_id e) (fst st) = None ->
  slot (function_id e) (fst (dispatch_step st e)) = function e.
Proof.
  destruct st as [md c]. destruct md. destruct e as [eid ef].
  unfold slot, dispatch_step. known_ids.
  cbn [fst snd function function_id MD.newctx MD.dinit MD.dupdate MD.dfinal
       MD.digest MD.freectx MD.dupctx MD.size MD.dblock_size MD.set_params
       MD.get_params].
  intros Hid H.
  destruct (Z.eqb_spec eid 1); [subst; cbn; reflexivity |].
  destruct (Z.eqb_spec eid 2); [subst; cbn; reflexivity |].
  destruct (Z.eqb_spec eid 3); [subst; cbn; reflexivity |].
  destruct (Z.eqb_spec eid 4); [subst; cbn; reflexivity |].
  destruct (Z.eqb_spec eid 5); [subst; cbn; reflexivity |].
  destruct (Z.eqb_spec eid 6); [subst; cbn; reflexivity |].
  destruct (Z.eqb_spec eid 7); [subst; cbn; reflexivity |].
  destruct (Z.eqb_spec eid 8); [subst; cbn; reflexivity |].
  destruct (Z.eqb_spec eid 9); [subst; cbn; reflexivity |].
  destruct (Z.eqb_spec eid 10); [subst; cbn; reflexivity |].
  destruct (Z.eqb_spec eid 11); [subst; cbn; reflexivity |].
  lia.
Qed.

(** An entry leaves the slots of the other identities alone. *)
Lemma dispatch_step_other (st : EVP_MD * Z) (e : OSSL_DISPATCH) (id : Z) :
  function_id e <> id ->
  slot id (fst (dispatch_step st e)) = slot id (fst st).
Proof.
  destruct st as [md c]. destruct md. destruct e as [eid ef].
  unfold slot, dispatch_step. known_ids.
  cbn [fst snd function function_id MD.newctx MD.dinit MD.dupdate MD.dfinal
       MD.digest MD.freectx MD.dupctx MD.size MD.dblock_size MD.set_params
       MD.get_params].
  intros H.
  destruct (Z.eqb_spec eid 1); [destruct newctx; cbn; split_id_chain;
                                 congruence |].
  destruct (Z.eqb_spec eid 2); [destruct dinit; cbn; split_id_chain;
                                 congruence |].
  destruct (Z.eqb_spec eid 3); [destruct dupdate; cbn; split_id_chain;
                                 congruence |].
  destruct (Z.eqb_spec eid 4); [destruct dfinal; cbn; split_id_chain;
                                 congruence |].
  destruct (Z.eqb_spec eid 5); [destruct digest; cbn; split_id_chain;
                                 congruence |].
  destruct (Z.eqb_spec eid 6); [destruct freectx; cbn; split_id_chain;
                                 congruence |].
  destruct (Z.eqb_spec eid 7); [destruct dupctx; cbn; split_id_chain;
                                 congruence |].
  destruct (Z.eqb_spec eid 8); [destruct size; cbn; split_id_chain;
                                 congruence |].
  destruct (Z.eqb_spec eid 9); [destruct dblock_size; cbn; split_id_chain;
                                 congruence |].
  destruct (Z.eqb_spec eid 10); [destruct set_params; cbn; split_id_chain;
                                  congruence |].
  destruct (Z.eqb_spec eid 11); [destruct get_params; cbn; split_id_chain;
                                  congruence |].
  reflexivity.
Qed.

(** An entry with an identity the digest operation does not know changes
    nothing. *)
Lemma dispatch_step_unknown (st : EVP_MD * Z) (e : OSSL_DISPATCH) :
  ~ 1 <= function_id e <= 11 -> dispatch_step st e = st.
Proof.
  destruct st as [md c]. destruct e as [eid ef].
  unfold dispatch_step. known_ids. cbn [function_id].
  intros H. split_id_chain; try lia. reflexivity.
Qed.

(** The name, the type and the provider are not touched by the loop. *)
Lemma dispatch_step_fields (st : EVP_MD * Z) (e : OSSL_DISPATCH) :
  MD.name (fst (dispatch_step st e)) = MD.name (fst st)
  /\ MD.type (fst (dispatch_step st e)) = MD.type (fst st)
  /\ MD.prov (fst (dispatch_step st e)) = MD.prov (fst st).
Proof.
  destruct st as [md c]. destruct md. destruct e as [eid ef].
  unfold dispatch_step.
  cbn [fst snd function function_id MD.newctx MD.dinit MD.dupdate MD.dfinal
       MD.digest MD.freectx MD.dupctx MD.size MD.dblock_size MD.set_params
       MD.get_params].
  DispatchFacts.split_ids; split_slot_matches; cbn; repeat split.
Qed.

Lemma dispatch_loop_fields (fns : list OSSL_DISPATCH) :
  forall st,
    MD.name (fst (dispatch_loop fns st)) = MD.name (fst st)
    /\ MD.type (fst (dispatch_loop fns st)) = MD.type (fst st)
    /\ MD.prov (fst (dispatch_loop fns st)) = MD.prov (fst st).
Proof.
  induction fns as [| e rest IH]; intros st; cbn [dispatch_loop].
  - repeat split.
  - destruct (function_id e =? 0); [repeat split |].
    destruct (IH (dispatch_step st e)) as (Hn & Ht & Hp).
    destruct (dispatch_step_fields st e) as (Hn' & Ht' & Hp').
    rewrite Hn, Ht, Hp. repeat split; assumption.
Qed.

Lemma dispatch_loop_keeps (fns : list OSSL_DISPATCH) (id : Z) (f : fnptr) :
  forall st,
    slot id (fst st) = Some f ->
    slot id (fst (dispatch_loop fns st)) = Some f.
Proof.
  induction fns as [| e rest IH]; intros st H; cbn [dispatch_loop].
  - exact H.
  - destruct (function_id e =? 0); [exact H |].
    apply IH. apply dispatch_step_keeps. exact H.
Qed.

(** The loop reads the table up to its terminator. *)
Lemma dispatch_loop_live (fns : list OSSL_DISPATCH) :
  forall st, dispatch_loop fns st = dispatch_loop (live fns) st.
Proof.
  induction fns as [| e rest IH]; intros st; cbn [dispatch_loop live].
  - reflexivity.
  - destruct (function_id e =? 0) eqn:He; [reflexivity |].
    cbn [dispatch_loop]. rewrite He. apply IH.
Qed.

(** A live entry with a function pointer leaves its slot filled. *)
Lemma dispatch_loop_fills (fns : list OSSL_DISPATCH) (e : OSSL_DISPATCH) :
  In e (live fns) ->
  1 <= function_id e <= 11 ->
  function e <> None ->
  forall st, slot (function_id e) (fst (dispatch_loop fns st)) <> None.
Proof.
  induction fns as [| x rest IH]; cbn [live]; intros Hin Hid Hf st.
  - contradiction.
  - cbn [dispatch_loop]. destruct (function_id x =? 0); [contradiction |].
    destruct Hin as [-> | Hin].
    + destruct (slot (function_id e) (fst st)) as [g |] eqn:Hs.
      * rewrite (dispatch_loop_keeps rest _ g).
        -- discriminate.
        -- apply dispatch_step_keeps. exact Hs.
      * destruct (function e) as [f |] eqn:Hfe; [| contradiction].
        rewrite (dispatch_loop_keeps rest _ f).
        -- discriminate.
        -- rewrite dispatch_step_fills by assumption. exact Hfe.
    + apply IH; assumption.
Qed.

Lemma slot_set_prov (id : Z) (md : EVP_MD) (p : option ptr) :
  slot id (MD.set_prov md p) = slot id md.
Proof. destruct md. reflexivity. Qed.

Lemma slot_fresh (id : Z) (n : option string) :
  slot id (MD.set_name (EVP_MD_meth_new NID_undef NID_undef) n) = None.
Proof. unfold slot. cbn. split_id_chain; reflexivity. Qed.

(** What a record that the adapter returns is made of. *)
Lemma evp_md_from_dispatch_some (a b : bool) (w w' : world) (name : string)
    (fns : list OSSL_DISPATCH) (prov : option ptr) (md : EVP_MD) :
  evp_md_from_dispatch a b w name fns prov = (w', Some md) ->
  a = true /\ b = true
  /\ md = MD.set_prov
            (fst (dispatch_loop fns
                    (MD.set_name (EVP_MD_meth_new NID_undef NID_undef)
                       (Some name), 0))) prov
  /\ w' = w ++ [Ev_meth_new; Ev_strdup]
            ++ match prov with
               | Some p => [Ev_provider_up_ref p]
               | None => []
               end.
Proof.
  unfold evp_md_from_dispatch.
  destruct a; cbn [negb]; [| discriminate].
  destruct b; cbn [negb]; [| discriminate].
  destruct (dispatch_loop fns _) as [md1 fncnt]. cbn [fst].
  destruct (_ || _ || _); [discriminate |].
  destruct prov; intros H; injection H as <- <-;
    rewrite <- ?app_assoc, ?app_nil_r; repeat split; reflexivity.
Qed.

(** The first entry of a table for a function identity decides the
    slot: when the adapter returns a record, the slot holds the function
    pointer of that entry, whatever the table has after it. *)
Theorem evp_md_from_dispatch_first_entry (a b : bool) (w w' : world)
    (name : string) (l1 l2 : list OSSL_DISPATCH) (e : OSSL_DISPATCH)
    (prov : option ptr) (md : EVP_MD) (f : fnptr) :
  (forall x, In x l1 ->
     function_id x <> 0 /\ function_id x <> function_id e) ->
  1 <= function_id e <= 11 ->
  function e = Some f ->
  evp_md_from_dispatch a b w name (l1 ++ e :: l2) prov = (w', Some md) ->
  slot (function_id e) md = Some f.
Proof.
  intros Hl1 Hid Hf Hev.
  destruct (evp_md_from_dispatch_some _ _ _ _ _ _ _ _ Hev)
    as (_ & _ & -> & _).
  rewrite slot_set_prov.
  set (st0 := (MD.set_name (EVP_MD_meth_new NID_undef NID_undef)
                 (Some name), 0)).
  assert (H0 : slot (function_id e) (fst st0) = None) by apply slot_fresh.
  clearbody st0. clear Hev. revert st0 H0.
  induction l1 as [| x l1 IH]; intros st0 H0; cbn [app dispatch_loop].
  - destruct (Z.eqb_spec (function_id e) 0); [lia |].
    apply dispatch_loop_keeps.
    rewrite dispatch_step_fills by assumption. exact Hf.
  - destruct (Hl1 x (or_introl eq_refl)) as [Hx0 Hxe].
    destruct (Z.eqb_spec (function_id x) 0); [contradiction |].
    apply IH.
    + intros y Hy. apply Hl1. right. exact Hy.
    + rewrite dispatch_step_other by exact Hxe. exact H0.
Qed.

Lemma evp_md_from_dispatch_first_entry_witness :
  slot OSSL_FUNC_DIGEST_FINAL sha256_md = Some 0x1030.
Proof.
  apply (evp_md_from_dispatch_first_entry true true [] 
           [Ev_meth_new; Ev_strdup; Ev_provider_up_ref 7] "SHA256"
           [ mkDispatch OSSL_FUNC_DIGEST_NEWCTX (Some 0x1000);
             mkDispatch OSSL_FUNC_DIGEST_INIT (Some 0x1010);
             mkDispatch OSSL_FUNC_DIGEST_UPDATE (Some 0x1020) ]
           [ mkDispatch OSSL_FUNC_DIGEST_FREECTX (Some 0x1040);
             mkDispatch OSSL_FUNC_DIGEST_SIZE (Some 0x1050);
             mkDispatch 0 None ]
           (mkDispatch OSSL_FUNC_DIGEST_FINAL (Some 0x1030))
           (Some 7) sha256_md 0x1030).
  - intros x [<- | [<- | [<- | []]]]; split; discriminate.
  - cbn [function_id]. unfold OSSL_FUNC_DIGEST_FINAL. lia.
  - reflexivity.
  - reflexivity.
Defined.

(** What comes after the terminator of a table is not read. *)
Theorem evp_md_from_dispatch_terminator (a b : bool) (w : world)
    (name : string) (l1 l2 : list OSSL_DISPATCH) (t : OSSL_DISPATCH)
    (prov : option ptr) :
  function_id t = 0 ->
  evp_md_from_dispatch a b w name (l1 ++ t :: l2) prov
  = evp_md_from_dispatch a b w name (l1 ++ [t]) prov.
Proof.
  intros Ht. unfold evp_md_from_dispatch.
  assert (Hlive : live (l1 ++ t :: l2) = live (l1 ++ [t])).
  { induction l1 as [| x l1 IH]; cbn [app live].
    - rewrite Ht. reflexivity.
    - rewrite IH. reflexivity. }
  rewrite (dispatch_loop_live (l1 ++ t :: l2)),
          (dispatch_loop_live (l1 ++ [t])), Hlive.
  reflexivity.
Qed.

Lemma evp_md_from_dispatch_terminator_witness :
  evp_md_from_dispatch true true [] "SHA256"
    ([mkDispatch OSSL_FUNC_DIGEST_DIGEST (Some 0x1060);
      mkDispatch OSSL_FUNC_DIGEST_SIZE (Some 0x1050)]
     ++ mkDispatch 0 None :: [mkDispatch OSSL_FUNC_DIGEST_NEWCTX (Some 1)])
    (Some 7)
  = evp_md_from_dispatch true true [] "SHA256" oneshot_functions (Some 7).
Proof.
  apply (evp_md_from_dispatch_terminator true true [] "SHA256"
           [mkDispatch OSSL_FUNC_DIGEST_DIGEST (Some 0x1060);
            mkDispatch OSSL_FUNC_DIGEST_SIZE (Some 0x1050)]
           [mkDispatch OSSL_FUNC_DIGEST_NEWCTX (Some 1)]
           (mkDispatch 0 None) (Some 7)).
  reflexivity.
Defined.

(** Entries with a function identity that the digest operation does not
    know are passed over: the adapter gives the same result with and
    without them. *)
Theorem evp_md_from_dispatch_unknown_id (a b : bool) (w : world)
    (name : string) (l1 l2 : list OSSL_DISPATCH) (e : OSSL_DISPATCH)
    (prov : option ptr) :
  ~ 0 <= function_id e <= 11 ->
  evp_md_from_dispatch a b w name (l1 ++ e :: l2) prov
  = evp_md_from_dispatch a b w name (l1 ++ l2) prov.
Proof.
  intros He. unfold evp_md_from_dispatch.
  assert (Hloop : forall st,
             dispatch_loop (l1 ++ e :: l2) st = dispatch_loop (l1 ++ l2) st).
  { induction l1 as [| x l1 IH]; intros st; cbn [app dispatch_loop].
    - destruct (Z.eqb_spec (function_id e) 0); [lia |].
      rewrite dispatch_step_unknown by lia. reflexivity.
    - destruct (function_id x =? 0); [reflexivity | apply IH]. }
  rewrite Hloop. reflexivity.
Qed.

Lemma evp_md_from_dispatch_unknown_id_witness :
  evp_md_from_dispatch true true [] "SHA256"
    ([mkDispatch OSSL_FUNC_DIGEST_DIGEST (Some 0x1060)]
     ++ mkDispatch 12 (Some 0x1070)
        :: [mkDispatch OSSL_FUNC_DIGEST_SIZE (Some 0x1050);
            mkDispatch 0 None]) (Some 7)
  = evp_md_from_dispatch true true [] "SHA256" oneshot_functions (Some 7).
Proof.
  apply (evp_md_from_dispatch_unknown_id true true [] "SHA256"
           [mkDispatch OSSL_FUNC_DIGEST_DIGEST (Some 0x1060)]
           [mkDispatch OSSL_FUNC_DIGEST_SIZE (Some 0x1050);
            mkDispatch 0 None]
           (mkDispatch 12 (Some 0x1070)) (Some 7)).
  cbn [function_id]. lia.
Defined.

(** A record the adapter returns carries the name it was given and the
    provider it was given, has no legacy type yet, and the provider's
    reference count has been raised when there is a provider. *)
Theorem evp_md_from_dispatch_binds (a b : bool) (w w' : world)
    (name : string) (fns : list OSSL_DISPATCH) (prov : option ptr)
    (md : EVP_MD) :
  evp_md_from_dispatch a b w name fns prov = (w', Some md) ->
  MD.name md = Some name
  /\ MD.prov md = prov
  /\ MD.type md = NID_undef
  /\ w' = w ++ [Ev_meth_new; Ev_strdup]
            ++ match prov with
               | Some p => [Ev_provider_up_ref p]
               | None => []
               end.
Proof.
  intros Hev.
  destruct (evp_md_from_dispatch_some _ _ _ _ _ _ _ _ Hev)
    as (_ & _ & -> & ->).
  destruct (dispatch_loop_fields fns
              (MD.set_name (EVP_MD_meth_new NID_undef NID_undef)
                 (Some name), 0)) as (Hn & Ht & _).
  destruct (fst (dispatch_loop fns _)) eqn:Hloop.
  cbn in Hn, Ht |- *. subst. repeat split; reflexivity.
Qed.

Lemma evp_md_from_dispatch_binds_witness :
  MD.name sha256_md = Some "SHA256"%string
  /\ MD.prov sha256_md = Some 7.
Proof.
  destruct (evp_md_from_dispatch_binds true true []
              [Ev_meth_new; Ev_strdup; Ev_provider_up_ref 7] "SHA256"
              sha256_functions (Some 7) sha256_md eq_refl)
    as (Hn & Hp & _).
  split; assumption.
Defined.

(** A slot that the loop leaves filled was supplied by the table. *)
Lemma dispatch_loop_supplied (fns : list OSSL_DISPATCH) (id : Z) :
  forall st,
    slot id (fst st) = None ->
    slot id (fst (dispatch_loop fns st)) <> None ->
    supplies fns id.
Proof.
  induction fns as [| e rest IH]; intros st H0 H1; cbn [dispatch_loop] in H1.
  - contradiction.
  - destruct (function_id e =? 0) eqn:He; [contradiction |].
    destruct (Z.eq_dec (function_id e) id) as [Heq | Hne].
    + exists e. split; [| exact Heq]. cbn [live]. rewrite He.
      left. reflexivity.
    + destruct (IH (dispatch_step st e)) as (x & Hin & Hx).
      * rewrite dispatch_step_other by exact Hne. exact H0.
      * exact H1.
      * exists x. split; [| exact Hx]. cbn [live]. rewrite He.
        right. exact Hin.
Qed.

(** On a table whose pointers are set, a slot is filled exactly when the
    table supplies its function identity. *)
Lemma slot_filled_iff (fns : list OSSL_DISPATCH) (name : string) (id : Z) :
  pointers_set fns ->
  1 <= id <= 11 ->
  (slot id (fst (dispatch_loop fns
                   (MD.set_name (EVP_MD_meth_new NID_undef NID_undef)
                      (Some name), 0))) <> None
   <-> supplies fns id).
Proof.
  intros Hp Hid. split.
  - apply dispatch_loop_supplied. apply slot_fresh.
  - intros (e & Hin & He). subst id.
    apply dispatch_loop_fills; try assumption.
    unfold pointers_set, nonnull in Hp. rewrite Forall_forall in Hp.
    apply Hp. exact Hin.
Qed.

Lemma filled_dec (o : option fnptr) : o <> None \/ o = None.
Proof. destruct o; [left; discriminate | right; reflexivity]. Qed.

(** The completeness rule, both ways: when the allocations succeed, a
    table whose pointers are set is accepted exactly when it supplies the
    whole streaming set (new, init, update, final, free) or none of it
    and the one-shot digest function, and in both cases the size
    function.  The one-shot function beside a part of the streaming set
    does not make a table acceptable. *)
Theorem evp_md_from_dispatch_rule (w : world) (name : string)
    (fns : list OSSL_DISPATCH) (prov : option ptr) :
  pointers_set fns ->
  ((exists w' md,
      evp_md_from_dispatch true true w name fns prov = (w', Some md))
   <-> complete fns).
Proof.
  intros Hp. unfold complete.
  rewrite <- !(slot_filled_iff fns name) by (assumption || (known_ids; lia)).
  pose proof (DispatchFacts.dispatch_loop_counted (live fns) Hp
                (MD.set_name (EVP_MD_meth_new NID_undef NID_undef)
                   (Some name), 0) eq_refl) as Hc.
  rewrite <- dispatch_loop_live in Hc.
  unfold evp_md_from_dispatch. cbn [negb].
  destruct (dispatch_loop fns _) as [md1 fncnt]. cbn [fst snd] in *.
  unfold slot. known_ids. cbn [Z.eqb Pos.eqb].
  unfold counted in Hc. subst fncnt.
  destruct (MD.newctx md1), (MD.dinit md1), (MD.dupdate md1),
    (MD.dfinal md1), (MD.freectx md1), (MD.digest md1), (MD.size md1);
    cbn [present Z.add Pos.add Pos.succ Z.eqb Pos.eqb negb andb orb];
    (split;
     [ intros (w' & md & H);
       try discriminate H;
       (split; [first [ left; repeat split; discriminate
                      | right; repeat split;
                        first [ discriminate | intros C; apply C; reflexivity ] ]
               | discriminate ])
     | intros [[H | H] Hs];
       try (exfalso; clear - H; intuition congruence);
       try (destruct prov; do 2 eexists; reflexivity) ]).
  all: try (exfalso; apply Hs; reflexivity).
Qed.

Lemma sha256_functions_pointers_set : pointers_set sha256_functions.
Proof.
  unfold pointers_set, nonnull. cbn.
  repeat (apply Forall_cons; [discriminate |]). apply Forall_nil.
Qed.

Lemma evp_md_from_dispatch_rule_witness :
  pointers_set sha256_functions
  /\ ((exists w' md,
         evp_md_from_dispatch true true [] "SHA256" sha256_functions
           (Some 7) = (w', Some md))
      <-> complete sha256_functions).
Proof.
  split; [exact sha256_functions_pointers_set |].
  apply (evp_md_from_dispatch_rule [] "SHA256" sha256_functions (Some 7)).
  exact sha256_functions_pointers_set.
Defined.

(** A table that the adapter refuses costs nothing: when the two
    allocations succeed and no record is returned, the record that was
    built is released by [EVP_MD_meth_free] as the last thing, and the
    provider's reference count is not touched. *)
Theorem evp_md_from_dispatch_refusal (w w' : world) (name : string)
    (fns : list OSSL_DISPATCH) (prov : option ptr) :
  evp_md_from_dispatch true true w name fns prov = (w', None) ->
  exists md,
    w' = w ++ [Ev_meth_new; Ev_strdup; Ev_meth_free (Some md)]
    /\ MD.name md = Some name
    /\ forall p, ~ In (Ev_provider_up_ref p)
                      [Ev_meth_new; Ev_strdup; Ev_meth_free (Some md)].
Proof.
  unfold evp_md_from_dispatch. cbn [negb].
  pose proof (dispatch_loop_fields fns
                (MD.set_name (EVP_MD_meth_new NID_undef NID_undef)
                   (Some name), 0)) as (Hn & _ & _).
  destruct (dispatch_loop fns _) as [md1 fncnt]. cbn [fst] in Hn.
  destruct (_ || _ || _).
  - intros Heq. injection Heq as <-. exists md1.
    rewrite <- app_assoc. split; [reflexivity |].
    split; [exact Hn |].
    intros p [H | [H | [H | []]]]; discriminate.
  - destruct prov; discriminate.
Qed.

Lemma evp_md_from_dispatch_refusal_witness :
  exists md,
    [Ev_meth_new; Ev_strdup;
     Ev_meth_free
       (Some (MD.set_digest
                (MD.set_name (EVP_MD_meth_new NID_undef NID_undef)
                   (Some "SHA512"%string)) (Some 0x1060)))]
    = [] ++ [Ev_meth_new; Ev_strdup; Ev_meth_free (Some md)]
    /\ MD.name md = Some "SHA512"%string.
Proof.
  destruct (evp_md_from_dispatch_refusal []
              [Ev_meth_new; Ev_strdup;
               Ev_meth_free
                 (Some (MD.set_digest
                          (MD.set_name (EVP_MD_meth_new NID_undef NID_undef)
                             (Some "SHA512"%string)) (Some 0x1060)))]
              "SHA512"
              [mkDispatch OSSL_FUNC_DIGEST_DIGEST (Some 0x1060);
               mkDispatch 0 None] (Some 7) eq_refl)
    as (md & Hw & Hn & _).
  exists md. split; assumption.
Defined.

End DispatchMore.

(** ** Going through all digests *)

Module DoAllFacts.
Import Digest DoAll.

(** The adapter adds to the world it is given and builds its record
    from the table alone. *)
Lemma evp_md_from_dispatch_appends (a b : bool) (w : world) (name : string)
    (fns : list OSSL_DISPATCH) (prov : option ptr) :
  evp_md_from_dispatch a b w name fns prov
  = (w ++ fst (evp_md_from_dispatch a b [] name fns prov),
     snd (evp_md_from_dispatch a b [] name fns prov)).
Proof.
  unfold evp_md_from_dispatch.
  destruct a; cbn [negb]; [| reflexivity].
  destruct b; cbn [negb]; [| reflexivity].
  destruct (dispatch_loop fns _) as [md fncnt].
  destruct (_ || _ || _); cbn [fst snd app].
  - rewrite <- app_assoc. reflexivity.
  - destruct prov; cbn [fst snd app];
      rewrite <- ?app_assoc; reflexivity.
Qed.

Lemma built_cons (x : option ptr * OSSL_ALGORITHM * Z)
    (rest : list (option ptr * OSSL_ALGORITHM * Z)) :
  built (x :: rest) = built [x] ++ built rest.
Proof. unfold built. cbn [flat_map]. rewrite app_nil_r. reflexivity. Qed.

Section Facts.
Context {U : Type}.
Variable registered : Z -> list (option ptr * OSSL_ALGORITHM * Z).
Variable fn : U -> EVP_MD -> option ptr -> U.
Variable arg : option ptr.

(** One algorithm, seen from the caller's function. *)
Lemma do_one_user (alloc_ok : world -> bool * bool) (w : world) (u : U)
    (prov : option ptr) (algo : OSSL_ALGORITHM) (no_store : Z) :
  alloc_ok w = (true, true) ->
  snd (do_one (w, u) prov algo no_store
         (mkDoAllData (world * U) EVP_MD
            (fun w1 md a => (fst w1, fn (snd w1) md a)) arg
            (md_new_method alloc_ok) evp_md_free))
  = fold_left (fun u1 md => fn u1 md arg) (built [(prov, algo, no_store)]) u.
Proof.
  intros Hok. unfold do_one, md_new_method, built.
  cbn [new_method user_fn user_arg free_method fst snd flat_map].
  rewrite Hok. cbn [fst snd].
  rewrite (evp_md_from_dispatch_appends true true w).
  destruct (evp_md_from_dispatch true true [] _ _ prov) as [evs [md |]];
    reflexivity.
Qed.

(** The caller's function is run once on each record that the adapter
    accepts, in the order in which the algorithms are registered, and on
    nothing else: an algorithm whose table the adapter refuses is passed
    over.  (Allocations are taken to succeed.) *)
Theorem EVP_MD_do_all_ex_accepted (w : world) (u : U)
    (libctx : option ptr) :
  snd (EVP_MD_do_all_ex registered (fun _ => (true, true)) (w, u) libctx
         fn arg)
  = fold_left (fun u1 md => fn u1 md arg)
      (built (registered OSSL_OP_DIGEST)) u.
Proof.
  unfold EVP_MD_do_all_ex, evp_generic_do_all, algorithm_do_all.
  generalize (registered OSSL_OP_DIGEST) as algs. intros algs.
  revert w u. induction algs as [| [[prov algo] no_store] rest IH];
    intros w u.
  - reflexivity.
  - cbn [fold_left].
    rewrite (built_cons (prov, algo, no_store) rest), fold_left_app.
    rewrite <- (do_one_user (fun _ => (true, true)) w u prov algo no_store
                  eq_refl).
    destruct (do_one (w, u) prov algo no_store _) as [w1 u1].
    cbn [snd]. apply IH.
Qed.

Lemma allocated_app (w1 w2 : world) :
  allocated (w1 ++ w2) = (allocated w1 + allocated w2)%nat.
Proof. unfold allocated. rewrite filter_app, length_app. reflexivity. Qed.

Lemma released_app (w1 w2 : world) :
  released (w1 ++ w2) = (released w1 + released w2)%nat.
Proof. unfold released. rewrite filter_app, length_app. reflexivity. Qed.

(** One algorithm allocates one record and releases one. *)
Lemma do_one_balanced (alloc_ok : world -> bool * bool) (w : world) (u : U)
    (prov : option ptr) (algo : OSSL_ALGORITHM) (no_store : Z) :
  let w1 := fst (do_one (w, u) prov algo no_store
                   (mkDoAllData (world * U) EVP_MD
                      (fun w1 md a => (fst w1, fn (snd w1) md a)) arg
                      (md_new_method alloc_ok) evp_md_free)) in
  allocated w1 = S (allocated w) /\ released w1 = S (released w).
Proof.
  unfold do_one, md_new_method.
  cbn [new_method user_fn user_arg free_method fst snd].
  rewrite evp_md_from_dispatch_appends.
  unfold evp_md_from_dispatch, evp_md_free.
  destruct (fst (alloc_ok w)); cbn [negb fst snd app];
    [| rewrite allocated_app, released_app; cbn; lia].
  destruct (snd (alloc_ok w)); cbn [negb fst snd app];
    [| rewrite allocated_app, released_app; cbn; lia].
  destruct (dispatch_loop _ _) as [md fncnt].
  destruct (_ || _ || _); cbn [fst snd app].
  - rewrite allocated_app, released_app. cbn. lia.
  - destruct prov; cbn [fst snd app];
      rewrite ?allocated_app, ?released_app; cbn; lia.
Qed.

(** Going through all digests leaks no record: whatever the tables are
    and whether allocations succeed or not, as many records are released
    by [EVP_MD_meth_free] as were allocated by [EVP_MD_meth_new], one
    for each registered algorithm. *)
Theorem EVP_MD_do_all_ex_balanced (alloc_ok : world -> bool * bool)
    (w : world) (u : U) (libctx : option ptr) :
  let w' := fst (EVP_MD_do_all_ex registered alloc_ok (w, u) libctx
                   fn arg) in
  (allocated w'
   = allocated w + List.length (registered OSSL_OP_DIGEST))%nat
  /\ (released w'
      = released w + List.length (registered OSSL_OP_DIGEST))%nat.
Proof.
  unfold EVP_MD_do_all_ex, evp_generic_do_all, algorithm_do_all.
  generalize (registered OSSL_OP_DIGEST) as algs. intros algs.
  revert w u. induction algs as [| [[prov algo] no_store] rest IH];
    intros w u.
  - cbv zeta. cbn [fold_left List.length fst].
    rewrite !Nat.add_0_r. split; reflexivity.
  - cbn [fold_left List.length].
    pose proof (do_one_balanced alloc_ok w u prov algo no_store) as Hone.
    cbv zeta in Hone.
    destruct (do_one (w, u) prov algo no_store _) as [w1 u1].
    cbn [fst] in Hone. destruct Hone as [Ha Hr].
    specialize (IH w1 u1). cbv zeta in IH |- *.
    destruct IH as [IHa IHr]. lia.
Qed.

End Facts.

(** With the two providers, a function that collects the names. *)
Example EVP_MD_do_all_ex_two_providers :
  snd (EVP_MD_do_all_ex two_providers (fun _ => (true, true))
         ([], []) None (fun u md _ => u ++ [(MD.name md, MD.prov md)]) None)
  = [(Some "SHA256"%string, Some 7); (Some "SHA256"%string, Some 8)].
Proof. reflexivity. Qed.

End DoAllFacts.

(** ** More on the digest context *)

Module DigestMoreFacts.
Import Digest DigestMore.

(** The reset of a context that was just created calls nothing that
    frees: it passes NULL to the two release functions and clears the
    context. *)
Lemma reset_of_new (w : world) :
  EVP_MD_CTX_reset w EVP_MD_CTX_new
  = (w ++ [Ev_pkey_ctx_free None; Ev_engine_finish None; Ev_cleanse_ctx],
     EVP_MD_CTX_new, 1).
Proof.
  unfold EVP_MD_CTX_reset, reset_legacy. cbn.
  rewrite <- !app_assoc. reflexivity.
Qed.

Lemma reset_legacy_new (w : world) (ctx : EVP_MD_CTX) :
  exists w1, reset_legacy w ctx = (w1, EVP_MD_CTX_new, 1).
Proof. unfold reset_legacy. eexists. reflexivity. Qed.

(** Resetting twice frees nothing twice: whatever the context, the
    second [EVP_MD_CTX_reset] leaves the context as the first one left
    it, calls neither [freectx] nor a clean-up, and releases no memory;
    at most it passes NULL to the release of the public-key context and
    of the engine and clears the context again. *)
Theorem EVP_MD_CTX_reset_twice (w : world) (ctx : EVP_MD_CTX) :
  exists w1 c1 evs,
    EVP_MD_CTX_reset w ctx = (w1, c1, 1)
    /\ EVP_MD_CTX_reset w1 c1 = (w1 ++ evs, c1, 1)
    /\ (evs = []
        \/ evs = [Ev_pkey_ctx_free None; Ev_engine_finish None;
                  Ev_cleanse_ctx]).
Proof.
  assert (Hleg : forall w0 c0,
            exists w1 c1 evs,
              reset_legacy w0 c0 = (w1, c1, 1)
              /\ EVP_MD_CTX_reset w1 c1 = (w1 ++ evs, c1, 1)
              /\ (evs = []
                  \/ evs = [Ev_pkey_ctx_free None; Ev_engine_finish None;
                            Ev_cleanse_ctx])).
  { intros w0 c0. destruct (reset_legacy_new w0 c0) as [w1 Hw1].
    exists w1, EVP_MD_CTX_new, [Ev_pkey_ctx_free None; Ev_engine_finish None;
                                 Ev_cleanse_ctx].
    split; [exact Hw1 |]. split; [apply reset_of_new | right; reflexivity]. }
  unfold EVP_MD_CTX_reset at 1.
  destruct (CTX.digest ctx) as [md |] eqn:Hd; [| apply Hleg].
  destruct (MD.prov md) as [pv |] eqn:Hp; [| apply Hleg].
  destruct (CTX.provctx ctx) as [p |] eqn:Hs.
  - destruct (CTX.pctx (EVP_MD_CTX_set_flags (CTX.set_provctx ctx None)
                          EVP_MD_CTX_FLAG_CLEANED)) as [k |] eqn:Hk;
      [apply Hleg |].
    do 2 eexists. exists []. split; [reflexivity |].
    split; [| left; reflexivity].
    rewrite app_nil_r.
    rewrite (DigestFacts.reset_provider_path _ _ md pv);
      try (destruct ctx; cbn in *; assumption).
    destruct ctx; reflexivity.
  - destruct (CTX.pctx ctx) as [k |] eqn:Hk; [apply Hleg |].
    do 2 eexists. exists []. split; [reflexivity |].
    split; [| left; reflexivity].
    rewrite app_nil_r.
    rewrite (DigestFacts.reset_provider_path _ _ md pv Hd Hp Hk), Hs.
    reflexivity.
Qed.

(** [EVP_DigestUpdate] works on the provider state only: when it
    returns, the context is as it was, and the world has at most one
    thing more, the call of the update function with the provider state
    of the context, the call of the legacy update function, or the
    error raised for a missing update function. *)
Theorem EVP_DigestUpdate_frame (im : impl) (w w' : world)
    (ctx ctx' : EVP_MD_CTX) (data : option ptr) (count ret : Z) :
  EVP_DigestUpdate im w ctx data count = Returns (w', ctx', ret) ->
  ctx' = ctx
  /\ (w' = w
      \/ (exists f, w' = w ++ [Ev_dupdate f (CTX.provctx ctx) data count])
      \/ (exists f, w' = w ++ [Ev_update f data count])
      \/ (w' = w ++ [Ev_err EVP_R_UPDATE_ERROR] /\ ret = 0)).
Proof.
  unfold EVP_DigestUpdate.
  destruct (count =? 0).
  - intros H. injection H as <- <- <-. split; [reflexivity | left; reflexivity].
  - destruct (CTX.digest ctx) as [md |].
    + destruct (MD.prov md).
      * destruct (MD.dupdate md) as [f |]; intros H;
          injection H as <- <- <-; (split; [reflexivity |]).
        -- right; left. exists f. reflexivity.
        -- right; right; right. split; reflexivity.
      * destruct (CTX.update ctx) as [f |]; [| discriminate].
        intros H. injection H as <- <- <-. split; [reflexivity |].
        right; right; left. exists f. reflexivity.
    + destruct (CTX.update ctx) as [f |]; [| discriminate].
      intros H. injection H as <- <- <-. split; [reflexivity |].
      right; right; left. exists f. reflexivity.
Qed.

Lemma EVP_DigestUpdate_frame_witness :
  sha256_ctx = sha256_ctx
  /\ EVP_DigestUpdate sha256_impl [] sha256_ctx (Some 0x3000) 3
     = Returns ([Ev_dupdate 0x1020 (Some 0x2000) (Some 0x3000) 3],
                sha256_ctx, 1).
Proof.
  split; [| reflexivity].
  apply (EVP_DigestUpdate_frame sha256_impl []
           [Ev_dupdate 0x1020 (Some 0x2000) (Some 0x3000) 3]
           sha256_ctx sha256_ctx (Some 0x3000) 3 1 eq_refl).
Defined.

(** What [EVP_DigestFinal_ex] comes to for an initialised context on the
    provider path. *)
Lemma final_ex_provider (im : impl) (w : world) (ctx : EVP_MD_CTX)
    (md : EVP_MD) (prov : ptr) (f : fnptr) (isize : option Z) :
  CTX.digest ctx = Some md ->
  MD.prov md = Some prov ->
  MD.dfinal md = Some f ->
  CTX.pctx ctx = None ->
  exists w2 isize' ret,
    (w2 = w ++ [Ev_dfinal f (CTX.provctx ctx)
                  (to_size_t (EVP_MD_size im (Some md)))]
     \/ w2 = (w ++ [Ev_dfinal f (CTX.provctx ctx)
                      (to_size_t (EVP_MD_size im (Some md)))])
             ++ [Ev_err EVP_R_FINAL_ERROR])
    /\ EVP_DigestFinal_ex im w ctx isize
       = Returns (fst (fst (EVP_MD_CTX_reset w2 ctx)),
                  snd (fst (EVP_MD_CTX_reset w2 ctx)), isize', ret).
Proof.
  intros Hd Hp Hf Hk. unfold EVP_DigestFinal_ex. rewrite Hd, Hp, Hf.
  destruct (run_dfinal im w f (CTX.provctx ctx) _) as [ret size].
  destruct isize as [old |]; [destruct (size <=? UINT_MAX) |].
  - do 3 eexists. split; [left; reflexivity |].
    destruct (EVP_MD_CTX_reset _ ctx) as [[w3 c3] r3]. reflexivity.
  - do 3 eexists. split; [right; reflexivity |].
    destruct (EVP_MD_CTX_reset _ ctx) as [[w3 c3] r3]. reflexivity.
  - do 3 eexists. split; [left; reflexivity |].
    destruct (EVP_MD_CTX_reset _ ctx) as [[w3 c3] r3]. reflexivity.
Qed.

(** On the provider path [EVP_DigestFinal] is [EVP_DigestFinal_ex]: the
    reset it adds finds the provider state already released and does
    nothing. *)
Theorem EVP_DigestFinal_is_final_ex (im : impl) (w : world)
    (ctx : EVP_MD_CTX) (md : EVP_MD) (prov : ptr) (f : fnptr)
    (size : option Z) :
  CTX.digest ctx = Some md ->
  MD.prov md = Some prov ->
  MD.dfinal md = Some f ->
  CTX.pctx ctx = None ->
  EVP_DigestFinal im w ctx size = EVP_DigestFinal_ex im w ctx size.
Proof.
  intros Hd Hp Hf Hk. unfold EVP_DigestFinal.
  destruct (final_ex_provider im w ctx md prov f size Hd Hp Hf Hk)
    as (w2 & isize' & ret & _ & ->).
  rewrite (DigestFacts.reset_provider_path w2 ctx md prov Hd Hp Hk).
  destruct (CTX.provctx ctx) eqn:Hs; cbn [fst snd].
  - rewrite (DigestFacts.reset_provider_path _ _ md prov);
      try (destruct ctx; cbn in *; assumption).
    destruct ctx; reflexivity.
  - rewrite (DigestFacts.reset_provider_path _ _ md prov Hd Hp Hk), Hs.
    reflexivity.
Qed.

Lemma EVP_DigestFinal_is_final_ex_witness :
  EVP_DigestFinal sha256_impl [] sha256_ctx (Some 0)
  = EVP_DigestFinal_ex sha256_impl [] sha256_ctx (Some 0).
Proof.
  apply (EVP_DigestFinal_is_final_ex sha256_impl [] sha256_ctx sha256_md 7
           0x1030 (Some 0)); reflexivity.
Defined.

(** A second final without an init in between is not refused: after a
    final on the provider path, [EVP_DigestFinal_ex] calls the final
    function of the implementation again, with a null provider state,
    and returns what it returns; nothing is freed a second time. *)
Theorem EVP_DigestFinal_ex_twice (im : impl) (w : world)
    (ctx : EVP_MD_CTX) (md : EVP_MD) (prov : ptr) (f : fnptr)
    (isize isize2 : option Z) :
  CTX.digest ctx = Some md ->
  MD.prov md = Some prov ->
  MD.dfinal md = Some f ->
  CTX.pctx ctx = None ->
  exists w1 c1 s1 r1 w2 s2 r2,
    EVP_DigestFinal_ex im w ctx isize = Returns (w1, c1, s1, r1)
    /\ EVP_DigestFinal_ex im w1 c1 isize2 = Returns (w2, c1, s2, r2)
    /\ (w2 = w1 ++ [Ev_dfinal f None (to_size_t (EVP_MD_size im (Some md)))]
        \/ w2 = (w1 ++ [Ev_dfinal f None
                          (to_size_t (EVP_MD_size im (Some md)))])
                ++ [Ev_err EVP_R_FINAL_ERROR]).
Proof.
  intros Hd Hp Hf Hk.
  destruct (final_ex_provider im w ctx md prov f isize Hd Hp Hf Hk)
    as (wa & s1 & r1 & _ & H1).
  rewrite (DigestFacts.reset_provider_path wa ctx md prov Hd Hp Hk) in H1.
  set (c1 := match CTX.provctx ctx with
             | Some _ => EVP_MD_CTX_set_flags (CTX.set_provctx ctx None)
                           EVP_MD_CTX_FLAG_CLEANED
             | None => ctx
             end).
  assert (Hc1 : CTX.digest c1 = Some md /\ CTX.pctx c1 = None
                /\ CTX.provctx c1 = None).
  { unfold c1. destruct (CTX.provctx ctx) eqn:Hs.
    - destruct ctx; cbn in *. repeat split; assumption.
    - repeat split; assumption. }
  destruct Hc1 as (Hd1 & Hk1 & Hs1).
  assert (H1' : exists w1, EVP_DigestFinal_ex im w ctx isize
                           = Returns (w1, c1, s1, r1)).
  { unfold c1. rewrite H1. destruct (CTX.provctx ctx); eexists; reflexivity. }
  destruct H1' as [w1 H1'].
  destruct (final_ex_provider im w1 c1 md prov f isize2 Hd1 Hp Hf Hk1)
    as (wb & s2 & r2 & Hwb & H2).
  rewrite (DigestFacts.reset_provider_path wb c1 md prov Hd1 Hp Hk1), Hs1
    in H2.
  cbn [fst snd] in H2. rewrite Hs1 in Hwb.
  exists w1, c1, s1, r1, wb, s2, r2.
  split; [exact H1' |]. split; [exact H2 | exact Hwb].
Qed.

Lemma EVP_DigestFinal_ex_twice_witness :
  exists w1 c1 s1 r1 w2 s2 r2,
    EVP_DigestFinal_ex sha256_impl [] sha256_ctx (Some 0)
    = Returns (w1, c1, s1, r1)
    /\ EVP_DigestFinal_ex sha256_impl w1 c1 (Some 0)
       = Returns (w2, c1, s2, r2).
Proof.
  destruct (EVP_DigestFinal_ex_twice sha256_impl [] sha256_ctx sha256_md 7
              0x1030 (Some 0) (Some 0) eq_refl eq_refl eq_refl eq_refl)
    as (w1 & c1 & s1 & r1 & w2 & s2 & r2 & H1 & H2 & _).
  exists w1, c1, s1, r1, w2, s2, r2. split; assumption.
Defined.

(** With a public-key context attached, [EVP_MD_CTX_free] of a context
    on the provider path does not release the fetched digest: the reset
    it starts with clears the context, and [EVP_MD_meth_free] is then
    called with NULL. *)
Theorem EVP_MD_CTX_free_pkey_ctx (w : world) (ctx : EVP_MD_CTX)
    (md : EVP_MD) (prov k : ptr) :
  CTX.digest ctx = Some md ->
  MD.prov md = Some prov ->
  CTX.pctx ctx = Some k ->
  exists evs,
    EVP_MD_CTX_free w ctx = (w ++ evs) ++ [Ev_meth_free None; Ev_free_ctx]
    /\ forall m, ~ In (Ev_meth_free m) evs.
Proof.
  intros Hd Hp Hk. unfold EVP_MD_CTX_free, EVP_MD_CTX_reset.
  rewrite Hd, Hp.
  set (w1 := match CTX.provctx ctx with
             | Some p => match MD.freectx md with
                         | Some f => [Ev_freectx f p]
                         | None => []
                         end
             | None => []
             end).
  set (c1 := match CTX.provctx ctx with
             | Some _ => EVP_MD_CTX_set_flags (CTX.set_provctx ctx None)
                           EVP_MD_CTX_FLAG_CLEANED
             | None => ctx
             end).
  assert (Hstep : (match CTX.provctx ctx with
                   | Some p =>
                     (match MD.freectx md with
                      | Some f => w ++ [Ev_freectx f p]
                      | None => w
                      end,
                      EVP_MD_CTX_set_flags (CTX.set_provctx ctx None)
                        EVP_MD_CTX_FLAG_CLEANED)
                   | None => (w, ctx)
                   end) = (w ++ w1, c1)).
  { unfold w1, c1. destruct (CTX.provctx ctx); [| rewrite app_nil_r];
      try reflexivity.
    destruct (MD.freectx md); [| rewrite app_nil_r]; reflexivity. }
  rewrite Hstep.
  assert (Hk1 : CTX.pctx c1 = Some k)
    by (unfold c1; destruct (CTX.provctx ctx); destruct ctx; exact Hk).
  rewrite Hk1. unfold reset_legacy.
  set (e1 := match CTX.digest c1 with
             | Some md0 =>
               match MD.cleanup md0 with
               | Some f =>
                 if EVP_MD_CTX_test_flags c1 EVP_MD_CTX_FLAG_CLEANED =? 0
                 then [Ev_cleanup f] else []
               | None => []
               end
             | None => []
             end).
  set (e2 := match CTX.digest c1, CTX.md_data c1 with
             | Some md0, Some p =>
               if negb (MD.ctx_size md0 =? 0)
                  && (EVP_MD_CTX_test_flags c1 EVP_MD_CTX_FLAG_REUSE =? 0)
               then [Ev_clear_free p (MD.ctx_size md0)] else []
             | _, _ => []
             end).
  set (e3 := if EVP_MD_CTX_test_flags c1 EVP_MD_CTX_FLAG_KEEP_PKEY_CTX =? 0
             then [Ev_pkey_ctx_free (CTX.pctx c1)] else []).
  exists (w1 ++ e1 ++ e2 ++ e3
          ++ [Ev_engine_finish (CTX.engine c1); Ev_cleanse_ctx]).
  split.
  - cbn [CTX.fetched_digest EVP_MD_CTX_new].
    f_equal. unfold e1, e2, e3.
    destruct (CTX.digest c1) as [md0 |];
      [destruct (MD.cleanup md0);
       [destruct (EVP_MD_CTX_test_flags c1 EVP_MD_CTX_FLAG_CLEANED =? 0) |];
       destruct (CTX.md_data c1);
       try destruct (negb (MD.ctx_size md0 =? 0)
                     && (EVP_MD_CTX_test_flags c1 EVP_MD_CTX_FLAG_REUSE
                         =? 0)) |];
      destruct (EVP_MD_CTX_test_flags c1 EVP_MD_CTX_FLAG_KEEP_PKEY_CTX =? 0);
      cbn [app]; rewrite <- ?app_assoc; cbn [app]; reflexivity.
  - intros m Hin.
    repeat (apply in_app_or in Hin; destruct Hin as [Hin | Hin]).
    + unfold w1 in Hin. destruct (CTX.provctx ctx); [| contradiction].
      destruct (MD.freectx md); [| contradiction].
      destruct Hin as [Hin | []]. discriminate.
    + unfold e1 in Hin. destruct (CTX.digest c1) as [md0 |];
        [| contradiction].
      destruct (MD.cleanup md0); [| contradiction].
      destruct (EVP_MD_CTX_test_flags c1 EVP_MD_CTX_FLAG_CLEANED =? 0);
        [| contradiction].
      destruct Hin as [Hin | []]. discriminate.
    + unfold e2 in Hin. destruct (CTX.digest c1) as [md0 |];
        [| contradiction].
      destruct (CTX.md_data c1); [| contradiction].
      destruct (negb (MD.ctx_size md0 =? 0)
                && (EVP_MD_CTX_test_flags c1 EVP_MD_CTX_FLAG_REUSE =? 0));
        [| contradiction].
      destruct Hin as [Hin | []]. discriminate.
    + unfold e3 in Hin.
      destruct (EVP_MD_CTX_test_flags c1 EVP_MD_CTX_FLAG_KEEP_PKEY_CTX =? 0);
        [| contradiction].
      destruct Hin as [Hin | []]. discriminate.
    + destruct Hin as [Hin | [Hin | []]]; discriminate.
Qed.

Lemma EVP_MD_CTX_free_pkey_ctx_witness :
  exists evs,
    EVP_MD_CTX_free []
      (CTX.mkCtx (Some sha256_md) (Some sha256_md) None 0 None (Some 0x4000)
         None (Some 0x2000) (Some sha256_md))
    = ([] ++ evs) ++ [Ev_meth_free None; Ev_free_ctx].
Proof.
  destruct (EVP_MD_CTX_free_pkey_ctx []
              (CTX.mkCtx (Some sha256_md) (Some sha256_md) None 0 None
                 (Some 0x4000) None (Some 0x2000) (Some sha256_md))
              sha256_md 7 0x4000 eq_refl eq_refl eq_refl) as (evs & H & _).
  exists evs. exact H.
Defined.

End DigestMoreFacts.

(** ** More on the DH key exchange *)

Module DHMore.
Import DHExch.

Section Facts.
Context {DH BIGNUM OSSL_PARAM : Type} (ops : dh_ops DH BIGNUM OSSL_PARAM).

(** The size query and the derivation fit together: when [dh_derive]
    with a null output pointer succeeds and reports a size, both keys
    are set, and [dh_derive] with that size as capacity does not fail
    for want of room; it fails only when the computation does. *)
Theorem dh_derive_after_size_query (pdhctx : PROV_DH_CTX DH) (buf : ptr)
    (keylen keylen' n : Z) :
  dh_derive ops pdhctx None keylen 0 = (1, n, []) ->
  exists d peer,
    dh pdhctx = Some d /\ dhpeer pdhctx = Some peer
    /\ n = to_size_t (DH_size ops d)
    /\ dh_derive ops pdhctx (Some buf) keylen' n
       = if fst (computed ops pdhctx d peer) <=? 0
         then (0, keylen', snd (computed ops pdhctx d peer))
         else (1, to_size_t (fst (computed ops pdhctx d peer)),
               snd (computed ops pdhctx d peer)).
Proof.
  unfold dh_derive, computed.
  destruct (dh pdhctx) as [d |]; [| discriminate].
  destruct (dhpeer pdhctx) as [peer |]; [| discriminate].
  intros H. injection H as <-.
  exists d, peer. repeat split.
  rewrite Z.ltb_irrefl.
  destruct (if negb (pad pdhctx =? 0)
            then DH_compute_key_padded ops (DH_get0_key ops peer) d
            else DH_compute_key ops (DH_get0_key ops peer) d)
    as [ret bytes].
  reflexivity.
Qed.

(** [dh_set_params] touches the padding and nothing else: it never
    changes the keys; when it fails the context is as it was; when it
    succeeds the array has a parameter "pad" whose integer value is the
    new padding.  It returns 0 or 1. *)
Theorem dh_set_params_frame (c : PROV_DH_CTX DH)
    (params : option (list OSSL_PARAM)) :
  exists c' r,
    dh_set_params ops (Some c) params = (Some c', r)
    /\ dh c' = dh c /\ dhpeer c' = dhpeer c
    /\ ((r = 0 /\ c' = c)
        \/ (r = 1
            /\ exists ps q,
                 params = Some ps
                 /\ OSSL_PARAM_locate_const ops ps OSSL_EXCHANGE_PARAM_PAD
                    = Some q
                 /\ OSSL_PARAM_get_int ops q = Some (pad c'))).
Proof.
  unfold dh_set_params.
  destruct params as [ps |].
  - destruct (OSSL_PARAM_locate_const ops ps OSSL_EXCHANGE_PARAM_PAD)
      as [q |] eqn:Hl.
    + destruct (OSSL_PARAM_get_int ops q) as [v |] eqn:Hg.
      * do 2 eexists. split; [reflexivity |]. cbn [dh dhpeer pad].
        repeat split. right. split; [reflexivity |].
        exists ps, q. repeat split; assumption.
      * exists c, 0. repeat split. left. split; reflexivity.
    + exists c, 0. repeat split. left. split; reflexivity.
  - exists c, 0. repeat split. left. split; reflexivity.
Qed.

End Facts.

Section Bounds.
Import DHModel.

Lemma dh_derive_after_size_query_witness :
  exists d peer,
    dh (mkDhCtx (Some local_key) (Some peer_key) 1) = Some d
    /\ dhpeer (mkDhCtx (Some local_key) (Some peer_key) 1) = Some peer
    /\ 3 = to_size_t (DHExch.DH_size DHModel.ops d).
Proof.
  destruct (dh_derive_after_size_query DHModel.ops
              (mkDhCtx (Some local_key) (Some peer_key) 1) 0x5000 0 0 3
              eq_refl) as (d & peer & Hd & Hp & Hn & _).
  exists d, peer. repeat split; assumption.
Defined.

(** The modelled computations store no more than the modulus size. *)
Lemma computed_length (c : PROV_DH_CTX DH) (d peer : DH) :
  Z.of_nat (List.length (snd (computed DHModel.ops c d peer))) <= DH_size d
  /\ (0 < fst (computed DHModel.ops c d peer) ->
      fst (computed DHModel.ops c d peer)
      = Z.of_nat (List.length (snd (computed DHModel.ops c d peer)))).
Proof.
  assert (Hsz : 0 <= DH_size d).
  { unfold DH_size, BN_num_bytes. destruct (p d <=? 0); [lia |].
    pose proof (Z.log2_nonneg (p d)).
    pose proof (Z.div_pos (Z.log2 (p d)) 8 H ltac:(lia)). lia. }
  unfold computed.
  cbn [DHExch.DH_get0_key DHExch.DH_compute_key_padded
       DHExch.DH_compute_key DHModel.ops].
  unfold DH_compute_key_padded, DH_compute_key.
  destruct (shared_secret (pub_key peer) d) as [s |] eqn:Hsec.
  - destruct (DHFacts.shared_secret_range _ _ _ Hsec) as [Hmod Hrange].
    destruct (negb (pad c =? 0)); cbn [fst snd].
    + rewrite DHFacts.BN_bn2binpad_length. rewrite Z2Nat.id by lia.
      split; [lia | reflexivity].
    + unfold BN_bn2bin. rewrite DHFacts.BN_bn2binpad_length.
      assert (Hb : 0 <= BN_num_bytes s <= DH_size d).
      { destruct (Z.eq_dec s 0) as [-> | Hnz].
        - cbn. lia.
        - destruct (DHFacts.BN_num_bytes_bounds s ltac:(lia)) as [Hk _].
          split; [lia |]. apply DHFacts.BN_num_bytes_mono; lia. }
      rewrite Z2Nat.id by lia. split; [lia | reflexivity].
  - destruct (negb (pad c =? 0)); cbn [fst snd List.length];
      split; lia.
Qed.

(** [dh_derive] stays within the buffer: the bytes it stores are never
    more than the capacity it was given, and when it succeeds with an
    output pointer, [*keylen] is the number of bytes stored. *)
Theorem dh_derive_within_capacity (c : PROV_DH_CTX DH) (key : option ptr)
    (keylen outlen : Z) :
  0 <= outlen ->
  (forall d, dh c = Some d -> DH_size d < 2 ^ 64) ->
  let '(ret, keylen', bytes) :=
    dh_derive DHModel.ops c key keylen outlen in
  Z.of_nat (List.length bytes) <= outlen
  /\ (ret = 1 -> key <> None -> keylen' = Z.of_nat (List.length bytes))
  /\ (ret = 0 -> keylen' = keylen)
  /\ (ret = 0 \/ ret = 1).
Proof.
  intros Hout Hsize. unfold dh_derive.
  destruct (dh c) as [d |] eqn:Hd.
  - destruct (dhpeer c) as [peer |] eqn:Hp.
    + destruct key as [buf |].
      * cbn [DHExch.DH_size DHModel.ops].
        assert (Hsz : 0 <= DH_size d).
        { unfold DH_size, BN_num_bytes. destruct (p d <=? 0); [lia |].
          pose proof (Z.log2_nonneg (p d)).
          pose proof (Z.div_pos (Z.log2 (p d)) 8 H ltac:(lia)). lia. }
        assert (Hts : to_size_t (DH_size d) = DH_size d).
        { unfold to_size_t. apply Z.mod_small.
          split; [exact Hsz | apply Hsize; reflexivity]. }
        rewrite Hts.
        destruct (Z.ltb_spec outlen (DH_size d)).
        -- cbn [List.length].
           repeat split; first [lia | intros; congruence].
        -- pose proof (computed_length c d peer) as [Hlen Hret].
           unfold computed in Hlen, Hret.
           destruct (if negb (pad c =? 0)
                     then DHExch.DH_compute_key_padded DHModel.ops
                            (DH_get0_key DHModel.ops peer) d
                     else DHExch.DH_compute_key DHModel.ops
                            (DH_get0_key DHModel.ops peer) d)
             as [ret bytes].
           cbn [fst snd] in Hlen, Hret.
           destruct (Z.leb_spec ret 0).
           ++ repeat split; first [lia | intros; congruence].
           ++ assert (Hkl : to_size_t ret = Z.of_nat (List.length bytes)).
              { pose proof (Hsize d eq_refl) as Hlt.
                assert (Hr : ret = Z.of_nat (List.length bytes))
                  by (apply Hret; lia).
                rewrite <- Hr. unfold to_size_t. apply Z.mod_small. lia. }
              repeat split; first [lia | intros; congruence].
      * cbn [List.length].
        repeat split; first [lia | intros; congruence].
    + cbn [List.length]. repeat split; first [lia | intros; congruence].
  - cbn [List.length]. repeat split; first [lia | intros; congruence].
Qed.

Lemma dh_derive_within_capacity_witness :
  0 <= 3
  /\ (let '(ret, keylen', bytes) :=
        dh_derive DHModel.ops (mkDhCtx (Some local_key) (Some peer_key) 1)
          (Some 0x5000) 0 3 in
      Z.of_nat (List.length bytes) <= 3).
Proof.
  split; [lia |].
  pose proof (dh_derive_within_capacity
                (mkDhCtx (Some local_key) (Some peer_key) 1)
                (Some 0x5000) 0 3 ltac:(lia)) as H.
  destruct (dh_derive DHModel.ops _ _ _ _) as [[ret kl] bytes].
  apply H. intros d Hd. injection Hd as <-. vm_compute. reflexivity.
Defined.

End Bounds.

End DHMore.

(** ** More on initialisation and the one-shot digest *)

Module DigestLifeFacts.
Import Digest DigestLife.

Lemma clear_cleaned_no_init (fl : Z) :
  Z.land (Z.land fl (Z.lnot EVP_MD_CTX_FLAG_CLEANED)) EVP_MD_CTX_FLAG_NO_INIT
  = Z.land fl EVP_MD_CTX_FLAG_NO_INIT.
Proof. rewrite <- Z.land_assoc. reflexivity. Qed.

Lemma set_cleaned_no_init (fl : Z) :
  Z.land (Z.lor fl EVP_MD_CTX_FLAG_CLEANED) EVP_MD_CTX_FLAG_NO_INIT
  = Z.land fl EVP_MD_CTX_FLAG_NO_INIT.
Proof.
  rewrite Z.land_lor_distr_l.
  change (Z.land EVP_MD_CTX_FLAG_CLEANED EVP_MD_CTX_FLAG_NO_INIT) with 0.
  apply Z.lor_0_r.
Qed.

Lemma states_freed_app (w1 w2 : world) :
  states_freed (w1 ++ w2) = (states_freed w1 ++ states_freed w2)%list.
Proof. apply flat_map_app. Qed.

Lemma app_two {A : Type} (l : list A) (a b : A) :
  (l ++ [a; b] = (l ++ [a]) ++ [b])%list.
Proof. rewrite <- app_assoc. reflexivity. Qed.

Ltac ctx_run :=
  cbv beta iota zeta delta
    [CTX.engine CTX.digest CTX.pctx CTX.flags CTX.md_data
     CTX.fetched_digest CTX.provctx CTX.reqdigest CTX.update
     CTX.set_flags CTX.set_reqdigest CTX.set_digest CTX.set_provctx
     CTX.set_fetched_digest set_engine set_md_data set_update orb negb
     EVP_MD_CTX_free EVP_MD_CTX_reset EVP_MD_CTX_set_flags
     EVP_MD_CTX_clear_flags EVP_MD_CTX_new EVP_DigestUpdate
     EVP_DigestFinal_ex].

Ltac ctx_run_in H :=
  cbv beta iota zeta delta
    [CTX.engine CTX.digest CTX.pctx CTX.flags CTX.md_data
     CTX.fetched_digest CTX.provctx CTX.reqdigest CTX.update
     CTX.set_flags CTX.set_reqdigest CTX.set_digest CTX.set_provctx
     CTX.set_fetched_digest set_engine set_md_data set_update orb negb andb
     EVP_MD_CTX_clear_flags md_ptr_eq] in H;
  rewrite ?clear_cleaned_no_init in H.

Ltac break_in H :=
  match type of H with
  | context [match ?x with _ => _ end] =>
    lazymatch x with
    | context [match _ with _ => _ end] => fail
    | _ => destruct x eqn:?
    end
  end.

Ltac break_goal :=
  match goal with
  | |- context [match ?x with _ => _ end] =>
    lazymatch x with
    | context [match _ with _ => _ end] => fail
    | _ => destruct x
    end
  end.

Ltac freed_simpl :=
  rewrite ?states_freed_app; cbn [states_freed flat_map app];
  rewrite ?app_nil_r, <- ?app_assoc; cbn [app].

(** What [EVP_MD_CTX_reset] leaves: no provider state and no public-key
    context; an absent engine and a clear [NO_INIT] stay so. *)
Lemma reset_leaves (w : world) (ctx : EVP_MD_CTX) :
  exists w1 ctx1 r,
    EVP_MD_CTX_reset w ctx = (w1, ctx1, r)
    /\ CTX.provctx ctx1 = None
    /\ CTX.pctx ctx1 = None
    /\ (CTX.engine ctx = None -> CTX.engine ctx1 = None)
    /\ (Z.land (CTX.flags ctx) EVP_MD_CTX_FLAG_NO_INIT = 0 ->
        Z.land (CTX.flags ctx1) EVP_MD_CTX_FLAG_NO_INIT = 0).
Proof.
  destruct ctx as [rq dg en fl mdd pc up pv fd].
  unfold EVP_MD_CTX_reset, reset_legacy. ctx_run.
  destruct dg as [d|]; [destruct (MD.prov d)|];
    [destruct pv, pc| |];
    do 3 eexists; (split; [reflexivity|]); ctx_run;
    rewrite ?set_cleaned_no_init; repeat split; auto.
Qed.

Section Init.
Variables (xi : init_impl) (al : aliasing).

Lemma init_tail_keeps (w w' : world) (l l' : list call)
    (ctx ctx' : EVP_MD_CTX) (r : Z) :
  init_tail xi w l ctx = Returns (w', l', ctx', r) -> w' = w /\ ctx' = ctx.
Proof.
  unfold init_tail. intros H.
  repeat break_in H; try discriminate; inversion H; subst; split; reflexivity.
Qed.

Lemma init_legacy_keeps (w w' : world) (l l' : list call)
    (ctx ctx' : EVP_MD_CTX) (type : option EVP_MD) (impl tmpimpl : option ptr)
    (r : Z) :
  init_legacy xi al w l ctx type impl tmpimpl = Returns (w', l', ctx', r) ->
  states_freed w' = states_freed w /\ CTX.provctx ctx' = CTX.provctx ctx.
Proof.
  unfold init_legacy. intros H.
  destruct ctx as [rq dg en fl mdd pc up pv fd].
  ctx_run_in H.
  repeat (break_in H; ctx_run_in H);
    try discriminate;
    try (apply init_tail_keeps in H; destruct H as [-> ->]);
    try (inversion H; subst);
    split; try reflexivity; freed_simpl; reflexivity.
Qed.

(** The provider route of [EVP_DigestInit_ex] on a context without a
    provider state: the new-context call and what becomes of its
    result. *)
Lemma init_provider_route (w : world) (l : list call)
    (ctx : EVP_MD_CTX) (t : EVP_MD) (f : fnptr) :
  plain ctx -> CTX.provctx ctx = None ->
  MD.prov t <> None -> MD.newctx t = Some f ->
  ENGINE_get_digest_engine xi l (MD.type t) = None ->
  let l1 := (l ++ [C_get_digest_engine (MD.type t)])%list in
  let l2 := (l1 ++ [C_newctx f (MD.prov t)])%list in
  exists w' c ctx' r,
    EVP_DigestInit_ex xi al w l ctx (Some t) None
    = Returns (w', (l2 ++ [c])%list, ctx', r)
    /\ CTX.digest ctx' = Some t
    /\ CTX.provctx ctx' = run_newctx xi l1 f (MD.prov t).
Proof.
  intros (He & Hp & Hf) Hpv Hprov Hnew Heng l1 l2. subst l1 l2.
  destruct ctx as [rq dg en fl mdd pc up pv fd]. cbn in He, Hp, Hf, Hpv. subst.
  unfold EVP_DigestInit_ex. ctx_run.
  rewrite clear_cleaned_no_init, Heng, Hf. ctx_run.
  change (0 =? 0) with true. ctx_run.
  destruct (MD.prov t) as [pr|] eqn:Hpr; [clear Hprov|congruence].
  destruct dg as [d|]; [destruct (0 <? MD.ctx_size d); [destruct mdd|]|];
    ctx_run; rewrite Hnew, ?Hpr;
    destruct (run_newctx xi _ f (Some pr)) as [st|];
    try destruct (MD.dinit t) as [g|];
    do 4 eexists; (split; [reflexivity|]); ctx_run;
    split; reflexivity.
Qed.

(** [EVP_DigestInit_ex] without a type, on a context with no
    engine, no public-key context and [NO_INIT] clear, reads the provider
    of the null type: the behaviour is undefined, whatever digest the
    context already holds. *)
Theorem EVP_DigestInit_ex_null_type (w : world) (l : list call)
    (ctx : EVP_MD_CTX) :
  plain ctx -> EVP_DigestInit_ex xi al w l ctx None None = Undefined.
Proof.
  intros (He & Hp & Hf).
  destruct ctx as [rq dg en fl mdd pc up pv fd]. cbn in He, Hp, Hf. subst.
  unfold EVP_DigestInit_ex. ctx_run.
  rewrite clear_cleaned_no_init, Hf. ctx_run.
  change (0 =? 0) with true. ctx_run.
  destruct dg as [d|]; [destruct (0 <? MD.ctx_size d)|]; reflexivity.
Qed.

(** A provider digest without a new-context function cannot be
    initialised: on a context without a provider state
    [EVP_DigestInit_ex] calls the null function pointer. *)
Theorem EVP_DigestInit_ex_no_newctx (w : world) (l : list call)
    (ctx : EVP_MD_CTX) (t : EVP_MD) :
  plain ctx -> CTX.provctx ctx = None ->
  MD.prov t <> None -> MD.newctx t = None ->
  ENGINE_get_digest_engine xi l (MD.type t) = None ->
  EVP_DigestInit_ex xi al w l ctx (Some t) None = Undefined.
Proof.
  intros (He & Hp & Hf) Hpv Hprov Hnew Heng.
  destruct ctx as [rq dg en fl mdd pc up pv fd]. cbn in He, Hp, Hf, Hpv. subst.
  unfold EVP_DigestInit_ex. ctx_run.
  rewrite clear_cleaned_no_init, Heng, Hf. ctx_run.
  change (0 =? 0) with true. ctx_run.
  destruct (MD.prov t) as [pr|] eqn:Hpr; [clear Hprov|congruence].
  destruct dg as [d|]; [destruct (0 <? MD.ctx_size d)|];
    ctx_run; rewrite Hnew; reflexivity.
Qed.

(** On a context without a provider state [EVP_DigestInit_ex] with
    a provider digest binds the digest, asks its new-context function for
    a state and stores what it gets; it returns what the init function
    returns on that state, and 0, with an error, when no state came or the
    digest has no init function.  No provider state is released and the
    fetched digest is left alone. *)
Theorem EVP_DigestInit_ex_provider (w : world) (l : list call)
    (ctx : EVP_MD_CTX) (t : EVP_MD) (f : fnptr) :
  plain ctx -> CTX.provctx ctx = None ->
  MD.prov t <> None -> MD.newctx t = Some f ->
  ENGINE_get_digest_engine xi l (MD.type t) = None ->
  let l1 := (l ++ [C_get_digest_engine (MD.type t)])%list in
  let l2 := (l1 ++ [C_newctx f (MD.prov t)])%list in
  exists w' ctx',
    EVP_DigestInit_ex xi al w l ctx (Some t) None
    = Returns (w',
               (l2 ++ [match run_newctx xi l1 f (MD.prov t), MD.dinit t with
                       | Some p, Some g => C_dinit g p
                       | _, _ => C_err EVP_R_INITIALIZATION_ERROR
                       end])%list,
               ctx',
               match run_newctx xi l1 f (MD.prov t), MD.dinit t with
               | Some p, Some g => run_dinit xi l2 g p
               | _, _ => 0
               end)
    /\ CTX.digest ctx' = Some t
    /\ CTX.provctx ctx' = run_newctx xi l1 f (MD.prov t)
    /\ CTX.fetched_digest ctx' = CTX.fetched_digest ctx
    /\ states_freed w' = states_freed w.
Proof.
  intros (He & Hp & Hf) Hpv Hprov Hnew Heng l1 l2. subst l1 l2.
  destruct ctx as [rq dg en fl mdd pc up pv fd]. cbn in He, Hp, Hf, Hpv. subst.
  unfold EVP_DigestInit_ex. ctx_run.
  rewrite clear_cleaned_no_init, Heng, Hf. ctx_run.
  change (0 =? 0) with true. ctx_run.
  destruct (MD.prov t) as [pr|] eqn:Hpr; [clear Hprov|congruence].
  destruct dg as [d|]; [destruct (0 <? MD.ctx_size d); [destruct mdd|]|];
    ctx_run; rewrite Hnew, ?Hpr;
    destruct (run_newctx xi _ f (Some pr)) as [st|];
    try destruct (MD.dinit t) as [g|];
    do 2 eexists; (split; [reflexivity|]); ctx_run;
    freed_simpl; repeat split; reflexivity.
Qed.

(** Initialising again with the digest object the context already
    holds keeps the provider state: no new-context call, no release, and
    the init function runs on the old state. *)
Theorem EVP_DigestInit_ex_keeps_state (w : world) (l : list call)
    (ctx : EVP_MD_CTX) (t : EVP_MD) (p : ptr) (g : fnptr) :
  plain ctx -> CTX.provctx ctx = Some p -> CTX.digest ctx = Some t ->
  digest_is_type al = true ->
  MD.prov t <> None -> MD.dinit t = Some g ->
  ENGINE_get_digest_engine xi l (MD.type t) = None ->
  let l1 := (l ++ [C_get_digest_engine (MD.type t)])%list in
  exists w' ctx',
    EVP_DigestInit_ex xi al w l ctx (Some t) None
    = Returns (w', (l1 ++ [C_dinit g p])%list, ctx', run_dinit xi l1 g p)
    /\ CTX.digest ctx' = Some t
    /\ CTX.provctx ctx' = Some p
    /\ states_freed w' = states_freed w.
Proof.
  intros (He & Hp & Hf) Hpv Hdg Hal Hprov Hdi Heng l1. subst l1.
  destruct ctx as [rq dg en fl mdd pc up pv fd].
  cbn in He, Hp, Hf, Hpv, Hdg. subst.
  unfold EVP_DigestInit_ex, md_ptr_eq. ctx_run.
  rewrite clear_cleaned_no_init, Heng, Hf. ctx_run.
  change (0 =? 0) with true. ctx_run.
  destruct (MD.prov t) as [pr|] eqn:Hpr; [clear Hprov|congruence].
  destruct (0 <? MD.ctx_size t); [destruct mdd|];
    ctx_run;
    (destruct (md_eq_dec t t) as [_|Hn]; [|congruence]);
    rewrite Hal; ctx_run; rewrite Hdi;
    do 2 eexists; (split; [reflexivity|]); ctx_run;
    freed_simpl; repeat split; reflexivity.
Qed.

(** Initialising with another digest while a provider state is
    live releases that state with the free function of the digest that is
    replaced, binds the new digest and stores what its new-context
    function returns. *)
Theorem EVP_DigestInit_ex_switch (w : world) (l : list call)
    (ctx : EVP_MD_CTX) (d t : EVP_MD) (p : ptr) (f fr : fnptr) :
  plain ctx -> CTX.provctx ctx = Some p -> CTX.digest ctx = Some d ->
  d <> t \/ digest_is_type al = false ->
  MD.freectx d = Some fr ->
  MD.prov t <> None -> MD.newctx t = Some f ->
  ENGINE_get_digest_engine xi l (MD.type t) = None ->
  let l1 := (l ++ [C_get_digest_engine (MD.type t)])%list in
  exists w' l' ctx' r,
    EVP_DigestInit_ex xi al w l ctx (Some t) None = Returns (w', l', ctx', r)
    /\ CTX.digest ctx' = Some t
    /\ CTX.provctx ctx' = run_newctx xi l1 f (MD.prov t)
    /\ states_freed w' = (states_freed w ++ [(fr, p)])%list.
Proof.
  intros (He & Hp & Hf) Hpv Hdg Hneq Hfr Hprov Hnew Heng l1. subst l1.
  destruct ctx as [rq dg en fl mdd pc up pv fd].
  cbn in He, Hp, Hf, Hpv, Hdg. subst.
  assert (Hcmp : md_ptr_eq (digest_is_type al) (Some d) (Some t) = false).
  { unfold md_ptr_eq. destruct (md_eq_dec d t) as [E|_]; [|reflexivity].
    destruct Hneq as [Hn|Hn]; [contradiction|exact Hn]. }
  unfold EVP_DigestInit_ex. ctx_run.
  rewrite clear_cleaned_no_init, Heng, Hf. ctx_run.
  change (0 =? 0) with true. ctx_run.
  destruct (MD.prov t) as [pr|] eqn:Hpr; [clear Hprov|congruence].
  destruct (0 <? MD.ctx_size d); [destruct mdd|];
    ctx_run; rewrite Hcmp; ctx_run; rewrite Hfr; ctx_run;
    rewrite Hnew, ?Hpr;
    destruct (run_newctx xi _ f (Some pr)) as [st|];
    try destruct (MD.dinit t) as [g|];
    do 4 eexists; (split; [reflexivity|]); ctx_run;
    freed_simpl; repeat split; reflexivity.
Qed.

(** With a digest of the legacy kind [EVP_DigestInit_ex] fetches
    the provider implementation by the type's identity: the context keeps
    the caller's digest as the requested one, binds and holds the fetched
    one, and releases the digest it had fetched before. *)
Theorem EVP_DigestInit_ex_fetches (w : world) (l : list call)
    (ctx : EVP_MD_CTX) (t provmd : EVP_MD) :
  plain ctx -> MD.prov t = None ->
  ENGINE_get_digest_engine xi l (MD.type t) = None ->
  let l1 := (l ++ [C_get_digest_engine (MD.type t)])%list in
  EVP_MD_fetch xi l1 (MD.type t) = Some provmd ->
  MD.newctx provmd <> None ->
  exists w' l' ctx' r,
    EVP_DigestInit_ex xi al w l ctx (Some t) None = Returns (w', l', ctx', r)
    /\ CTX.reqdigest ctx' = Some t
    /\ CTX.digest ctx' = Some provmd
    /\ CTX.fetched_digest ctx' = Some provmd
    /\ In (Ev_meth_free (CTX.fetched_digest ctx)) w'.
Proof.
  intros (He & Hp & Hf) Hprov Heng l1 Hfetch Hnew. subst l1.
  destruct ctx as [rq dg en fl mdd pc up pv fd]. cbn in He, Hp, Hf. subst.
  destruct (MD.newctx provmd) as [f|] eqn:Hn; [clear Hnew|congruence].
  unfold EVP_DigestInit_ex, md_ptr_eq. ctx_run.
  rewrite clear_cleaned_no_init, Heng, Hf. ctx_run.
  change (0 =? 0) with true. ctx_run. rewrite Hprov, Hfetch. ctx_run.
  repeat (rewrite ?Hn; ctx_run; break_goal);
    do 4 eexists; (split; [reflexivity|]); ctx_run;
    repeat split; rewrite ?in_app_iff; cbn [In]; tauto.
Qed.

(** The legacy handling of [EVP_DigestInit_ex] never touches the
    provider state: with a public-key context, with [NO_INIT] set or with
    an engine given, a call that returns has released no provider state
    and has left [provctx] as it was. *)
Theorem EVP_DigestInit_ex_legacy_keeps_state (w w' : world)
    (l l' : list call) (ctx ctx' : EVP_MD_CTX) (type : option EVP_MD)
    (impl : option ptr) (r : Z) :
  CTX.pctx ctx <> None
  \/ Z.land (CTX.flags ctx) EVP_MD_CTX_FLAG_NO_INIT <> 0
  \/ impl <> None ->
  EVP_DigestInit_ex xi al w l ctx type impl = Returns (w', l', ctx', r) ->
  states_freed w' = states_freed w /\ CTX.provctx ctx' = CTX.provctx ctx.
Proof.
  intros Hleg H.
  destruct ctx as [rq dg en fl mdd pc up pv fd].
  cbn [CTX.pctx CTX.flags CTX.provctx] in *.
  unfold EVP_DigestInit_ex in H. ctx_run_in H.
  destruct (Z.land fl EVP_MD_CTX_FLAG_NO_INIT =? 0) eqn:Hfl;
    [apply Z.eqb_eq in Hfl;
     destruct pc as [pc|], impl as [en'|];
     try (exfalso; destruct Hleg as [Hx|[Hx|Hx]]; congruence)|];
    repeat (break_in H; ctx_run_in H);
    try discriminate;
    try (apply init_tail_keeps in H; destruct H as [-> ->];
         split; reflexivity);
    (apply init_legacy_keeps in H; destruct H as [-> ->];
     split; [freed_simpl; reflexivity|reflexivity]).
Qed.

(** [EVP_DigestInit] never takes over a provider state: after its
    reset the context has none, so with a provider digest the
    new-context function is always called and its result stored. *)
Theorem EVP_DigestInit_new_state (w : world) (l : list call)
    (ctx : EVP_MD_CTX) (t : EVP_MD) (f : fnptr) :
  CTX.engine ctx = None ->
  Z.land (CTX.flags ctx) EVP_MD_CTX_FLAG_NO_INIT = 0 ->
  MD.prov t <> None -> MD.newctx t = Some f ->
  ENGINE_get_digest_engine xi l (MD.type t) = None ->
  let l1 := (l ++ [C_get_digest_engine (MD.type t)])%list in
  let l2 := (l1 ++ [C_newctx f (MD.prov t)])%list in
  exists w' c ctx' r,
    EVP_DigestInit xi al w l ctx (Some t)
    = Returns (w', (l2 ++ [c])%list, ctx', r)
    /\ CTX.digest ctx' = Some t
    /\ CTX.provctx ctx' = run_newctx xi l1 f (MD.prov t).
Proof.
  intros He Hf Hprov Hnew Heng l1 l2. subst l1 l2.
  unfold EVP_DigestInit.
  destruct (reset_leaves w ctx) as (w1 & ctx1 & r1 & -> & Hpv & Hpc & He1 & Hf1).
  apply init_provider_route; auto.
  repeat split; auto.
Qed.

End Init.

Lemma EVP_DigestInit_ex_null_type_witness :
  plain sha256_ctx
  /\ EVP_DigestInit_ex sha256_init_impl no_alias [] [] sha256_ctx None None
     = Undefined.
Proof.
  assert (H : plain sha256_ctx) by (repeat split; reflexivity).
  split; [exact H|].
  exact (EVP_DigestInit_ex_null_type sha256_init_impl no_alias [] []
           sha256_ctx H).
Defined.

Lemma EVP_DigestInit_ex_no_newctx_witness :
  EVP_DigestInit_ex sha256_init_impl no_alias [] [] EVP_MD_CTX_new
    (Some size_only_md) None = Undefined.
Proof.
  apply EVP_DigestInit_ex_no_newctx;
    [repeat split; reflexivity | reflexivity | discriminate
    | reflexivity | reflexivity].
Defined.

Lemma EVP_DigestInit_ex_provider_witness :
  exists w' ctx',
    EVP_DigestInit_ex sha256_init_impl no_alias [] [] EVP_MD_CTX_new
      (Some sha256_md) None
    = Returns (w', [C_get_digest_engine 0; C_newctx 0x1000 (Some 7);
                    C_dinit 0x1010 0x2000], ctx', 1)
    /\ CTX.digest ctx' = Some sha256_md
    /\ CTX.provctx ctx' = Some 0x2000
    /\ CTX.fetched_digest ctx' = None
    /\ states_freed w' = [].
Proof.
  apply (EVP_DigestInit_ex_provider sha256_init_impl no_alias [] []
           EVP_MD_CTX_new sha256_md 0x1000);
    [repeat split; reflexivity | reflexivity | discriminate
    | reflexivity | reflexivity].
Defined.

Lemma EVP_DigestInit_ex_keeps_state_witness :
  exists w' ctx',
    EVP_DigestInit_ex sha256_init_impl (mkAliasing true true) [] []
      sha256_ctx (Some sha256_md) None
    = Returns (w', [C_get_digest_engine 0; C_dinit 0x1010 0x2000], ctx', 1)
    /\ CTX.digest ctx' = Some sha256_md
    /\ CTX.provctx ctx' = Some 0x2000
    /\ states_freed w' = [].
Proof.
  apply (EVP_DigestInit_ex_keeps_state sha256_init_impl (mkAliasing true true)
           [] [] sha256_ctx sha256_md 0x2000 0x1010);
    [repeat split; reflexivity | reflexivity | reflexivity | reflexivity
    | discriminate | reflexivity | reflexivity].
Defined.

Lemma EVP_DigestInit_ex_switch_witness :
  exists w' l' ctx' r,
    EVP_DigestInit_ex sha256_init_impl no_alias [] [] sha256_ctx
      (Some nofinal_md) None = Returns (w', l', ctx', r)
    /\ CTX.digest ctx' = Some nofinal_md
    /\ CTX.provctx ctx' = Some 0x2000
    /\ states_freed w' = [(0x1040, 0x2000)].
Proof.
  apply (EVP_DigestInit_ex_switch sha256_init_impl no_alias [] [] sha256_ctx
           sha256_md nofinal_md 0x2000 0x1000 0x1040);
    [repeat split; reflexivity | reflexivity | reflexivity
    | left; discriminate | reflexivity | discriminate
    | reflexivity | reflexivity].
Defined.

Lemma EVP_DigestInit_ex_fetches_witness :
  exists w' l' ctx' r,
    EVP_DigestInit_ex fetching_init_impl no_alias [] [] EVP_MD_CTX_new
      (Some sha256_legacy_md) None = Returns (w', l', ctx', r)
    /\ CTX.reqdigest ctx' = Some sha256_legacy_md
    /\ CTX.digest ctx' = Some sha256_md
    /\ CTX.fetched_digest ctx' = Some sha256_md
    /\ In (Ev_meth_free None) w'.
Proof.
  apply (EVP_DigestInit_ex_fetches fetching_init_impl no_alias [] []
           EVP_MD_CTX_new sha256_legacy_md sha256_md);
    [repeat split; reflexivity | reflexivity | reflexivity
    | reflexivity | discriminate].
Defined.

Lemma EVP_DigestInit_ex_legacy_keeps_state_witness :
  exists w' l' ctx' r,
    EVP_DigestInit_ex sha256_init_impl no_alias [] [] no_init_ctx
      (Some sha256_legacy_md) None = Returns (w', l', ctx', r)
    /\ states_freed w' = []
    /\ CTX.provctx ctx' = Some 0x2000.
Proof.
  do 4 eexists. split; [reflexivity|].
  eapply (EVP_DigestInit_ex_legacy_keeps_state sha256_init_impl no_alias
            [] _ [] _ no_init_ctx _ (Some sha256_legacy_md) None);
    [right; left; discriminate | reflexivity].
Defined.

Lemma EVP_DigestInit_new_state_witness :
  exists w' c ctx' r,
    EVP_DigestInit sha256_init_impl no_alias [] [] sha256_ctx (Some sha256_md)
    = Returns (w', [C_get_digest_engine 0; C_newctx 0x1000 (Some 7); c],
               ctx', r)
    /\ CTX.digest ctx' = Some sha256_md
    /\ CTX.provctx ctx' = Some 0x2000.
Proof.
  apply (EVP_DigestInit_new_state sha256_init_impl no_alias [] [] sha256_ctx
           sha256_md 0x1000);
    [reflexivity | reflexivity | discriminate | reflexivity | reflexivity].
Defined.

Section OneShot.
Variables (im : impl) (xi : init_impl) (al : aliasing).

(** [EVP_Digest] with a provider digest that has a new-context and
    a free function always returns, 0 or 1, and leaves nothing behind:
    the provider state it obtained is released exactly once, whichever
    step fails, no other state is released, and the context is freed
    last. *)
Theorem EVP_Digest_frees_state (w : world) (l : list call)
    (data : option ptr) (count : Z) (size : option Z) (t : EVP_MD)
    (f fr : fnptr) :
  MD.prov t <> None -> MD.newctx t = Some f -> MD.freectx t = Some fr ->
  ENGINE_get_digest_engine xi l (MD.type t) = None ->
  let l1 := (l ++ [C_get_digest_engine (MD.type t)])%list in
  exists w' l' size' r,
    EVP_Digest im xi al w l data count size (Some t) None
    = Returns ((w' ++ [Ev_free_ctx])%list, l', size', r)
    /\ (r = 0 \/ r = 1)
    /\ states_freed w'
       = (states_freed w
          ++ match run_newctx xi l1 f (MD.prov t) with
             | Some p => [(fr, p)]
             | None => []
             end)%list.
Proof.
  intros Hprov Hnew Hfr Heng l1. subst l1.
  destruct (MD.prov t) as [pr|] eqn:Hpr; [clear Hprov|congruence].
  unfold EVP_Digest, EVP_DigestInit_ex. ctx_run. rewrite Heng.
  change (Z.land (Z.land (Z.lor 0 EVP_MD_CTX_FLAG_ONESHOT)
                    (Z.lnot EVP_MD_CTX_FLAG_CLEANED)) EVP_MD_CTX_FLAG_NO_INIT =? 0)
    with true.
  ctx_run. rewrite Hpr, Hnew. ctx_run.
  repeat
    (rewrite ?Hpr, ?Hfr; ctx_run;
     match goal with
     | |- context [match run_newctx ?a ?b ?c ?d with _ => _ end] =>
       destruct (run_newctx a b c d) as [st|]
     | |- context [match MD.dinit t with _ => _ end] =>
       destruct (MD.dinit t)
     | |- context [match MD.dupdate t with _ => _ end] =>
       destruct (MD.dupdate t)
     | |- context [match MD.dfinal t with _ => _ end] =>
       destruct (MD.dfinal t)
     | |- context [let '(_, _) := run_dfinal ?a ?b ?c ?d ?e in _] =>
       destruct (run_dfinal a b c d e) as [? ?]
     | |- context [match size with _ => _ end] => destruct size
     | |- context [if ?a =? ?b then _ else _] => destruct (a =? b)
     | |- context [if ?a <=? ?b then _ else _] => destruct (a <=? b)
     end);
  rewrite ?app_two; do 4 eexists;
  (split; [reflexivity|split; [auto|freed_simpl; reflexivity]]).
Qed.

End OneShot.

Lemma EVP_Digest_frees_state_witness :
  exists w' l' size' r,
    EVP_Digest sha256_impl sha256_init_impl no_alias [] [] (Some 0x3000) 64
      (Some 0) (Some sha256_md) None
    = Returns ((w' ++ [Ev_free_ctx])%list, l', size', r)
    /\ (r = 0 \/ r = 1)
    /\ states_freed w' = [(0x1040, 0x2000)].
Proof.
  apply (EVP_Digest_frees_state sha256_impl sha256_init_impl no_alias [] []
           (Some 0x3000) 64 (Some 0) sha256_md 0x1000 0x1040);
    [discriminate | reflexivity | reflexivity | reflexivity].
Defined.

End DigestLifeFacts.

(** ** Both parties of an exchange derive the same secret *)

Module DHAgreementFacts.
Import DHExch DHModel DHAgreement.

Lemma pow_mod_swap (p g a b : Z) :
  0 <= a -> 0 <= b ->
  (g ^ b mod p) ^ a mod p = (g ^ a mod p) ^ b mod p.
Proof.
  intros Ha Hb.
  rewrite !Z.mod_pow_l.
  rewrite <- !Z.pow_mul_r by lia.
  rewrite (Z.mul_comm b a). reflexivity.
Qed.

Lemma shared_secret_swap (p g a b : Z) :
  0 <= a -> 0 <= b ->
  shared_secret (pub_key (key_of p g b)) (key_of p g a)
  = shared_secret (pub_key (key_of p g a)) (key_of p g b).
Proof.
  intros Ha Hb. unfold shared_secret, key_of.
  cbn [priv_key pub_key DHModel.p].
  replace (0 <=? a) with true by (symmetry; apply Z.leb_le; lia).
  replace (0 <=? b) with true by (symmetry; apply Z.leb_le; lia).
  destruct (0 <? p); cbn [andb]; [|reflexivity].
  f_equal. apply pow_mod_swap; assumption.
Qed.

Lemma derive_swap (p g a b v : Z) (ka kb : option ptr) (keylen outlen : Z) :
  0 <= a -> 0 <= b -> (ka = None <-> kb = None) ->
  dh_derive ops (mkDhCtx (Some (key_of p g a)) (Some (key_of p g b)) v)
    ka keylen outlen
  = dh_derive ops (mkDhCtx (Some (key_of p g b)) (Some (key_of p g a)) v)
      kb keylen outlen.
Proof.
  intros Ha Hb Hk. unfold dh_derive. cbn [dh dhpeer pad].
  change (DHExch.DH_size ops (key_of p g b))
    with (DHExch.DH_size ops (key_of p g a)).
  destruct ka as [x|], kb as [y|];
    [|destruct Hk as [_ Hk]; specialize (Hk eq_refl); discriminate
     |destruct Hk as [Hk _]; specialize (Hk eq_refl); discriminate
     |reflexivity].
  destruct (outlen <? to_size_t (DHExch.DH_size ops (key_of p g a)));
    [reflexivity|].
  cbn [DHExch.DH_get0_key DHExch.DH_compute_key DHExch.DH_compute_key_padded
       ops].
  unfold DH_compute_key, DH_compute_key_padded.
  rewrite (shared_secret_swap p g a b Ha Hb).
  change (DH_size (key_of p g b)) with (DH_size (key_of p g a)).
  reflexivity.
Qed.

(** Two parties of one group, each with a context made by
    [dh_newctx], [dh_init] with its own key and [dh_set_peer] with the
    other's, get the same result from [dh_derive], size query or secret,
    return value, length and bytes; and so they do after both have set
    the same padding with [dh_set_params].  The secret is computed by the
    modelled [DH_compute_key] and [DH_compute_key_padded]. *)
Theorem dh_exchange_agrees (p g a b v : Z) (ka kb : option ptr)
    (keylen outlen : Z) :
  0 <= a -> 0 <= b -> (ka = None <-> kb = None) ->
  let alice := key_of p g a in
  let bob := key_of p g b in
  exists ca cb,
    party alice bob = Returns ca
    /\ party bob alice = Returns cb
    /\ dh_derive ops ca ka keylen outlen
       = dh_derive ops cb kb keylen outlen
    /\ match padded ca v, padded cb v with
       | Some ca', Some cb' =>
         dh_derive ops ca' ka keylen outlen
         = dh_derive ops cb' kb keylen outlen
       | _, _ => False
       end.
Proof.
  intros Ha Hb Hk alice bob. subst alice bob.
  do 2 eexists. split; [reflexivity|]. split; [reflexivity|].
  split; [apply derive_swap; assumption|].
  unfold padded, dh_set_params.
  cbn [fst dh dhpeer pad DHExch.OSSL_PARAM_locate_const
       DHExch.OSSL_PARAM_get_int ops OSSL_PARAM_locate_const key].
  change (String.eqb OSSL_EXCHANGE_PARAM_PAD OSSL_EXCHANGE_PARAM_PAD)
    with true.
  cbv iota.
  destruct (OSSL_PARAM_get_int (mkParam OSSL_EXCHANGE_PARAM_PAD
                                  OSSL_PARAM_INTEGER v));
    cbn [fst]; apply derive_swap; assumption.
Qed.

Lemma dh_exchange_agrees_witness :
  exists ca cb,
    party (key_of 65537 3 2) (key_of 65537 3 5) = Returns ca
    /\ party (key_of 65537 3 5) (key_of 65537 3 2) = Returns cb
    /\ dh_derive ops ca (Some 0x3000) 0 16
       = dh_derive ops cb (Some 0x4000) 0 16
    /\ match padded ca 1, padded cb 1 with
       | Some ca', Some cb' =>
         dh_derive ops ca' (Some 0x3000) 0 16
         = dh_derive ops cb' (Some 0x4000) 0 16
       | _, _ => False
       end.
Proof.
  apply (dh_exchange_agrees 65537 3 2 5 1 (Some 0x3000) (Some 0x4000) 0 16);
    [lia | lia | split; discriminate].
Defined.

End DHAgreementFacts.
